(** * Study-Assistant: the Gemini service layer

    A shallow embedding of the API-orchestration code of the repository:
    the retry wrapper [fetchWithRetry], the response sanitizer
    [safeParseJson], the question formatter of [generateQuestions] and
    the page loop of [analyzePdfContentComprehensive].

    Two source files carry this code.  The refactored service (the file
    with the "Reusable Helper Functions" banner) is embedded in module
    [Refactored]; [src/services/geminiService.ts], which inlines the
    transport call and the clean-up at every call site, is embedded in
    module [Service]. *)

From Stdlib Require Import String Ascii DecimalString ZArith NArith Lia Bool List.
Import ListNotations.

Set Implicit Arguments.
Set Warnings "-register-all".

(** ** JavaScript strings and values *)

Module Js.

(** A JavaScript string is a sequence of UTF-16 code units. *)
Definition jsstring := list N.

Definition js (s : string) : jsstring :=
  map N_of_ascii (list_ascii_of_string s).

Definition NL : N := 10%N.
Definition BACKTICK : N := 96%N.
Definition DQUOTE : N := 34%N.

(** Template-literal rendering of an integral number. *)
Definition showZ (z : Z) : jsstring :=
  js (NilZero.string_of_int (Z.to_int z)).

Definition showNat (n : nat) : jsstring := showZ (Z.of_nat n).

(** Values as they come out of [JSON.parse], plus [undefined].  A number
    is kept as the decimal [mantissa * 10 ^ exponent] its literal denotes
    (rounding to binary64 is not modelled); an object is its list of own
    properties in insertion order (that integer-like keys come first in
    JavaScript is not modelled: no code path looks at the order). *)
Inductive Value : Type :=
| VUndefined
| VNull
| VBool (b : bool)
| VNum (mantissa exponent : Z)
| VStr (s : jsstring)
| VArr (elems : list Value)
| VObj (props : list (jsstring * Value)).

Fixpoint jsstring_eqb (a b : jsstring) : bool :=
  match a, b with
  | [], [] => true
  | x :: a', y :: b' => (x =? y)%N && jsstring_eqb a' b'
  | _, _ => false
  end.

(** ToBoolean. *)
Definition truthy (v : Value) : bool :=
  match v with
  | VUndefined | VNull => false
  | VBool b => b
  | VNum m _ => negb (m =? 0)%Z
  | VStr s => match s with [] => false | _ => true end
  | VArr _ | VObj _ => true
  end.

(** [a || b] *)
Definition or_else (a b : Value) : Value := if truthy a then a else b.

(** [Array.isArray] *)
Definition isArray (v : Value) : bool :=
  match v with VArr _ => true | _ => false end.

(** Own-property lookup in an object. *)
Fixpoint lookup (k : jsstring) (props : list (jsstring * Value)) : Value :=
  match props with
  | [] => VUndefined
  | (k', v) :: rest => if jsstring_eqb k k' then v else lookup k rest
  end.

(** Whether an object has an own property [k]. *)
Definition has_own (k : jsstring) (v : Value) : bool :=
  match v with
  | VObj props => existsb (fun kv => jsstring_eqb k (fst kv)) props
  | _ => false
  end.

(** Canonical array index denoted by a property key, if any. *)
Definition digit_of (c : N) : option nat :=
  if ((48 <=? c) && (c <=? 57))%N then Some (N.to_nat (c - 48)) else None.

Fixpoint index_acc (acc : nat) (k : jsstring) : option nat :=
  match k with
  | [] => Some acc
  | c :: rest =>
      match digit_of c with
      | Some d => index_acc (10 * acc + d) rest
      | None => None
      end
  end.

Definition index_of_key (k : jsstring) : option nat :=
  match k with
  | [] => None
  | [c] => digit_of c
  | c :: _ => if (c =? 48)%N then None else index_acc 0 k
  end.

(** [v[k]] / [v.k] for a value that is neither [null] nor [undefined],
    for keys that no built-in prototype defines (every key the service
    reads: candidates, 0, content, parts, text, keyPoints, type, ...). *)
Definition prop (v : Value) (k : jsstring) : Value :=
  match v with
  | VObj props => lookup k props
  | VArr elems =>
      match index_of_key k with
      | Some i => nth i elems VUndefined
      | None => VUndefined
      end
  | VStr s =>
      match index_of_key k with
      | Some i => match nth_error s i with
                  | Some c => VStr [c]
                  | None => VUndefined
                  end
      | None => VUndefined
      end
  | _ => VUndefined
  end.

Definition nullish (v : Value) : bool :=
  match v with VUndefined | VNull => true | _ => false end.

(** [v?.k] *)
Definition opt_prop (v : Value) (k : jsstring) : Value :=
  if nullish v then VUndefined else prop v k.

(** Assignment of a property in an object literal under construction:
    an existing key keeps its place, a new key is appended. *)
Fixpoint set_prop (k : jsstring) (v : Value) (props : list (jsstring * Value))
  : list (jsstring * Value) :=
  match props with
  | [] => [(k, v)]
  | (k', v') :: rest =>
      if jsstring_eqb k k' then (k', v) :: rest
      else (k', v') :: set_prop k v rest
  end.

(** Keys and values copied by object spread [{...v}]. *)
Fixpoint indexed (i : nat) (vs : list Value) : list (jsstring * Value) :=
  match vs with
  | [] => []
  | v :: rest => (showNat i, v) :: indexed (S i) rest
  end.

Definition spread_props (v : Value) : list (jsstring * Value) :=
  match v with
  | VObj props => props
  | VArr elems => indexed 0 elems
  | VStr s => indexed 0 (map (fun c => VStr [c]) s)
  | _ => []
  end.

(** The string iterator walks code points: a surrogate pair is one item. *)
Definition high_surrogate (c : N) : bool := ((55296 <=? c) && (c <=? 56319))%N.
Definition low_surrogate (c : N) : bool := ((56320 <=? c) && (c <=? 57343))%N.

Fixpoint code_points (s : jsstring) : list Value :=
  match s with
  | [] => []
  | c :: rest =>
      match rest with
      | d :: rest' =>
          if high_surrogate c && low_surrogate d
          then VStr [c; d] :: code_points rest'
          else VStr [c] :: code_points rest
      | [] => [VStr [c]]
      end
  end.

End Js.


(** ** String methods and the two regular expressions of the service *)

Module Text.
Import Js.

(** WhiteSpace and LineTerminator code units, as [String.prototype.trim]
    removes them. *)
Definition is_whitespace (c : N) : bool :=
  ((c =? 9) || (c =? 10) || (c =? 11) || (c =? 12) || (c =? 13) || (c =? 32)
   || (c =? 160) || (c =? 5760) || ((8192 <=? c) && (c <=? 8202))
   || (c =? 8232) || (c =? 8233) || (c =? 8239) || (c =? 8287)
   || (c =? 12288) || (c =? 65279))%N.

Fixpoint trimStart (s : jsstring) : jsstring :=
  match s with
  | [] => []
  | c :: rest => if is_whitespace c then trimStart rest else s
  end.

Definition trimEnd (s : jsstring) : jsstring := rev (trimStart (rev s)).

Definition trim (s : jsstring) : jsstring := trimEnd (trimStart s).

(** [s.substring(0, n)] *)
Definition substring0 (n : nat) (s : jsstring) : jsstring := firstn n s.

(** [parts.join(sep)] *)
Fixpoint join (sep : jsstring) (parts : list jsstring) : jsstring :=
  match parts with
  | [] => []
  | [p] => p
  | p :: rest => p ++ sep ++ join sep rest
  end.

Definition is_digit (c : N) : bool := ((48 <=? c) && (c <=? 57))%N.

(** [parseInt(digits, 10)] on a non-empty run of decimal digits, as the
    integer the digits denote. *)
Definition parseInt (digits : jsstring) : Z :=
  fold_left (fun acc c => (10 * acc + Z.of_N (c - 48))%Z) digits 0%Z.

Fixpoint starts_with (p s : jsstring) : bool :=
  match p, s with
  | [], _ => true
  | a :: p', b :: s' => (a =? b)%N && starts_with p' s'
  | _ :: _, [] => false
  end.

(** A left-to-right scan with a sticky matcher, as [replace] and
    [matchAll] do with a [/g] regular expression that matches no empty
    string: [match_at s] tries the expression at the start of [s] and
    gives the capture and the number of code units consumed.  Unmatched
    code units come out as [inl], matches as [inr]. *)
Section Scan.
Variable C : Type.
Variable match_at : jsstring -> option (C * nat).

Fixpoint scan (skip : nat) (s : jsstring) : list (N + C) :=
  match s with
  | [] => []
  | c :: rest =>
      match skip with
      | S k => scan k rest
      | O =>
          match match_at s with
          | Some (cap, n) => inr cap :: scan (Nat.pred n) rest
          | None => inl c :: scan 0 rest
          end
      end
  end.
End Scan.

Definition unmatched {C} (items : list (N + C)) : jsstring :=
  flat_map (fun it => match it with inl c => [c] | inr _ => [] end) items.

Definition captures {C} (items : list (N + C)) : list C :=
  flat_map (fun it => match it with inl _ => [] | inr cap => [cap] end) items.

(** The fence expression [/```json\n?|\n?```/]: the first alternative is
    tried first and its optional newline is greedy. *)
Definition FENCE : jsstring := [BACKTICK; BACKTICK; BACKTICK].
Definition FENCE_JSON : jsstring := FENCE ++ js "json".

Definition fence_at (s : jsstring) : option (unit * nat) :=
  if starts_with FENCE_JSON s then
    if starts_with [NL] (skipn 7 s) then Some (tt, 8) else Some (tt, 7)
  else if starts_with (NL :: FENCE) s then Some (tt, 4)
  else if starts_with FENCE s then Some (tt, 3)
  else None.

(** [text.replace(/```json\n?|\n?```/g, '')] *)
Definition remove_fences (text : jsstring) : jsstring :=
  unmatched (scan fence_at 0 text).

(** The page expression
    [/==Start of OCR for page (\d+)==([\s\S]*?)==End of OCR for page \1==/].
    The digits are taken greedily (a shorter run is followed by a digit,
    never by [==]); the lazy body ends at the first place where the end
    marker carrying the same digits starts. *)
Definition PAGE_START : jsstring := js "==Start of OCR for page ".
Definition PAGE_END : jsstring := js "==End of OCR for page ".
Definition EQEQ : jsstring := js "==".

Fixpoint take_digits (s : jsstring) : jsstring :=
  match s with
  | c :: rest => if is_digit c then c :: take_digits rest else []
  | [] => []
  end.

(** The shortest prefix of [s] that is followed by [marker]. *)
Fixpoint before_marker (marker s : jsstring) : option jsstring :=
  if starts_with marker s then Some []
  else match s with
       | [] => None
       | c :: rest => option_map (cons c) (before_marker marker rest)
       end.

(** A page match: capture group 1 and capture group 2. *)
Record PageMatch : Type := {
  group1 : jsstring;
  group2 : jsstring
}.

Definition page_at (s : jsstring) : option (PageMatch * nat) :=
  if starts_with PAGE_START s then
    let after_start := skipn (length PAGE_START) s in
    let digits := take_digits after_start in
    let after_digits := skipn (length digits) after_start in
    match digits with
    | [] => None
    | _ :: _ =>
        if starts_with EQEQ after_digits then
          let marker := PAGE_END ++ digits ++ EQEQ in
          match before_marker marker (skipn 2 after_digits) with
          | Some content =>
              Some ({| group1 := digits; group2 := content |},
                    length PAGE_START + length digits + 2
                    + length content + length marker)
          | None => None
          end
        else None
    end
  else None.

(** [Array.from(textContent.matchAll(pageRegex))] *)
Definition page_matches (textContent : jsstring) : list PageMatch :=
  captures (scan page_at 0 textContent).

(** SameValueZero on the items of a [Set].  Two numbers are the same when
    they denote the same decimal; an array or an object is the same only
    as itself, and every array or object that reaches the set comes from
    a different place of a parsed response. *)
Definition same_number (m1 e1 m2 e2 : Z) : bool :=
  let e := Z.min e1 e2 in
  (m1 * 10 ^ (e1 - e) =? m2 * 10 ^ (e2 - e))%Z.

Definition same_value_zero (a b : Value) : bool :=
  match a, b with
  | VUndefined, VUndefined => true
  | VNull, VNull => true
  | VBool x, VBool y => Bool.eqb x y
  | VNum m1 e1, VNum m2 e2 => same_number m1 e1 m2 e2
  | VStr x, VStr y => jsstring_eqb x y
  | _, _ => false
  end.

(** [[...new Set(items)]]: first occurrences, in order. *)
Fixpoint set_items (seen items : list Value) : list Value :=
  match items with
  | [] => []
  | v :: rest =>
      if existsb (same_value_zero v) seen then set_items seen rest
      else v :: set_items (seen ++ [v]) rest
  end.

Definition unique (items : list Value) : list Value := set_items [] items.

End Text.

(** ** The host: transport, console, timers *)

Module Host.
Import Js.

(** What a caller of [fetch] hands over.  The body is kept as the value
    given to [JSON.stringify]. *)
Record RequestInit : Type := {
  method : jsstring;
  headers : list (jsstring * jsstring);
  body : Value
}.

Record Request : Type := {
  req_url : jsstring;
  req_init : RequestInit
}.

Record Response : Type := {
  status : Z;
  text : jsstring
}.

(** [response.ok] *)
Definition ok (r : Response) : bool :=
  ((200 <=? status r) && (status r <=? 299))%Z.

(** A settled [fetch] promise. *)
Inductive FetchOutcome : Type :=
| Responds (r : Response)
| Rejects (reason : jsstring).

(** Whatever a [catch] clause can receive. *)
Inductive Thrown : Type :=
| NetworkFailure (reason : jsstring)   (* rejection of the fetch promise *)
| ErrorObj (message : jsstring)        (* new Error(message) *)
| TypeError (message : jsstring)
| SyntaxError (message : jsstring).

Inductive Result (A : Type) : Type :=
| Ok (a : A)
| Throw (e : Thrown).
Arguments Ok {A} a.
Arguments Throw {A} e.

(** Console calls, one constructor per call site, with the data the call
    site prints. *)
Inductive LogEntry : Type :=
| WarnServerError (status delay : Z) (attempt : nat) (retries : Z)
| ErrorClientError (status : Z)
| WarnNetworkOrFetch (delay : Z) (attempt : nat) (retries : Z) (error : Thrown)
| ErrorParseJson (rawContent : jsstring)
| LogRawResponse (label : jsstring) (content : Value)
| LogFoundPages (count : nat)
| ErrorIn (label : jsstring) (error : Thrown)
| ErrorPage (label : jsstring) (pageNumber : Z) (error : Thrown)
| ErrorPageNotOk (pageNumber : Z)
| ErrorPageNoContent (pageNumber : Z).

Inductive Event : Type :=
| EvFetch (req : Request)
| EvSleep (ms : Z)          (* await new Promise(r => setTimeout(r, ms)) *)
| EvConsole (entry : LogEntry).

(** The world threaded through the service: how many [fetch] calls were
    issued so far and everything observable that happened, oldest first. *)
Record World : Type := {
  calls : nat;
  trace : list Event
}.

Definition World0 : World := {| calls := 0; trace := [] |}.

(** The host environment: the API key (the [VITE_GEMINI_API_KEY] of the
    build or, failing that, the literal of the source), the JSON parser
    of the runtime and the remote end of [fetch], which sees the ordinal
    of the call and the request. *)
Class Env : Type := {
  GEMINI_API_KEY : jsstring;
  JSON_parse : jsstring -> option Value;
  transport : nat -> Request -> FetchOutcome
}.

(** State and exceptions.  [St S] threads a state of type [S]; a thrown
    value leaves the state as it was at the [throw]. *)
Definition St (S A : Type) : Type := S -> Result A * S.

(** Code that only touches the world. *)
Definition M (A : Type) : Type := St World A.

Definition ret {S A} (a : A) : St S A := fun s => (Ok a, s).

Definition bind {S A B} (m : St S A) (k : A -> St S B) : St S B :=
  fun s => match m s with
           | (Ok a, s') => k a s'
           | (Throw e, s') => (Throw e, s')
           end.

Definition throw {S A} (e : Thrown) : St S A := fun s => (Throw e, s).

Definition try_catch {S A} (m : St S A) (handler : Thrown -> St S A) : St S A :=
  fun s => match m s with
           | (Ok a, s') => (Ok a, s')
           | (Throw e, s') => handler e s'
           end.

(** Code with local mutable variables of type [L] next to the world. *)
Definition lift {L A} (m : M A) : St (L * World) A :=
  fun s => let (r, w') := m (snd s) in (r, (fst s, w')).

Definition modify {L} (f : L -> L) : St (L * World) unit :=
  fun s => (Ok tt, (f (fst s), snd s)).

(** A block that declares locals: they start as [init] and their final
    values are handed to the code after the block. *)
Definition with_locals {L A} (init : L) (m : St (L * World) A) : M (A * L) :=
  fun w => match m (init, w) with
           | (Ok a, (l, w')) => (Ok (a, l), w')
           | (Throw e, (_, w')) => (Throw e, w')
           end.

Definition emit (ev : Event) : M unit :=
  fun w => (Ok tt, {| calls := calls w; trace := trace w ++ [ev] |}).

Definition console (entry : LogEntry) : M unit := emit (EvConsole entry).

Definition sleep (ms : Z) : M unit := emit (EvSleep ms).

Definition fetch `{Env} (url : jsstring) (options : RequestInit) : M Response :=
  fun w =>
    let req := {| req_url := url; req_init := options |} in
    let w' := {| calls := S (calls w); trace := trace w ++ [EvFetch req] |} in
    match transport (calls w) req with
    | Responds r => (Ok r, w')
    | Rejects reason => (Throw (NetworkFailure reason), w')
    end.

(** [JSON.parse(text)] *)
Definition parse_json `{Env} (text : jsstring) : M Value :=
  match JSON_parse text with
  | Some v => ret v
  | None => throw (SyntaxError (js "Unexpected token in JSON"))
  end.

(** [response.json()] *)
Definition json `{Env} (r : Response) : M Value := parse_json (text r).

(** Member access [v.k], which throws on [null] and [undefined]. *)
Definition member (v : Value) (k : jsstring) : M Value :=
  if nullish v
  then throw (TypeError (js "Cannot read properties of null or undefined"))
  else ret (prop v k).

(** Spread into an argument list, [...v]. *)
Definition iterate (v : Value) : M (list Value) :=
  match v with
  | VArr elems => ret elems
  | VStr s => ret (code_points s)
  | _ => throw (TypeError (js "value is not iterable"))
  end.

(** [xs.map(f)] with a callback that may throw. *)
Fixpoint map_m {A B} (f : A -> M B) (xs : list A) : M (list B) :=
  match xs with
  | [] => ret []
  | x :: rest => bind (f x) (fun y => bind (map_m f rest) (fun ys => ret (y :: ys)))
  end.

(** Projections of a trace. *)
Definition waits (evs : list Event) : list Z :=
  flat_map (fun ev => match ev with EvSleep ms => [ms] | _ => [] end) evs.

Definition fetches (evs : list Event) : list Request :=
  flat_map (fun ev => match ev with EvFetch r => [r] | _ => [] end) evs.

Module Notations.
  Notation "x <- m ;; k" := (bind m (fun x => k))
    (at level 61, m at next level, right associativity).
  Notation "m ;; k" := (bind m (fun _ => k))
    (at level 61, right associativity).
End Notations.

End Host.

(** ** What both service files share *)

Module Common.
Import Js Text Host Host.Notations.

Inductive Language : Type := English | Tamil.

(** The [AnalysisResult] of the components, as far as the service reads it. *)
Record AnalysisResult : Type := {
  ar_keyPoints : list jsstring;
  ar_summary : jsstring;
  ar_tnpscRelevance : jsstring
}.

Record QuestionResult : Type := {
  questions : list Value;
  summary : jsstring;
  keyPoints : list jsstring;
  difficulty : jsstring;
  totalQuestions : nat
}.

(** What [analyzePdfContentComprehensive] returns. *)
Record Comprehensive : Type := {
  pageAnalyses : list Value;
  overallSummary : jsstring;
  totalKeyPoints : list Value;
  tnpscCategories : list Value
}.

(** The three arrays the page loop pushes to. *)
Record Arrays : Type := {
  arr_pageAnalyses : list Value;
  allKeyPoints : list Value;
  allCategories : list Value
}.

Definition no_arrays : Arrays :=
  {| arr_pageAnalyses := []; allKeyPoints := []; allCategories := [] |}.

Definition push_pageAnalysis (v : Value) (a : Arrays) : Arrays :=
  {| arr_pageAnalyses := arr_pageAnalyses a ++ [v];
     allKeyPoints := allKeyPoints a;
     allCategories := allCategories a |}.

Definition push_keyPoints (vs : list Value) (a : Arrays) : Arrays :=
  {| arr_pageAnalyses := arr_pageAnalyses a;
     allKeyPoints := allKeyPoints a ++ vs;
     allCategories := allCategories a |}.

Definition push_categories (vs : list Value) (a : Arrays) : Arrays :=
  {| arr_pageAnalyses := arr_pageAnalyses a;
     allKeyPoints := allKeyPoints a;
     allCategories := allCategories a ++ vs |}.

(** An object literal: later fields override earlier ones of the same key. *)
Definition object (fields : list (jsstring * Value)) : Value :=
  VObj (fold_left (fun acc kv => set_prop (fst kv) (snd kv) acc) fields []).

Definition num (z : Z) : Value := VNum z 0.

Definition GEMINI_API_URL : jsstring :=
  js "https://generativelanguage.googleapis.com/v1beta/models/gemini-1.5-flash-latest:generateContent".

Definition endpoint `{Env} : jsstring :=
  GEMINI_API_URL ++ js "?key=" ++ GEMINI_API_KEY.

Definition http_error_message (status : Z) : jsstring :=
  js "HTTP error! status: " ++ showZ status.

Definition no_content_message : jsstring :=
  js "No content received from Gemini API".

(** The request every text-only call site builds. *)
Definition text_request (prompt : jsstring) (maxOutputTokens : Z) : RequestInit :=
  {| method := js "POST";
     headers := [(js "Content-Type", js "application/json")];
     body := object
       [(js "contents",
          VArr [object [(js "parts", VArr [object [(js "text", VStr prompt)]])]]);
        (js "generationConfig",
          object [(js "temperature", VNum 7 (-1));
                  (js "maxOutputTokens", num maxOutputTokens)])] |}.

(** [data.candidates?.[0]?.content?.parts?.[0]?.text] *)
Definition candidate_text (data : Value) : M Value :=
  candidates <- member data (js "candidates") ;;
  ret (opt_prop (opt_prop (opt_prop (opt_prop (opt_prop
         candidates (js "0")) (js "content")) (js "parts")) (js "0")) (js "text")).

(** [content.replace(/```json\n?|\n?```/g, '').trim()] *)
Definition clean (text : jsstring) : jsstring := trim (remove_fences text).

(** The object spread over a question with the four normalised fields;
    [placeholder] is the options array of the call site. *)
Definition format_question (placeholder : list jsstring) (q : Value) : M Value :=
  type <- member q (js "type") ;;
  ret (object
    (spread_props q ++
     [(js "type", or_else type (VStr (js "mcq")));
      (js "options",
         if isArray (prop q (js "options")) then prop q (js "options")
         else VArr (map VStr placeholder));
      (js "answer", or_else (prop q (js "answer")) (VStr (js "A")));
      (js "matchingPairs", or_else (prop q (js "matchingPairs")) VNull)])).

Definition comprehensive_summary (pages keyPoints : nat) (ending : jsstring)
  : jsstring :=
  js "Comprehensive analysis of " ++ showNat pages ++ js " pages with "
     ++ showNat keyPoints ++ ending.

Definition comprehensive_result (arrays : Arrays) (ending : jsstring)
  : Comprehensive :=
  {| pageAnalyses := arr_pageAnalyses arrays;
     overallSummary :=
       comprehensive_summary (length (arr_pageAnalyses arrays))
                             (length (allKeyPoints arrays)) ending;
     totalKeyPoints := allKeyPoints arrays;
     tnpscCategories := unique (allCategories arrays) |}.

End Common.

(** ** The refactored service *)

Module Refactored.
Import Js Text Host Host.Notations Common.

Section WithEnv.
Context `{Env}.

Definition default_retries : Z := 3.
Definition default_delay : Z := 1000.

Definition exhausted_message (url : jsstring) (retries : Z) : jsstring :=
  js "Failed to fetch from " ++ url ++ js " after " ++ showZ retries
     ++ js " attempts.".

(** One pass through the body of the [for] loop of [fetchWithRetry]:
    [inl response] is the [return], [inr delay'] goes on to the next
    iteration with the updated delay.  The [throw] of the client-error
    branch sits inside the [try] block, as in the source. *)
Definition attempt (url : jsstring) (options : RequestInit) (retries : Z)
    (i : nat) (delay : Z) : M (Response + Z) :=
  try_catch
    (response <- fetch url options ;;
     if ok response then ret (inl response)
     else if ((500 <=? status response) && (status response <? 600))%Z then
       console (WarnServerError (status response) delay (S i) retries) ;;
       sleep delay ;;
       ret (inr (delay * 2)%Z)
     else
       console (ErrorClientError (status response)) ;;
       throw (ErrorObj (http_error_message (status response))))
    (fun error =>
       console (WarnNetworkOrFetch delay (S i) retries error) ;;
       sleep delay ;;
       ret (inr (delay * 2)%Z)).

(** [for (let i = 0; i < retries; i++) { ... } throw new Error(...)],
    with [remaining] the number of iterations still to run. *)
Fixpoint retry_loop (url : jsstring) (options : RequestInit) (retries : Z)
    (remaining i : nat) (delay : Z) : M Response :=
  match remaining with
  | O => throw (ErrorObj (exhausted_message url retries))
  | S remaining' =>
      r <- attempt url options retries i delay ;;
      match r with
      | inl response => ret response
      | inr delay' => retry_loop url options retries remaining' (S i) delay'
      end
  end.

Definition fetchWithRetry (url : jsstring) (options : RequestInit)
    (retries delay : Z) : M Response :=
  retry_loop url options retries (Z.to_nat retries) 0 delay.

Definition invalid_json_message : jsstring :=
  js "Invalid JSON response from API. The response could not be parsed.".

Definition safeParseJson (text : jsstring) : M Value :=
  let cleanedText := clean text in
  try_catch
    (parse_json cleanedText)
    (fun error =>
       console (ErrorParseJson text) ;;
       throw (ErrorObj invalid_json_message)).

(** A call [safeParseJson(content)] with [content] of type [any]: only a
    string has a [replace] method. *)
Definition safeParseJson_any (content : Value) : M Value :=
  match content with
  | VStr text => safeParseJson text
  | _ => throw (TypeError (js "text.replace is not a function"))
  end.

Definition questions_prompt : jsstring :=
  js "You are an expert TNPSC question paper setter... [Original prompt text] ...Maintain TNPSC exam standards and patterns.".

Definition format_questions (questions : Value) : M (list Value) :=
  match questions with
  | VArr qs => map_m (format_question [js "A"; js "B"; js "C"; js "D"]) qs
  | _ => ret []
  end.

Definition generateQuestions (analysisResults : list AnalysisResult)
    (difficulty : jsstring) (outputLanguage : Language) : M QuestionResult :=
  try_catch
    (let combinedContent :=
       map (fun result =>
              (join [NL] (ar_keyPoints result), ar_summary result,
               ar_tnpscRelevance result)) analysisResults in
     response <- fetchWithRetry endpoint (text_request questions_prompt 5000)
                   default_retries default_delay ;;
     data <- json response ;;
     content <- candidate_text data ;;
     if negb (truthy content) then throw (ErrorObj no_content_message)
     else
       console (LogRawResponse (js "Raw questions response:") content) ;;
       questions <- safeParseJson_any content ;;
       formattedQuestions <- format_questions questions ;;
       ret {| questions := formattedQuestions;
              summary := join (js " ") (map (fun c => snd (fst c)) combinedContent);
              keyPoints := flat_map ar_keyPoints analysisResults;
              difficulty := difficulty;
              totalQuestions := length formattedQuestions |})
    (fun error =>
       console (ErrorIn (js "Error in generateQuestions:") error) ;;
       throw error).

Definition page_prompt : jsstring :=
  js "You are an expert TNPSC content analyst... [Original prompt text] ...directly convertible into high-scoring exam answers.".

Definition analyzeIndividualPage (textContent : jsstring) (pageNumber : Z)
    (outputLanguage : Language) : M Value :=
  try_catch
    (response <- fetchWithRetry endpoint (text_request page_prompt 5000)
                   default_retries default_delay ;;
     data <- json response ;;
     content <- candidate_text data ;;
     if negb (truthy content) then throw (ErrorObj no_content_message)
     else
       analysis <- safeParseJson_any content ;;
       keyPoints <- member analysis (js "keyPoints") ;;
       ret (object
         [(js "pageNumber", num pageNumber);
          (js "keyPoints", or_else keyPoints (VArr []));
          (js "studyPoints", or_else (prop analysis (js "studyPoints")) (VArr []));
          (js "summary", or_else (prop analysis (js "summary")) (VStr []));
          (js "tnpscRelevance",
             or_else (prop analysis (js "tnpscRelevance")) (VStr []))]))
    (fun error =>
       console (ErrorPage (js "Error analyzing page") pageNumber error) ;;
       throw error).

(** The object pushed to [pageAnalyses]: [{ pageNumber, ...analysis }]. *)
Definition page_entry (pageNumber : Z) (analysis : Value) : Value :=
  object ((js "pageNumber", num pageNumber) :: spread_props analysis).

(** The body of [for (const match of pageMatches)]. *)
Definition page_body (outputLanguage : Language) (m : PageMatch)
  : St (Arrays * World) unit :=
  let pageNumber := parseInt (group1 m) in
  let pageContent := trim (group2 m) in
  if length pageContent <? 50 then ret tt
  else
    try_catch
      (analysis <- lift (analyzeIndividualPage pageContent pageNumber outputLanguage) ;;
       modify (push_pageAnalysis (page_entry pageNumber analysis)) ;;
       keyPoints <- lift (member analysis (js "keyPoints")) ;;
       items <- lift (iterate (or_else keyPoints (VArr []))) ;;
       modify (push_keyPoints items) ;;
       if truthy (prop analysis (js "tnpscCategories")) then
         categories <- lift (iterate (or_else (prop analysis (js "tnpscCategories"))
                                         (VArr []))) ;;
         modify (push_categories categories)
       else ret tt)
      (fun error =>
         lift (console (ErrorPage
                 (js "Error processing comprehensive analysis for page")
                 pageNumber error))) ;;
    lift (sleep 200).

Fixpoint page_loop (outputLanguage : Language) (pageMatches : list PageMatch)
  : St (Arrays * World) unit :=
  match pageMatches with
  | [] => ret tt
  | m :: rest =>
      page_body outputLanguage m ;;
      page_loop outputLanguage rest
  end.

Definition analyzePdfContentComprehensive (textContent : jsstring)
    (outputLanguage : Language) : M Comprehensive :=
  try_catch
    (let pageMatches := page_matches textContent in
     console (LogFoundPages (length pageMatches)) ;;
     done <- with_locals no_arrays (page_loop outputLanguage pageMatches) ;;
     ret (comprehensive_result (snd done) (js " total key points.")))
    (fun error =>
       console (ErrorIn (js "Error in comprehensive PDF analysis:") error) ;;
       throw error).

End WithEnv.
End Refactored.

(** ** [src/services/geminiService.ts] *)

Module Service.
Import Js Text Host Host.Notations Common.

(** The fixed prose that ends the prompt templates (the JSON shape asked
    of the model and the lists of requirements).  No code path looks
    into it, so it is left open. *)
Class Templates : Type := {
  page_format : jsstring;
  questions_format_before_difficulty : jsstring;
  questions_format_after_difficulty : jsstring
}.

Section WithEnv.
Context `{Env} `{Templates}.

Definition nl : jsstring := [NL].

Definition questions_language (outputLanguage : Language) : jsstring :=
  match outputLanguage with
  | Tamil => js "Please provide all questions and answers in Tamil language."
  | English => js "Please provide all questions and answers in English language."
  end.

Definition responses_language (outputLanguage : Language) : jsstring :=
  match outputLanguage with
  | Tamil => js "Please provide all responses in Tamil language."
  | English => js "Please provide all responses in English language."
  end.

(** [combinedContent.map((content, index) => `...`)] *)
Fixpoint analysis_blocks (index : nat)
    (combinedContent : list (jsstring * jsstring * jsstring)) : list jsstring :=
  match combinedContent with
  | [] => []
  | (kp, sm, rel) :: rest =>
      (nl ++ js "Analysis " ++ showNat (index + 1) ++ js ":" ++ nl
          ++ js "Key Points: " ++ kp ++ nl
          ++ js "Summary: " ++ sm ++ nl
          ++ js "TNPSC Relevance: " ++ rel ++ nl)
      :: analysis_blocks (S index) rest
  end.

Definition questions_prompt (combinedContent : list (jsstring * jsstring * jsstring))
    (difficulty : jsstring) (languageInstruction : jsstring) : jsstring :=
  nl ++ js "You are an expert TNPSC question paper setter with deep knowledge of exam patterns. Generate 20-25 high-quality questions based on the following content:"
     ++ nl ++ nl ++ js "Content Analysis:" ++ nl
     ++ join nl (analysis_blocks 0 combinedContent) ++ nl ++ nl
     ++ js "Difficulty Level: " ++ difficulty ++ nl
     ++ languageInstruction
     ++ questions_format_before_difficulty ++ difficulty
     ++ questions_format_after_difficulty.

(** [content.replace(...).trim()] with [content] of type [any]. *)
Definition clean_any (content : Value) : M jsstring :=
  match content with
  | VStr text => ret (clean text)
  | _ => throw (TypeError (js "content.replace is not a function"))
  end.

(** [questions.map(...)]: only an array has a [map] method. *)
Definition format_questions (questions : Value) : M (list Value) :=
  match questions with
  | VArr qs =>
      map_m (format_question
               [js "Option A"; js "Option B"; js "Option C"; js "Option D"]) qs
  | VUndefined | VNull =>
      throw (TypeError (js "Cannot read properties of null or undefined"))
  | _ => throw (TypeError (js "questions.map is not a function"))
  end.

Definition generateQuestions (analysisResults : list AnalysisResult)
    (difficulty : jsstring) (outputLanguage : Language) : M QuestionResult :=
  try_catch
    (let combinedContent :=
       map (fun result =>
              (join nl (ar_keyPoints result), ar_summary result,
               ar_tnpscRelevance result)) analysisResults in
     let languageInstruction := questions_language outputLanguage in
     let prompt := questions_prompt combinedContent difficulty languageInstruction in
     response <- fetch endpoint (text_request prompt 5000) ;;
     if negb (ok response)
     then throw (ErrorObj (http_error_message (status response)))
     else
       data <- json response ;;
       content <- candidate_text data ;;
       if negb (truthy content) then throw (ErrorObj no_content_message)
       else
         console (LogRawResponse (js "Raw questions response:") content) ;;
         cleanedContent <- clean_any content ;;
         questions <- parse_json cleanedContent ;;
         formattedQuestions <- format_questions questions ;;
         ret {| questions := formattedQuestions;
                summary := join (js " ") (map (fun c => snd (fst c)) combinedContent);
                keyPoints := flat_map ar_keyPoints analysisResults;
                difficulty := difficulty;
                totalQuestions := length formattedQuestions |})
    (fun error =>
       console (ErrorIn (js "Error generating questions:") error) ;;
       throw error).

Definition page_prompt (languageInstruction : jsstring) (pageNumber : Z)
    (pageContent : jsstring) : jsstring :=
  nl ++ js "Analyze this PDF page content for TNPSC exam preparation:" ++ nl ++ nl
     ++ languageInstruction ++ nl ++ nl
     ++ js "Page " ++ showZ pageNumber ++ js " Content: "
     ++ substring0 4000 pageContent
     ++ page_format.

(** The first half of the [try] block of the page loop: the transport
    call and the decoding of its answer, down to
    [const analysis = JSON.parse(cleanedContent)].  [None] stands for the
    two exits by [continue], which log the reason themselves. *)
Definition request_page_analysis (outputLanguage : Language) (pageNumber : Z)
    (pageContent : jsstring) : M (option Value) :=
  let languageInstruction := responses_language outputLanguage in
  let prompt := page_prompt languageInstruction pageNumber pageContent in
  response <- fetch endpoint (text_request prompt 2000) ;;
  if negb (ok response) then
    console (ErrorPageNotOk pageNumber) ;;
    ret None
  else
    data <- json response ;;
    content <- candidate_text data ;;
    if negb (truthy content) then
      console (ErrorPageNoContent pageNumber) ;;
      ret None
    else
      cleanedContent <- clean_any content ;;
      analysis <- parse_json cleanedContent ;;
      ret (Some analysis).

(** The object pushed to [pageAnalyses]. *)
Definition page_entry (pageNumber : Z) (analysis : Value) : Value :=
  object
    [(js "pageNumber", num pageNumber);
     (js "keyPoints", or_else (prop analysis (js "keyPoints")) (VArr []));
     (js "studyPoints", or_else (prop analysis (js "studyPoints")) (VArr []));
     (js "summary", or_else (prop analysis (js "summary")) (VStr []));
     (js "tnpscRelevance", or_else (prop analysis (js "tnpscRelevance")) (VStr []))].

(** The body of [for (const match of batch)].  A [continue] inside the
    [try] block skips the delay that ends the body: the block yields
    [true] when it leaves that way. *)
Definition page_body (outputLanguage : Language) (m : PageMatch)
  : St (Arrays * World) unit :=
  let pageNumber := parseInt (group1 m) in
  let pageContent := trim (group2 m) in
  if length pageContent <? 50 then ret tt
  else
    continue <-
      try_catch
        (answer <- lift (request_page_analysis outputLanguage pageNumber pageContent) ;;
         match answer with
         | None => ret true
         | Some analysis =>
             keyPoints <- lift (member analysis (js "keyPoints")) ;;
             modify (push_pageAnalysis (page_entry pageNumber analysis)) ;;
             items <- lift (iterate (or_else keyPoints (VArr []))) ;;
             modify (push_keyPoints items) ;;
             categories <- lift (iterate
                 (or_else (prop analysis (js "tnpscCategories")) (VArr []))) ;;
             modify (push_categories categories) ;;
             ret false
         end)
        (fun error =>
           lift (console (ErrorPage (js "Error analyzing page") pageNumber error)) ;;
           ret false) ;;
    if continue then ret tt else lift (sleep 500).

Fixpoint batch_loop (outputLanguage : Language) (batch : list PageMatch)
  : St (Arrays * World) unit :=
  match batch with
  | [] => ret tt
  | m :: rest =>
      page_body outputLanguage m ;;
      batch_loop outputLanguage rest
  end.

Definition batchSize : nat := 5.

(** [for (let i = 0; i < pageMatches.length; i += batchSize)], with
    [remaining] the number of iterations still to run. *)
Fixpoint batches_loop (outputLanguage : Language) (pageMatches : list PageMatch)
    (remaining i : nat) : St (Arrays * World) unit :=
  match remaining with
  | O => ret tt
  | S remaining' =>
      let batch := firstn batchSize (skipn i pageMatches) in
      batch_loop outputLanguage batch ;;
      batches_loop outputLanguage pageMatches remaining' (i + batchSize)
  end.

Definition batch_count (n : nat) : nat := (n + (batchSize - 1)) / batchSize.

Definition analyzePdfContentComprehensive (textContent : jsstring)
    (outputLanguage : Language) : M Comprehensive :=
  try_catch
    (let pageMatches := page_matches textContent in
     console (LogFoundPages (length pageMatches)) ;;
     done <- with_locals no_arrays
               (batches_loop outputLanguage pageMatches
                  (batch_count (length pageMatches)) 0) ;;
     ret (comprehensive_result (snd done) (js " total key points identified.")))
    (fun error =>
       console (ErrorIn (js "Error in comprehensive PDF analysis:") error) ;;
       throw error).

End WithEnv.
End Service.

(** ** A JSON parser for concrete runs

    The claims are proved for any [JSON_parse].  To run the service on
    concrete inputs the environment is instantiated with this parser of
    the JSON grammar (ECMA-404): white space, the three literals,
    numbers, strings with escapes, arrays and objects. *)

Module Json.
Import Js Text.

Definition is_ws (c : N) : bool :=
  ((c =? 32) || (c =? 9) || (c =? 10) || (c =? 13))%N.

Fixpoint skip_ws (s : jsstring) : jsstring :=
  match s with
  | c :: rest => if is_ws c then skip_ws rest else s
  | [] => []
  end.

Definition hex_val (c : N) : option N :=
  if ((48 <=? c) && (c <=? 57))%N then Some (c - 48)%N
  else if ((97 <=? c) && (c <=? 102))%N then Some (c - 87)%N
  else if ((65 <=? c) && (c <=? 70))%N then Some (c - 55)%N
  else None.

(** The code unit a two-character escape stands for. *)
Definition escape (c : N) : option N :=
  if (c =? 34)%N then Some 34%N          (* quotation mark *)
  else if (c =? 92)%N then Some 92%N     (* reverse solidus *)
  else if (c =? 47)%N then Some 47%N     (* solidus *)
  else if (c =? 98)%N then Some 8%N      (* b: backspace *)
  else if (c =? 102)%N then Some 12%N    (* f: form feed *)
  else if (c =? 110)%N then Some 10%N    (* n: line feed *)
  else if (c =? 114)%N then Some 13%N    (* r: carriage return *)
  else if (c =? 116)%N then Some 9%N     (* t: tab *)
  else None.

Definition prepend (c : N) (r : option (jsstring * jsstring))
  : option (jsstring * jsstring) :=
  match r with
  | Some (str, rest) => Some (c :: str, rest)
  | None => None
  end.

(** The characters of a string literal after its opening quote. *)
Fixpoint string_body (s : jsstring) : option (jsstring * jsstring) :=
  match s with
  | [] => None
  | c :: rest =>
      if (c =? 34)%N then Some ([], rest)
      else if (c =? 92)%N then
        match rest with
        | [] => None
        | e :: rest1 =>
            if (e =? 117)%N then
              match rest1 with
              | h1 :: h2 :: h3 :: h4 :: rest2 =>
                  match hex_val h1, hex_val h2, hex_val h3, hex_val h4 with
                  | Some a, Some b, Some c', Some d =>
                      prepend (a * 4096 + b * 256 + c' * 16 + d)%N (string_body rest2)
                  | _, _, _, _ => None
                  end
              | _ => None
              end
            else
              match escape e with
              | Some x => prepend x (string_body rest1)
              | None => None
              end
        end
      else if (c <? 32)%N then None
      else prepend c (string_body rest)
  end.

Definition number (s : jsstring) : option (Value * jsstring) :=
  let (negative, s1) :=
    match s with
    | c :: r => if (c =? 45)%N then (true, r) else (false, s)
    | [] => (false, s)
    end in
  let int := take_digits s1 in
  let s2 := skipn (length int) s1 in
  match int with
  | [] => None
  | d :: more =>
      if (d =? 48)%N && negb (match more with [] => true | _ => false end)
      then None
      else
        let frac_rest :=
          match s2 with
          | c :: r =>
              if (c =? 46)%N then
                match take_digits r with
                | [] => None
                | f => Some (f, skipn (length f) r)
                end
              else Some ([], s2)
          | [] => Some ([], s2)
          end in
        match frac_rest with
        | None => None
        | Some (frac, s3) =>
            let exp_rest :=
              match s3 with
              | c :: r =>
                  if ((c =? 101) || (c =? 69))%N then
                    let (minus, r1) :=
                      match r with
                      | g :: r' =>
                          if (g =? 45)%N then (true, r')
                          else if (g =? 43)%N then (false, r')
                          else (false, r)
                      | [] => (false, r)
                      end in
                    match take_digits r1 with
                    | [] => None
                    | e => Some ((if minus then - parseInt e else parseInt e)%Z,
                                 skipn (length e) r1)
                    end
                  else Some (0%Z, s3)
              | [] => Some (0%Z, s3)
              end in
            match exp_rest with
            | None => None
            | Some (e, s4) =>
                let m := parseInt (int ++ frac) in
                Some (VNum (if negative then - m else m)%Z
                           (e - Z.of_nat (length frac))%Z, s4)
            end
        end
  end.

Definition object_of (members : list (jsstring * Value)) : Value :=
  VObj (fold_left (fun acc kv => set_prop (fst kv) (snd kv) acc) members []).

Fixpoint value (fuel : nat) (s : jsstring) {struct fuel}
  : option (Value * jsstring) :=
  match fuel with
  | O => None
  | S fuel' =>
      match skip_ws s with
      | [] => None
      | c :: rest =>
          if (c =? 34)%N then
            match string_body rest with
            | Some (str, r) => Some (VStr str, r)
            | None => None
            end
          else if (c =? 91)%N then
            match skip_ws rest with
            | d :: r =>
                if (d =? 93)%N then Some (VArr [], r)
                else match elements fuel' (d :: r) with
                     | Some (vs, r') => Some (VArr vs, r')
                     | None => None
                     end
            | [] => None
            end
          else if (c =? 123)%N then
            match skip_ws rest with
            | d :: r =>
                if (d =? 125)%N then Some (VObj [], r)
                else match members fuel' (d :: r) with
                     | Some (kvs, r') => Some (object_of kvs, r')
                     | None => None
                     end
            | [] => None
            end
          else if starts_with (js "true") (c :: rest)
          then Some (VBool true, skipn 4 (c :: rest))
          else if starts_with (js "false") (c :: rest)
          then Some (VBool false, skipn 5 (c :: rest))
          else if starts_with (js "null") (c :: rest)
          then Some (VNull, skipn 4 (c :: rest))
          else number (c :: rest)
      end
  end
with elements (fuel : nat) (s : jsstring) {struct fuel}
  : option (list Value * jsstring) :=
  match fuel with
  | O => None
  | S fuel' =>
      match value fuel' s with
      | None => None
      | Some (v, r) =>
          match skip_ws r with
          | c :: r' =>
              if (c =? 44)%N then
                match elements fuel' r' with
                | Some (vs, r'') => Some (v :: vs, r'')
                | None => None
                end
              else if (c =? 93)%N then Some ([v], r')
              else None
          | [] => None
          end
      end
  end
with members (fuel : nat) (s : jsstring) {struct fuel}
  : option (list (jsstring * Value) * jsstring) :=
  match fuel with
  | O => None
  | S fuel' =>
      match skip_ws s with
      | q :: r0 =>
          if (q =? 34)%N then
            match string_body r0 with
            | None => None
            | Some (key, r1) =>
                match skip_ws r1 with
                | colon :: r2 =>
                    if (colon =? 58)%N then
                      match value fuel' r2 with
                      | None => None
                      | Some (v, r3) =>
                          match skip_ws r3 with
                          | c :: r4 =>
                              if (c =? 44)%N then
                                match members fuel' r4 with
                                | Some (kvs, r5) => Some ((key, v) :: kvs, r5)
                                | None => None
                                end
                              else if (c =? 125)%N then Some ([(key, v)], r4)
                              else None
                          | [] => None
                          end
                      end
                    else None
                | [] => None
                end
            end
          else None
      | [] => None
      end
  end.

(** [JSON.parse]: one value, then nothing but white space. *)
Definition parse (s : jsstring) : option Value :=
  match value (2 * length s + 2) s with
  | Some (v, rest) =>
      match skip_ws rest with
      | [] => Some v
      | _ :: _ => None
      end
  | None => None
  end.

(** JSON text written with single quotes where JSON has double quotes. *)
Definition jq (s : string) : jsstring :=
  map (fun c => if (c =? 39)%N then DQUOTE else c) (js s).

(** The string literal that denotes [s]. *)
Definition quote (s : jsstring) : jsstring :=
  DQUOTE ::
  flat_map (fun c =>
              if (c =? 34)%N then [92; 34]
              else if (c =? 92)%N then [92; 92]
              else if (c =? 10)%N then [92; 110]
              else [c])%N s
  ++ [DQUOTE].

End Json.

(** ** Vocabulary of the statements *)

Module Observe.
Import Js Text Host Common.

#[local] Set Warnings "-ambiguous-paths".

(** An attempt fails when the promise rejects or the response is not ok. *)
Definition failed (o : FetchOutcome) : bool :=
  match o with
  | Responds r => negb (ok r)
  | Rejects _ => true
  end.

Definition server_error (status : Z) : bool :=
  ((500 <=? status) && (status <? 600))%Z.

(** A response with a client-error status: not ok and not in [500,600). *)
Definition client_error (o : FetchOutcome) : bool :=
  match o with
  | Responds r => negb (ok r) && negb (server_error (status r))
  | Rejects _ => false
  end.

(** The delays announced by the two retry warnings of [fetchWithRetry]. *)
Definition announced_delays (evs : list Event) : list Z :=
  flat_map (fun ev => match ev with
                      | EvConsole (WarnServerError _ delay _ _) => [delay]
                      | EvConsole (WarnNetworkOrFetch delay _ _ _) => [delay]
                      | _ => []
                      end) evs.

(** The errors the [catch] clause of [fetchWithRetry] received. *)
Definition caught_errors (evs : list Event) : list Thrown :=
  flat_map (fun ev => match ev with
                      | EvConsole (WarnNetworkOrFetch _ _ _ error) => [error]
                      | _ => []
                      end) evs.

(** The geometric sequence [d, 2d, 4d, ...] of length [n]. *)
Definition backoff (d : Z) (n : nat) : list Z :=
  map (fun k => (d * 2 ^ Z.of_nat k)%Z) (seq 0 n).

(** [s] wrapped in markdown code fences: the opening fence with its
    language tag and a newline, [s], a newline and the closing fence. *)
Definition fenced (s : jsstring) : jsstring :=
  FENCE_JSON ++ [NL] ++ s ++ [NL] ++ FENCE.

(** A page segment long enough to be analysed. *)
Definition dense (m : PageMatch) : bool :=
  negb (length (trim (group2 m)) <? 50).

(** The world after some more events. *)
Definition after (w : World) (evs : list Event) : World :=
  {| calls := calls w; trace := trace w ++ evs |}.

(** [w'] is [w] some events and calls later. *)
Definition extends (w w' : World) : Prop :=
  calls w <= calls w' /\ exists evs, trace w' = trace w ++ evs.

(** The items [...(page.keyPoints)] spreads: the elements of an array,
    the code points of a string; any other value cannot be spread and
    yields nothing. *)
Definition key_point_items (page : Value) : list Value :=
  match prop page (js "keyPoints") with
  | VArr elems => elems
  | VStr s => code_points s
  | _ => []
  end.

(** Code that only ever adds to the world. *)
Definition grows {A} (m : M A) : Prop := forall w, extends w (snd (m w)).

Definition grows_locally {L A} (m : St (L * World) A) : Prop :=
  forall s, extends (snd s) (snd (snd (m s))).

(** The world in which the page loop starts: the count of matches has
    been logged. *)
Definition found (pageMatches : list PageMatch) (w : World) : World :=
  after w [EvConsole (LogFoundPages (length pageMatches))].

(** The calls the page loop of the refactored service makes to
    [analyzeIndividualPage], in order, each with its page number and
    what it gave. *)
Fixpoint model_calls `{Env} (lang : Language) (pageMatches : list PageMatch)
    (s : Arrays * World) : list (Z * Result Value) :=
  match pageMatches with
  | [] => []
  | m :: rest =>
      let next := snd (Refactored.page_body lang m s) in
      if dense m then
        (parseInt (group1 m),
         fst (Refactored.analyzeIndividualPage
                (trim (group2 m)) (parseInt (group1 m)) lang (snd s)))
        :: model_calls lang rest next
      else model_calls lang rest next
  end.

(** The same for [geminiService.ts], whose model call is the transport
    call with the decoding of its answer. *)
Fixpoint service_calls `{Env} `{Service.Templates} (lang : Language)
    (pageMatches : list PageMatch) (s : Arrays * World)
  : list (Z * Result (option Value)) :=
  match pageMatches with
  | [] => []
  | m :: rest =>
      let next := snd (Service.page_body lang m s) in
      if dense m then
        (parseInt (group1 m),
         fst (Service.request_page_analysis
                lang (parseInt (group1 m)) (trim (group2 m)) (snd s)))
        :: service_calls lang rest next
      else service_calls lang rest next
  end.

(** The calls that returned and the calls that threw. *)
Definition returned {A} (cs : list (Z * Result A)) : list (Z * A) :=
  flat_map (fun c => match snd c with
                     | Ok a => [(fst c, a)]
                     | Throw _ => []
                     end) cs.

Definition raised {A} (cs : list (Z * Result A)) : list (Z * Thrown) :=
  flat_map (fun c => match snd c with
                     | Ok _ => []
                     | Throw e => [(fst c, e)]
                     end) cs.

(** The entries the returned calls of [geminiService.ts] lead to: an
    answer that is an analysis other than [null] is pushed. *)
Definition service_entries (cs : list (Z * Result (option Value))) : list Value :=
  flat_map (fun c => match snd c with
                     | Some analysis =>
                         if nullish analysis then []
                         else [Service.page_entry (fst c) analysis]
                     | None => []
                     end) (returned cs).

(** The entry a returned call of the refactored service leads to. *)
Definition entry_of (c : Z * Value) : Value :=
  Refactored.page_entry (fst c) (snd c).

Definition comprehensive_label : jsstring :=
  js "Error processing comprehensive analysis for page".

Definition service_label : jsstring := js "Error analyzing page".

(** The error entry a page leaves in the console. *)
Definition page_error (label : jsstring) (c : Z * Thrown) : Event :=
  EvConsole (ErrorPage label (fst c) (snd c)).

(** What [finish] makes of the state the page loop ends in. *)
Definition finish (ending : jsstring) (run : Result unit * (Arrays * World))
  : Result Comprehensive * World :=
  (Ok (comprehensive_result (fst (snd run)) ending), snd (snd run)).

(** A call of [geminiService.ts] that was answered with an analysis. *)
Definition answered (c : Z * Result (option Value)) : bool :=
  match snd c with
  | Ok (Some analysis) => negb (nullish analysis)
  | _ => false
  end.

(** [y] is the question [q] with its four fields normalised:
    [placeholder] names the options put in when [q] has no array of
    options. *)
Definition normalised (placeholder : list jsstring) (q y : Value) : Prop :=
  prop y (js "type") = or_else (prop q (js "type")) (VStr (js "mcq"))
  /\ truthy (prop y (js "type")) = true
  /\ prop y (js "type") <> VStr []
  /\ prop y (js "options")
     = (if isArray (prop q (js "options")) then prop q (js "options")
        else VArr (map VStr placeholder))
  /\ isArray (prop y (js "options")) = true
  /\ prop y (js "answer") = or_else (prop q (js "answer")) (VStr (js "A"))
  /\ truthy (prop y (js "answer")) = true
  /\ prop y (js "answer") <> VStr []
  /\ has_own (js "matchingPairs") y = true
  /\ prop y (js "matchingPairs") = or_else (prop q (js "matchingPairs")) VNull.

(** What the parsed payload of the questions call leads to. *)
Definition questions_of (placeholder : list jsstring) (payload : Value)
    (questions : list Value) : Prop :=
  match payload with
  | VArr qs => Forall2 (normalised placeholder) qs questions
  | _ => questions = []
  end.

(** The request [fetch(url, options)] sends. *)
Definition request (url : jsstring) (options : RequestInit) : Request :=
  {| req_url := url; req_init := options |}.

(** What one pass of the loop body leaves behind after its [fetch],
    read off the outcome of that [fetch]. *)
Definition after_fetch (o : FetchOutcome) (retries : Z) (i : nat) (delay : Z)
  : list Event :=
  match o with
  | Responds r =>
      if ok r then []
      else if server_error (status r) then
        [EvConsole (WarnServerError (status r) delay (S i) retries); EvSleep delay]
      else
        [EvConsole (ErrorClientError (status r));
         EvConsole (WarnNetworkOrFetch delay (S i) retries
                      (ErrorObj (http_error_message (status r))));
         EvSleep delay]
  | Rejects reason =>
      [EvConsole (WarnNetworkOrFetch delay (S i) retries (NetworkFailure reason));
       EvSleep delay]
  end.

Definition attempt_result (o : FetchOutcome) (delay : Z) : Response + Z :=
  match o with
  | Responds r => if ok r then inl r else inr (delay * 2)%Z
  | Rejects _ => inr (delay * 2)%Z
  end.

End Observe.

(** ** Concrete environments *)

Module Run.
Import Js Text Host Common Observe.

(** A mock transport that plays a script, one outcome per call, and
    rejects once the script is over. *)
Definition scripted (script : list FetchOutcome) : Env :=
  {| GEMINI_API_KEY := js "test-key";
     JSON_parse := Json.parse;
     transport := fun i _ => nth i script (Rejects (js "Failed to fetch")) |}.

(** A transport that answers every call alike. *)
Definition always (o : FetchOutcome) : Env :=
  {| GEMINI_API_KEY := js "test-key";
     JSON_parse := Json.parse;
     transport := fun _ _ => o |}.

Definition with_status (code : Z) : FetchOutcome :=
  Responds {| status := code; text := [] |}.

Definition post : RequestInit :=
  {| method := js "POST"; headers := []; body := VNull |}.

Definition some_url : jsstring := js "https://example.test/generate".

(** An OCR page as the PDF reader writes it. *)
Definition page (number : string) (content : jsstring) : jsstring :=
  PAGE_START ++ js number ++ EQEQ ++ content ++ PAGE_END ++ js number ++ EQEQ.

Definition article : jsstring :=
  js "The Constitution of India came into force on 26 January 1950.".

Definition five_pages : jsstring :=
  page "1" article ++ [NL] ++ page "2" article ++ [NL] ++ page "3" article
    ++ [NL] ++ page "4" article ++ [NL] ++ page "5" article.

(** A cover page too short to be analysed, then a real page. *)
Definition cover_and_page : jsstring :=
  page "1" (js "  Cover  ") ++ [NL] ++ page "2" article.

(** The body of a Gemini answer whose first candidate carries [inner]. *)
Definition envelope (inner : jsstring) : jsstring :=
  Json.jq "{'candidates':[{'content':{'parts':[{'text':" ++ Json.quote inner
    ++ Json.jq "}]}}]}".

Definition answer (inner : jsstring) : FetchOutcome :=
  Responds {| status := 200; text := envelope inner |}.

Definition analysis_json (point : string) : jsstring :=
  fenced (Json.jq "{'keyPoints':['" ++ js point
            ++ Json.jq "','Republic Day'],'summary':'Commencement','tnpscCategories':['Polity']}").

Definition questions_json : jsstring :=
  fenced (Json.jq "[{'question':'When did the Constitution come into force?','options':['1947','1948','1949','1950'],'answer':'D','type':'mcq'},{'question':'Match the following'}]").

Definition plain_templates : Service.Templates :=
  {| Service.page_format := js " Please provide analysis in JSON format.";
     Service.questions_format_before_difficulty := js " Return as a JSON array; difficulty: ";
     Service.questions_format_after_difficulty := js "." |}.

Definition one_result : AnalysisResult :=
  {| ar_keyPoints := [js "Adopted in 1949"; js "In force since 1950"];
     ar_summary := js "Commencement of the Constitution";
     ar_tnpscRelevance := js "Group 1, Polity" |}.

(** Five pages against the refactored service: the third page meets
    three server errors in a row. *)
Definition third_page_exhausts : Env :=
  scripted [answer (analysis_json "one"); answer (analysis_json "two");
            with_status 500; with_status 500; with_status 500;
            answer (analysis_json "four"); answer (analysis_json "five")].

(** Five pages against [geminiService.ts]: the third call is rejected. *)
Definition third_page_rejected : Env :=
  scripted [answer (analysis_json "one"); answer (analysis_json "two");
            Rejects (js "Failed to fetch");
            answer (analysis_json "four"); answer (analysis_json "five")].

Definition one_answer (inner : jsstring) : Env := scripted [answer inner].

(** One page, and an answer whose [keyPoints] is a number. *)
Definition one_page : jsstring := page "1" article.

Definition key_points_number : jsstring :=
  Json.jq "{'keyPoints':5,'summary':'Commencement'}".

End Run.

(** ** More vocabulary: accounting and decoding *)

Module Measure.
Import Js Text Host Common Observe.

(** Whether a computation returned. *)
Definition returns {A} (r : Result A) : bool :=
  match r with
  | Ok _ => true
  | Throw _ => false
  end.

(** The sum of a list of delays. *)
Definition total (delays : list Z) : Z := fold_right Z.add 0%Z delays.

(** What [data.candidates?.[0]?.content?.parts?.[0]?.text] evaluates to
    when [data] is neither [null] nor [undefined]. *)
Definition first_candidate (data : Value) : Value :=
  opt_prop (opt_prop (opt_prop (opt_prop (opt_prop
    (prop data (js "candidates")) (js "0")) (js "content")) (js "parts"))
    (js "0")) (js "text").

(** Whether [p] occurs somewhere in [s]. *)
Fixpoint occurs (p s : jsstring) : bool :=
  starts_with p s
  || match s with
     | [] => false
     | _ :: rest => occurs p rest
     end.

(** The two kinds of failure the retry wrapper is written for: a
    response with a status in [500, 600) and a rejected [fetch]. *)
Definition retryable (o : FetchOutcome) : bool :=
  match o with
  | Responds r => negb (ok r) && server_error (status r)
  | Rejects _ => true
  end.

(** The warning that announces the wait after such a failure. *)
Definition retry_warning (o : FetchOutcome) (retries : Z) (i : nat) (delay : Z)
  : LogEntry :=
  match o with
  | Responds r => WarnServerError (status r) delay (S i) retries
  | Rejects reason => WarnNetworkOrFetch delay (S i) retries (NetworkFailure reason)
  end.

(** Kinds of events. *)
Definition console_only (ev : Event) : bool :=
  match ev with
  | EvConsole _ => true
  | _ => false
  end.

Definition no_request (ev : Event) : bool :=
  match ev with
  | EvFetch _ => false
  | _ => true
  end.

(** Code that issues no [fetch] and adds to the trace only events that
    [allow] lets through.  [world_of] points at the world in the state. *)
Definition emits {S A} (allow : Event -> bool) (world_of : S -> World)
    (m : St S A) : Prop :=
  forall s, calls (world_of (snd (m s))) = calls (world_of s)
            /\ exists evs, trace (world_of (snd (m s))) = trace (world_of s) ++ evs
                           /\ forallb allow evs = true.

Definition here (w : World) : World := w.

(** The errors that decoding an answer can end in: no candidate text,
    text that is not JSON, a response body that is not JSON, a value of
    the wrong type. *)
Definition decoding_error (e : Thrown) : Prop :=
  e = ErrorObj no_content_message
  \/ e = ErrorObj Refactored.invalid_json_message
  \/ (exists message, e = SyntaxError message)
  \/ (exists message, e = TypeError message).

(** The world one [fetch] later. *)
Definition requested (req : Request) (w : World) : World :=
  {| calls := S (calls w); trace := trace w ++ [EvFetch req] |}.

(** The request a page of [geminiService.ts] is sent in. *)
Definition page_request `{Env} `{Service.Templates} (lang : Language)
    (m : PageMatch) : Request :=
  request endpoint
    (text_request
       (Service.page_prompt (Service.responses_language lang)
          (parseInt (group1 m)) (trim (group2 m))) 2000).

(** The request [generateQuestions] of [geminiService.ts] sends. *)
Definition questions_request `{Env} `{Service.Templates}
    (analysisResults : list AnalysisResult) (difficulty : jsstring)
    (lang : Language) : Request :=
  request endpoint
    (text_request
       (Service.questions_prompt
          (map (fun result =>
                  (join Service.nl (ar_keyPoints result), ar_summary result,
                   ar_tnpscRelevance result)) analysisResults)
          difficulty (Service.questions_language lang)) 5000).

(** The one request the refactored service sends for any page. *)
Definition refactored_page_request `{Env} : Request :=
  request endpoint (text_request Refactored.page_prompt 5000).

(** A call of [geminiService.ts] that left by [continue]. *)
Definition continued (c : Z * Result (option Value)) : bool :=
  match snd c with
  | Ok None => true
  | _ => false
  end.

(** A page as the OCR text carries it: start marker with the page
    number, content, end marker with the same number. *)
Definition end_marker (number : jsstring) : jsstring :=
  PAGE_END ++ number ++ EQEQ.

Definition ocr_page (m : PageMatch) : jsstring :=
  PAGE_START ++ group1 m ++ EQEQ ++ group2 m ++ end_marker (group1 m).

(** The number is a non-empty run of digits and the content does not
    run into the end marker of its own page. *)
Definition well_formed (m : PageMatch) : Prop :=
  group1 m <> []
  /\ forallb is_digit (group1 m) = true
  /\ before_marker (end_marker (group1 m)) (group2 m ++ end_marker (group1 m))
     = Some (group2 m).

(** Text in which no equals sign occurs. *)
Definition EQUALS : N := 61.

Definition plain (gap : jsstring) : Prop :=
  forallb (fun c => negb (c =? EQUALS)%N) gap = true.

(** Pages, each after a gap, and the text that follows the last page. *)
Definition document (pages : list (jsstring * PageMatch)) (tail : jsstring)
  : jsstring :=
  flat_map (fun gm => fst gm ++ ocr_page (snd gm)) pages ++ tail.





End Measure.

(** ** The image functions of the refactored service *)

Module RefactoredImages.
Import Js Text Host Host.Notations Common Refactored.

(** A [File] as the service uses it: its MIME type and what a
    [FileReader] makes of [readAsDataURL]: the data URL handed to
    [onload], or the value [onerror] rejects with. *)
Record File : Type := {
  file_type : jsstring;
  read_as_data_url : Result jsstring
}.

Definition convertToBase64 (file : File) : M jsstring :=
  fun w => (read_as_data_url file, w).

Definition COMMA : N := 44.

(** [s.split(',')], with [current] the field being read. *)
Fixpoint split_comma (current s : jsstring) : list jsstring :=
  match s with
  | [] => [current]
  | c :: rest =>
      if (c =? COMMA)%N then current :: split_comma [] rest
      else split_comma (current ++ [c]) rest
  end.

(** [s.split(',')[1]] *)
Definition second_field (s : jsstring) : Value :=
  match split_comma [] s with
  | _ :: field :: _ => VStr field
  | _ => VUndefined
  end.

Definition image_prompt : jsstring :=
  js "You are an expert TNPSC examiner... [Original prompt text] ...something a TNPSC aspirant would find in their textbook.".

(** The request of [analyzeImage]: the prompt and the image inline. *)
Definition image_request (prompt mime_type : jsstring) (data : Value)
    (maxOutputTokens : Z) : RequestInit :=
  {| method := js "POST";
     headers := [(js "Content-Type", js "application/json")];
     body := object
       [(js "contents",
          VArr [object
                  [(js "parts",
                     VArr [object [(js "text", VStr prompt)];
                           object [(js "inline_data",
                                     object [(js "mime_type", VStr mime_type);
                                             (js "data", data)])]])]]);
        (js "generationConfig",
          object [(js "temperature", VNum 7 (-1));
                  (js "maxOutputTokens", num maxOutputTokens)])] |}.

Section WithEnv.
Context `{Env}.

Definition analyzeImage (file : File) (outputLanguage : Language) : M Value :=
  try_catch
    (base64Image <- convertToBase64 file ;;
     response <- fetchWithRetry endpoint
                   (image_request image_prompt (file_type file)
                      (second_field base64Image) 4000)
                   default_retries default_delay ;;
     data <- json response ;;
     content <- candidate_text data ;;
     if negb (truthy content) then throw (ErrorObj no_content_message)
     else
       console (LogRawResponse (js "Raw Gemini response for analyzeImage:") content) ;;
       result <- safeParseJson_any content ;;
       keyPoints <- member result (js "keyPoints") ;;
       ret (object
         [(js "keyPoints", or_else keyPoints (VArr []));
          (js "summary", or_else (prop result (js "summary")) (VStr []));
          (js "tnpscRelevance", or_else (prop result (js "tnpscRelevance")) (VStr []));
          (js "studyPoints", or_else (prop result (js "studyPoints")) (VArr []));
          (js "tnpscCategories",
             or_else (prop result (js "tnpscCategories")) (VArr []))]))
    (fun error =>
       console (ErrorIn (js "Error in analyzeImage:") error) ;;
       throw error).

(** [file.type.startsWith('image/')] *)
Definition is_image (file : File) : bool :=
  starts_with (js "image/") (file_type file).

(** [for (const file of files)] with the local [analysisResults]. *)
Fixpoint images_loop (outputLanguage : Language) (files : list File)
  : St (list Value * World) unit :=
  match files with
  | [] => ret tt
  | file :: rest =>
      (if is_image file then
         result <- lift (analyzeImage file outputLanguage) ;;
         modify (fun analysisResults => analysisResults ++ [result])
       else ret tt) ;;
      images_loop outputLanguage rest
  end.

Definition no_images_message : jsstring :=
  js "No valid images found for analysis".

Section Callee.
(** The call [generateQuestions(analysisResults, difficulty,
    outputLanguage)] receives the objects [analyzeImage] returned, whose
    fields hold whatever the model answered; what it does with them is
    left open. *)
Variable generateQuestions : list Value -> jsstring -> Language -> M QuestionResult.

Definition analyzeMultipleImages (files : list File) (difficulty : jsstring)
    (outputLanguage : Language) : M QuestionResult :=
  try_catch
    (done <- with_locals [] (images_loop outputLanguage files) ;;
     let analysisResults := snd done in
     if length analysisResults =? 0 then throw (ErrorObj no_images_message)
     else generateQuestions analysisResults difficulty outputLanguage)
    (fun error =>
       console (ErrorIn (js "Error in analyzeMultipleImages:") error) ;;
       throw error).

End Callee.
End WithEnv.
End RefactoredImages.

(** ** Concrete files *)

Module ImageRun.
Import Js Text Host Common Observe Run RefactoredImages.

Definition png (payload : string) : File :=
  {| file_type := js "image/png";
     read_as_data_url := Ok (js "data:image/png;base64" ++ COMMA :: js payload) |}.

Definition notes : File :=
  {| file_type := js "application/pdf";
     read_as_data_url := Ok (js "data:application/pdf;base64" ++ COMMA :: js "JVBERi0=") |}.

(** A question generator that would answer without asking anyone. *)
Definition no_questions (analysisResults : list Value) (difficulty : jsstring)
    (outputLanguage : Language) : M QuestionResult :=
  ret {| questions := []; summary := []; keyPoints := [];
         difficulty := difficulty; totalQuestions := 0 |}.

(** The first image is analysed, the second meets three server errors,
    the third would be analysed. *)
Definition second_image_exhausts : Env :=
  scripted [answer (analysis_json "one");
            with_status 500; with_status 500; with_status 500;
            answer (analysis_json "three")].

End ImageRun.

(** ** [src/components/StudyHistory.tsx]: retaking a quiz *)

Module History.
Import Js Text Host Host.Notations Common.

(** A [StudyHistoryRecord], as far as [handleRetakeQuiz] reads it. *)
Record StudyHistoryRecord : Type := {
  rec_id : Value;                            (* string or undefined *)
  rec_difficulty : jsstring;
  rec_language : jsstring;
  rec_analysisData : option AnalysisResult   (* absent when undefined *)
}.

Inductive Toast : Type :=
| ToastError (message : jsstring)
| ToastSuccess (message : jsstring).

(** What the handler can change: its own [isRetakingQuiz] state, the
    three values of the application context it sets, and the toasts
    shown, oldest first. *)
Record Ui : Type := {
  isRetakingQuiz : Value;                    (* string | null *)
  questionResult : option QuestionResult;
  ctx_difficulty : jsstring;
  ctx_outputLanguage : jsstring;
  toasts : list Toast
}.

Definition setIsRetakingQuiz (v : Value) (ui : Ui) : Ui :=
  {| isRetakingQuiz := v;
     questionResult := questionResult ui;
     ctx_difficulty := ctx_difficulty ui;
     ctx_outputLanguage := ctx_outputLanguage ui;
     toasts := toasts ui |}.

Definition setQuestionResult (r : QuestionResult) (ui : Ui) : Ui :=
  {| isRetakingQuiz := isRetakingQuiz ui;
     questionResult := Some r;
     ctx_difficulty := ctx_difficulty ui;
     ctx_outputLanguage := ctx_outputLanguage ui;
     toasts := toasts ui |}.

Definition setDifficulty (d : jsstring) (ui : Ui) : Ui :=
  {| isRetakingQuiz := isRetakingQuiz ui;
     questionResult := questionResult ui;
     ctx_difficulty := d;
     ctx_outputLanguage := ctx_outputLanguage ui;
     toasts := toasts ui |}.

Definition setOutputLanguage (l : jsstring) (ui : Ui) : Ui :=
  {| isRetakingQuiz := isRetakingQuiz ui;
     questionResult := questionResult ui;
     ctx_difficulty := ctx_difficulty ui;
     ctx_outputLanguage := l;
     toasts := toasts ui |}.

Definition toast (t : Toast) (ui : Ui) : Ui :=
  {| isRetakingQuiz := isRetakingQuiz ui;
     questionResult := questionResult ui;
     ctx_difficulty := ctx_difficulty ui;
     ctx_outputLanguage := ctx_outputLanguage ui;
     toasts := toasts ui ++ [t] |}.

(** [try { ... } catch { ... } finally { after }]: [after] runs on both
    ways out. *)
Definition finally {S A} (m : St S A) (after : St S unit) : St S A :=
  fun s => match m s with
           | (Ok a, s') => bind after (fun _ => ret a) s'
           | (Throw e, s') => bind after (fun _ => throw e) s'
           end.

(** The language [generateQuestions] works in: it compares its argument
    with ["tamil"] and takes everything else for English. *)
Definition language_of (language : jsstring) : Language :=
  if jsstring_eqb language (js "tamil") then Tamil else English.

(** [n || 0] on a length. *)
Definition or_zero (n : nat) : nat := if n =? 0 then 0 else n.

Section WithEnv.
Context `{Env} `{Service.Templates}.

Definition handleRetakeQuiz (record : StudyHistoryRecord)
  : St (Ui * World) unit :=
  match rec_analysisData record with
  | None =>
      modify (toast (ToastError
        (js "Cannot retake quiz: Original analysis data not found")))
  | Some analysisData =>
      modify (setIsRetakingQuiz (rec_id record)) ;;
      finally
        (try_catch
           (result <- lift (Service.generateQuestions [analysisData]
                              (rec_difficulty record)
                              (language_of (rec_language record))) ;;
            modify (setQuestionResult
                      {| questions := questions result;
                         summary := summary result;
                         keyPoints := keyPoints result;
                         difficulty := difficulty result;
                         totalQuestions := or_zero (length (questions result)) |}) ;;
            modify (setDifficulty (rec_difficulty record)) ;;
            modify (setOutputLanguage (rec_language record)) ;;
            modify (toast (ToastSuccess (js "New quiz generated! Starting quiz..."))))
           (fun error =>
              lift (console (ErrorIn (js "Error generating retake quiz:") error)) ;;
              modify (toast (ToastError
                (js "Failed to generate new quiz. Please try again.")))))
        (modify (setIsRetakingQuiz VNull))
  end.

End WithEnv.
End History.

(** ** The retry wrapper *)

Module RetryFacts.
Import Js Text Host Host.Notations Common Refactored Observe.

Section WithEnv.
Context {env : Env}.

Lemma attempt_run url options retries i delay w :
  let o := transport (calls w) (request url options) in
  attempt url options retries i delay w
  = (Ok (attempt_result o delay),
     {| calls := S (calls w);
        trace := trace w ++ EvFetch (request url options)
                         :: after_fetch o retries i delay |}).
Proof.
  cbv zeta. unfold attempt, try_catch, bind, fetch, request.
  destruct (transport (calls w) _) as [r | reason]; cbn.
  - unfold attempt_result, after_fetch, server_error.
    destruct (ok r); cbn; [reflexivity |].
    destruct ((500 <=? status r)%Z && (status r <? 600)%Z); cbn;
      repeat rewrite <- app_assoc; reflexivity.
  - repeat rewrite <- app_assoc. reflexivity.
Qed.

(** One iteration of the loop, unfolded. *)
Lemma retry_loop_step url options retries n i delay w :
  let o := transport (calls w) (request url options) in
  let w1 := {| calls := S (calls w);
               trace := trace w ++ EvFetch (request url options)
                                :: after_fetch o retries i delay |} in
  retry_loop url options retries (S n) i delay w
  = match attempt_result o delay with
    | inl response => (Ok response, w1)
    | inr delay' => retry_loop url options retries n (S i) delay' w1
    end.
Proof.
  cbv zeta. cbn [retry_loop]. unfold bind. rewrite attempt_run. cbv zeta.
  destruct (attempt_result _ delay); reflexivity.
Qed.

Lemma waits_app a b : waits (a ++ b) = waits a ++ waits b.
Proof. apply flat_map_app. Qed.

Lemma announced_app a b :
  announced_delays (a ++ b) = announced_delays a ++ announced_delays b.
Proof. apply flat_map_app. Qed.

Lemma caught_app a b : caught_errors (a ++ b) = caught_errors a ++ caught_errors b.
Proof. apply flat_map_app. Qed.

Lemma fetches_app a b : fetches (a ++ b) = fetches a ++ fetches b.
Proof. apply flat_map_app. Qed.

Lemma after_fetch_waits o retries i delay :
  waits (after_fetch o retries i delay) = if failed o then [delay] else [].
Proof.
  destruct o as [r | reason]; cbn; [| reflexivity].
  destruct (ok r); cbn; [reflexivity |].
  destruct (server_error (status r)); reflexivity.
Qed.

Lemma after_fetch_announced o retries i delay :
  announced_delays (after_fetch o retries i delay) = if failed o then [delay] else [].
Proof.
  destruct o as [r | reason]; cbn; [| reflexivity].
  destruct (ok r); cbn; [reflexivity |].
  destruct (server_error (status r)); reflexivity.
Qed.

Lemma attempt_result_failed o delay :
  failed o = true -> attempt_result o delay = inr (delay * 2)%Z.
Proof.
  destruct o as [r | reason]; cbn; [| reflexivity].
  destruct (ok r); [discriminate | reflexivity].
Qed.

Lemma attempt_result_ok o delay :
  failed o = false -> exists r, o = Responds r /\ ok r = true
                                /\ attempt_result o delay = inl r.
Proof.
  destruct o as [r | reason]; cbn; [| discriminate].
  destruct (ok r) eqn:E; [| discriminate].
  intros _. exists r. rewrite E. auto.
Qed.

Lemma backoff_cons d n : backoff d (S n) = d :: backoff (d * 2) n.
Proof.
  unfold backoff. cbn [seq map]. f_equal; [cbn; lia |].
  rewrite <- seq_shift, map_map. apply map_ext. intros k.
  rewrite Nat2Z.inj_succ, Z.pow_succ_r by lia. lia.
Qed.

(** The events of a whole run of the loop: the waits form the backoff
    sequence that starts at the current delay, and each is announced. *)
Lemma retry_loop_trace url options retries remaining : forall i delay w,
  exists evs,
    trace (snd (retry_loop url options retries remaining i delay w))
      = trace w ++ evs
    /\ waits evs = backoff delay (length (waits evs))
    /\ announced_delays evs = waits evs.
Proof.
  induction remaining as [| n IH]; intros i delay w.
  - exists []. cbn. rewrite app_nil_r. auto.
  - rewrite retry_loop_step. cbv zeta.
    set (o := transport (calls w) (request url options)).
    destruct (failed o) eqn:F.
    + rewrite (attempt_result_failed o delay F).
      match goal with
      | |- context [retry_loop _ _ _ n (S i) ?d ?w1] =>
          destruct (IH (S i) d w1) as (evs & Ht & Hw & Ha)
      end.
      exists (EvFetch (request url options) :: after_fetch o retries i delay ++ evs).
      rewrite Ht. cbn [trace]. split.
      { rewrite <- app_assoc. reflexivity. }
      cbn [waits announced_delays flat_map app].
      fold (waits (after_fetch o retries i delay ++ evs)).
      fold (announced_delays (after_fetch o retries i delay ++ evs)).
      rewrite waits_app, announced_app, after_fetch_waits, after_fetch_announced, F.
      cbn [app length]. rewrite backoff_cons. split; congruence.
    + destruct (attempt_result_ok o delay F) as (r & Ho & Hok & Hr).
      rewrite Hr. cbn.
      exists [EvFetch (request url options)].
      unfold after_fetch. rewrite Ho, Hok. auto.
Qed.

Lemma retry_loop_calls url options retries remaining : forall i delay w,
  calls w <= calls (snd (retry_loop url options retries remaining i delay w)).
Proof.
  induction remaining as [| n IH]; intros i delay w; [cbn; lia |].
  rewrite retry_loop_step. cbv zeta.
  destruct (attempt_result _ delay); [cbn; lia |].
  etransitivity; [| apply IH]. cbn. lia.
Qed.

Lemma caught_after_fetch o retries i delay e :
  In e (caught_errors (after_fetch o retries i delay)) ->
  (exists reason, e = NetworkFailure reason)
  \/ (exists code, e = ErrorObj (http_error_message code)).
Proof.
  destruct o as [r | reason]; cbn.
  - destruct (ok r); cbn; [tauto |].
    destruct (server_error (status r)); cbn; [tauto |].
    intros [<- | []]. right. eauto.
  - intros [<- | []]. left. eauto.
Qed.

(** Every error the [catch] clause sees is a rejection of [fetch] or the
    HTTP error thrown a few lines above it. *)
Lemma retry_loop_caught url options retries remaining : forall i delay w evs e,
  trace (snd (retry_loop url options retries remaining i delay w)) = trace w ++ evs ->
  In e (caught_errors evs) ->
  (exists reason, e = NetworkFailure reason)
  \/ (exists code, e = ErrorObj (http_error_message code)).
Proof.
  induction remaining as [| n IH]; intros i delay w evs e.
  - cbn. intros Ht. rewrite <- (app_nil_r (trace w)) in Ht at 1.
    apply app_inv_head in Ht. subst evs. intros [].
  - rewrite retry_loop_step. cbv zeta.
    set (o := transport (calls w) (request url options)).
    destruct (attempt_result o delay) as [r | d] eqn:R.
    + cbn. intros Ht. apply app_inv_head in Ht. subst evs. cbn.
      fold (caught_errors (after_fetch o retries i delay)).
      apply caught_after_fetch.
    + match goal with
      | |- context [retry_loop _ _ _ n (S i) d ?w1] =>
          destruct (retry_loop_trace url options retries n (S i) d w1)
            as (evs' & Ht' & _);
          pose proof (IH (S i) d w1 evs' e Ht') as IH'
      end.
      rewrite Ht'. cbn [trace]. rewrite <- app_assoc. intros Ht.
      apply app_inv_head in Ht. subst evs.
      cbn [app caught_errors flat_map].
      fold (caught_errors (after_fetch o retries i delay ++ evs')).
      rewrite caught_app, in_app_iff. intros [Hin | Hin]; [| auto].
      eapply caught_after_fetch; eassumption.
Qed.

(** When every attempt fails the loop runs to its end. *)
Lemma retry_loop_exhausted url options retries remaining : forall i delay w,
  (forall j, j < remaining ->
     failed (transport (calls w + j) (request url options)) = true) ->
  fst (retry_loop url options retries remaining i delay w)
    = Throw (ErrorObj (exhausted_message url retries))
  /\ calls (snd (retry_loop url options retries remaining i delay w))
     = calls w + remaining
  /\ exists evs,
       trace (snd (retry_loop url options retries remaining i delay w))
         = trace w ++ evs
       /\ waits evs = backoff delay remaining.
Proof.
  induction remaining as [| n IH]; intros i delay w Hfail.
  - cbn. split; [reflexivity |]. split; [lia |]. exists [].
    rewrite app_nil_r. auto.
  - rewrite retry_loop_step. cbv zeta.
    set (o := transport (calls w) (request url options)).
    assert (F : failed o = true).
    { specialize (Hfail 0 (Nat.lt_0_succ n)). rewrite Nat.add_0_r in Hfail. exact Hfail. }
    rewrite (attempt_result_failed o delay F).
    match goal with
    | |- context [retry_loop _ _ _ n (S i) ?d ?w1] =>
        destruct (IH (S i) d w1) as (Hr & Hc & evs & Ht & Hw)
    end.
    { intros j Hj. cbn [calls]. specialize (Hfail (S j) (proj1 (Nat.succ_lt_mono j n) Hj)).
      rewrite Nat.add_succ_r in Hfail. exact Hfail. }
    split; [exact Hr |]. split; [rewrite Hc; cbn [calls]; lia |].
    exists (EvFetch (request url options) :: after_fetch o retries i delay ++ evs).
    rewrite Ht. cbn [trace]. split; [rewrite <- app_assoc; reflexivity |].
    cbn [waits flat_map app]. fold (waits (after_fetch o retries i delay ++ evs)).
    rewrite waits_app, after_fetch_waits, F, Hw, backoff_cons. reflexivity.
Qed.

(** When attempt number [j] is the first that does not fail, its
    response is returned after [j] waits. *)
Lemma retry_loop_success url options retries remaining : forall j i delay w r,
  j < remaining ->
  (forall k, k < j ->
     failed (transport (calls w + k) (request url options)) = true) ->
  transport (calls w + j) (request url options) = Responds r ->
  ok r = true ->
  fst (retry_loop url options retries remaining i delay w) = Ok r
  /\ calls (snd (retry_loop url options retries remaining i delay w))
     = calls w + S j
  /\ exists evs,
       trace (snd (retry_loop url options retries remaining i delay w))
         = trace w ++ evs
       /\ waits evs = backoff delay j.
Proof.
  induction remaining as [| n IH]; intros j i delay w r Hj Hfail Hresp Hok;
    [lia |].
  rewrite retry_loop_step. cbv zeta.
  set (o := transport (calls w) (request url options)).
  destruct j as [| j].
  - rewrite Nat.add_0_r in Hresp. fold o in Hresp.
    unfold attempt_result, after_fetch. rewrite Hresp, Hok. cbn.
    split; [reflexivity |]. split; [lia |].
    exists [EvFetch (request url options)]. auto.
  - assert (F : failed o = true).
    { specialize (Hfail 0 (Nat.lt_0_succ j)). rewrite Nat.add_0_r in Hfail. exact Hfail. }
    rewrite (attempt_result_failed o delay F).
    match goal with
    | |- context [retry_loop _ _ _ n (S i) ?d ?w1] =>
        destruct (IH j (S i) d w1 r) as (Hr & Hc & evs & Ht & Hw)
    end.
    { lia. }
    { intros k Hk. cbn [calls]. specialize (Hfail (S k) (proj1 (Nat.succ_lt_mono k j) Hk)).
      rewrite Nat.add_succ_r in Hfail. exact Hfail. }
    { cbn [calls]. rewrite Nat.add_succ_r in Hresp. exact Hresp. }
    { exact Hok. }
    split; [exact Hr |]. split; [rewrite Hc; cbn [calls]; lia |].
    exists (EvFetch (request url options) :: after_fetch o retries i delay ++ evs).
    rewrite Ht. cbn [trace]. split; [rewrite <- app_assoc; reflexivity |].
    cbn [waits flat_map app]. fold (waits (after_fetch o retries i delay ++ evs)).
    rewrite waits_app, after_fetch_waits, F, Hw, backoff_cons. reflexivity.
Qed.

Lemma http_error_is_not_exhausted code url retries :
  ErrorObj (http_error_message code) <> ErrorObj (exhausted_message url retries).
Proof.
  unfold http_error_message, exhausted_message. cbn. discriminate.
Qed.

End WithEnv.
End RetryFacts.

(** ** Running the monad *)

Module MonadFacts.
Import Js Text Host Host.Notations Common Observe.

Lemma jsstring_eqb_eq a : forall b, jsstring_eqb a b = true <-> a = b.
Proof.
  induction a as [| x a IH]; intros [| y b]; cbn; split; try congruence.
  - intros Hb. apply andb_true_iff in Hb. destruct Hb as [Hx Hb].
    apply N.eqb_eq in Hx. apply IH in Hb. congruence.
  - intros [= -> ->]. rewrite N.eqb_refl. apply IH. reflexivity.
Qed.

Lemma jsstring_eqb_refl a : jsstring_eqb a a = true.
Proof. apply jsstring_eqb_eq. reflexivity. Qed.

Lemma jsstring_eqb_neq a b : a <> b -> jsstring_eqb a b = false.
Proof.
  intros Hab. destruct (jsstring_eqb a b) eqn:E; [| reflexivity].
  apply jsstring_eqb_eq in E. contradiction.
Qed.

Lemma lookup_set_same k v props : lookup k (set_prop k v props) = v.
Proof.
  induction props as [| [k' v'] rest IH]; cbn.
  - rewrite jsstring_eqb_refl. reflexivity.
  - destruct (jsstring_eqb k k') eqn:E; cbn; rewrite E; auto.
Qed.

Lemma lookup_set_other k k' v props :
  k <> k' -> lookup k' (set_prop k v props) = lookup k' props.
Proof.
  intros Hk. induction props as [| [k0 v0] rest IH]; cbn.
  - rewrite jsstring_eqb_neq by congruence. reflexivity.
  - destruct (jsstring_eqb k k0) eqn:E; cbn.
    + apply jsstring_eqb_eq in E. subst k0.
      rewrite jsstring_eqb_neq by congruence. reflexivity.
    + rewrite IH. reflexivity.
Qed.

(** [extends] is a preorder, and what was logged stays logged. *)
Lemma extends_refl w : extends w w.
Proof. split; [lia |]. exists []. rewrite app_nil_r. reflexivity. Qed.

Lemma extends_trans w1 w2 w3 : extends w1 w2 -> extends w2 w3 -> extends w1 w3.
Proof.
  intros (Hc1 & evs1 & H1) (Hc2 & evs2 & H2). split; [lia |].
  exists (evs1 ++ evs2). rewrite H2, H1, app_assoc. reflexivity.
Qed.

Lemma extends_after w evs : extends w (after w evs).
Proof. split; [cbn; lia |]. exists evs. reflexivity. Qed.

Lemma extends_In w w' ev : extends w w' -> In ev (trace w) -> In ev (trace w').
Proof. intros (_ & evs & ->) Hin. apply in_or_app. auto. Qed.

Lemma grows_ret {A} (a : A) : grows (ret a).
Proof. intros w. apply extends_refl. Qed.

Lemma grows_throw {A} e : grows (@throw World A e).
Proof. intros w. apply extends_refl. Qed.

Lemma grows_bind {A B} (m : M A) (k : A -> M B) :
  grows m -> (forall a, grows (k a)) -> grows (bind m k).
Proof.
  intros Hm Hk w. unfold bind. specialize (Hm w).
  destruct (m w) as [[a | e] w1]; cbn in *; [| exact Hm].
  eapply extends_trans; [exact Hm | apply Hk].
Qed.

Lemma grows_try_catch {A} (m : M A) (h : Thrown -> M A) :
  grows m -> (forall e, grows (h e)) -> grows (try_catch m h).
Proof.
  intros Hm Hh w. unfold try_catch. specialize (Hm w).
  destruct (m w) as [[a | e] w1]; cbn in *; [exact Hm |].
  eapply extends_trans; [exact Hm | apply Hh].
Qed.

Lemma grows_emit ev : grows (emit ev).
Proof. intros w. apply (extends_after w [ev]). Qed.

Lemma grows_console entry : grows (console entry).
Proof. apply grows_emit. Qed.

Lemma grows_sleep ms : grows (sleep ms).
Proof. apply grows_emit. Qed.

Lemma grows_fetch `{Env} url options : grows (fetch url options).
Proof.
  intros w. unfold fetch.
  destruct (transport _ _); cbn; (split; [cbn; lia |]); eexists; reflexivity.
Qed.

Lemma grows_parse_json `{Env} text : grows (parse_json text).
Proof. unfold parse_json. destruct (JSON_parse text); [apply grows_ret | apply grows_throw]. Qed.

Lemma grows_json `{Env} r : grows (json r).
Proof. apply grows_parse_json. Qed.

Lemma grows_member v k : grows (member v k).
Proof. unfold member. destruct (nullish v); [apply grows_throw | apply grows_ret]. Qed.

Lemma grows_iterate v : grows (iterate v).
Proof. destruct v; cbn; first [apply grows_ret | apply grows_throw]. Qed.

Lemma grows_candidate_text data : grows (candidate_text data).
Proof.
  unfold candidate_text. apply grows_bind; [apply grows_member |].
  intros a. apply grows_ret.
Qed.

Lemma grows_map_m {A B} (f : A -> M B) xs :
  (forall x, grows (f x)) -> grows (map_m f xs).
Proof.
  intros Hf. induction xs as [| x rest IH]; cbn [map_m]; [apply grows_ret |].
  apply grows_bind; [apply Hf |]. intros y.
  apply grows_bind; [exact IH |]. intros ys. apply grows_ret.
Qed.

Lemma grows_locally_ret {L A} (a : A) : grows_locally (@ret (L * World) A a).
Proof. intros s. apply extends_refl. Qed.

Lemma grows_locally_lift {L A} (m : M A) : grows m -> grows_locally (@lift L A m).
Proof.
  intros Hm [l w]. unfold lift. cbn [snd fst]. specialize (Hm w).
  destruct (m w) as [r w1]. exact Hm.
Qed.

Lemma grows_locally_modify {L} (f : L -> L) : grows_locally (modify f).
Proof. intros s. apply extends_refl. Qed.

Lemma grows_locally_bind {L A B} (m : St (L * World) A) (k : A -> St (L * World) B) :
  grows_locally m -> (forall a, grows_locally (k a)) -> grows_locally (bind m k).
Proof.
  intros Hm Hk s. unfold bind. specialize (Hm s).
  destruct (m s) as [[a | e] s1]; cbn in *; [| exact Hm].
  eapply extends_trans; [exact Hm | apply Hk].
Qed.

Lemma grows_locally_try_catch {L A} (m : St (L * World) A) h :
  grows_locally m -> (forall e, grows_locally (h e)) -> grows_locally (try_catch m h).
Proof.
  intros Hm Hh s. unfold try_catch. specialize (Hm s).
  destruct (m s) as [[a | e] s1]; cbn in *; [exact Hm |].
  eapply extends_trans; [exact Hm | apply Hh].
Qed.

Lemma grows_with_locals {L A} (init : L) (m : St (L * World) A) :
  grows_locally m -> grows (with_locals init m).
Proof.
  intros Hm w. unfold with_locals. specialize (Hm (init, w)).
  destruct (m (init, w)) as [[a | e] [l w1]]; exact Hm.
Qed.

Create HintDb grows.
#[export] Hint Resolve grows_ret grows_throw grows_emit grows_console grows_sleep
  grows_member grows_iterate grows_candidate_text
  grows_locally_ret grows_locally_modify : grows.
#[export] Hint Resolve grows_fetch grows_parse_json grows_json : grows.

(** Decomposes a program along its binds, handlers and branches. *)
Ltac grows :=
  repeat first
    [ solve [auto with grows]
    | apply grows_bind; [| intro]
    | apply grows_try_catch; [| intro]
    | apply grows_locally_bind; [| intro]
    | apply grows_locally_try_catch; [| intro]
    | apply grows_locally_lift
    | apply grows_with_locals
    | match goal with
      | |- grows (if ?b then _ else _) => destruct b
      | |- grows_locally (if ?b then _ else _) => destruct b
      | |- grows (match ?x with _ => _ end) => destruct x
      | |- grows_locally (match ?x with _ => _ end) => destruct x
      end ].

End MonadFacts.

(** ** The sanitizer *)

Module SanitizerFacts.
Import Js Text Host Host.Notations Common Refactored Observe.

Lemma scan_skip {C} (match_at : jsstring -> option (C * nat)) s : forall k,
  scan match_at k s = scan match_at 0 (skipn k s).
Proof.
  induction s as [| c r IH]; intros [| k]; cbn [scan skipn]; try reflexivity.
  rewrite IH. reflexivity.
Qed.

Lemma starts_with_length p : forall s,
  starts_with p s = true -> length p <= length s.
Proof.
  induction p as [| a p IH]; intros [| b s]; cbn; try lia; try discriminate.
  intros Hs. apply andb_true_iff in Hs. destruct Hs as [_ Hs].
  apply IH in Hs. lia.
Qed.

Lemma FENCE_JSON_codes : FENCE_JSON = [96; 96; 96; 106; 115; 111; 110]%N.
Proof. reflexivity. Qed.

Lemma FENCE_codes : FENCE = [96; 96; 96]%N.
Proof. reflexivity. Qed.

(** A match of the fence expression lies inside the text. *)
Lemma fence_at_length s n : fence_at s = Some (tt, n) -> 1 <= n <= length s.
Proof.
  unfold fence_at.
  destruct (starts_with FENCE_JSON s) eqn:E1.
  - apply starts_with_length in E1. rewrite FENCE_JSON_codes in E1. cbn in E1.
    destruct (starts_with [NL] (skipn 7 s)) eqn:E2.
    + apply starts_with_length in E2. rewrite length_skipn in E2. cbn in E2.
      intros [= <-]. lia.
    + intros [= <-]. lia.
  - destruct (starts_with (NL :: FENCE) s) eqn:E2.
    + apply starts_with_length in E2. cbn in E2. intros [= <-]. lia.
    + destruct (starts_with FENCE s) eqn:E3; [| discriminate].
      apply starts_with_length in E3. cbn in E3. intros [= <-]. lia.
Qed.

Ltac eqb_cases :=
  repeat (cbn [starts_with skipn app andb];
          match goal with
          | |- context [(?a =? ?b)%N] =>
              is_var b; destruct (N.eqb_spec a b); [subst b |]
          | |- context [(?a =? ?b)%N] =>
              let v := eval vm_compute in (a =? b)%N in
              change (a =? b)%N with v
          end).

(** Appending the closing fence to a non-empty text changes the match at
    its start in one case only: the text is the opening fence with its
    tag, whose optional newline then finds the newline of the closing
    fence. *)
Lemma fence_at_app s :
  s <> [] ->
  fence_at (s ++ NL :: FENCE) = fence_at s \/ s = FENCE_JSON.
Proof.
  intros Hs. unfold fence_at. rewrite FENCE_JSON_codes, FENCE_codes. unfold NL.
  destruct s as [| c0 [| c1 [| c2 [| c3 [| c4 [| c5 [| c6 [| c7 s]]]]]]]];
    [congruence | ..];
    eqb_cases; first [left; reflexivity | right; reflexivity].
Qed.

(** The closing fence at the end of a text disappears without a trace. *)
Lemma scan_closing_fence s : forall k,
  k <= length s ->
  unmatched (scan fence_at k (s ++ NL :: FENCE)) = unmatched (scan fence_at k s).
Proof.
  induction s as [| c r IH]; intros k Hk.
  - assert (k = 0) by (cbn in Hk; lia). subst k. reflexivity.
  - destruct k as [| k]; cbn [app scan].
    + destruct (@fence_at_app (c :: r)) as [E | E]; [discriminate | |].
      * cbn [app] in E. rewrite E.
        destruct (fence_at (c :: r)) as [[[] n] |] eqn:F.
        -- apply fence_at_length in F. cbn [length] in F.
           cbn [unmatched flat_map app].
           apply (IH (Nat.pred n)). lia.
        -- cbn [unmatched flat_map app]. f_equal. apply (IH 0). lia.
      * rewrite FENCE_JSON_codes in E. injection E as -> ->. reflexivity.
    + apply IH. cbn in Hk. lia.
Qed.

Lemma remove_fences_closing s : remove_fences (s ++ NL :: FENCE) = remove_fences s.
Proof. apply scan_closing_fence. lia. Qed.

Lemma remove_fences_opening s : remove_fences (FENCE_JSON ++ NL :: s) = remove_fences s.
Proof. reflexivity. Qed.

(** Fences around a text do not change what is left after the clean-up. *)
Lemma clean_fenced s : clean (fenced s) = clean s.
Proof.
  unfold clean, fenced. cbn [app].
  rewrite remove_fences_opening, remove_fences_closing. reflexivity.
Qed.

(** A text without a backtick has no fence to remove. *)
Lemma fence_at_plain s :
  Forall (fun c => c <> BACKTICK) s -> fence_at s = None.
Proof.
  intros Hs. unfold fence_at. rewrite FENCE_JSON_codes, FENCE_codes.
  unfold NL, BACKTICK in *.
  destruct s as [| c0 [| c1 s]]; [reflexivity | ..].
  - inversion_clear Hs. eqb_cases; first [reflexivity | congruence].
  - inversion_clear Hs as [| ? ? H0 H1]. inversion_clear H1.
    eqb_cases; first [reflexivity | congruence].
Qed.

Lemma remove_fences_plain s :
  Forall (fun c => c <> BACKTICK) s -> remove_fences s = s.
Proof.
  unfold remove_fences. induction s as [| c r IH]; intros Hs; [reflexivity |].
  cbn [scan]. rewrite (fence_at_plain Hs). cbn [unmatched flat_map app].
  inversion_clear Hs. f_equal. auto.
Qed.

Section WithEnv.
Context {env : Env}.

(** [safeParseJson], by cases on the parser's answer to the cleaned text. *)
Lemma safeParseJson_run text w :
  safeParseJson text w
  = match JSON_parse (clean text) with
    | Some v => (Ok v, w)
    | None => (Throw (ErrorObj invalid_json_message),
               {| calls := calls w;
                  trace := trace w ++ [EvConsole (ErrorParseJson text)] |})
    end.
Proof.
  unfold safeParseJson, try_catch, parse_json.
  destruct (JSON_parse (clean text)); reflexivity.
Qed.

End WithEnv.
End SanitizerFacts.

(** ** The page loop of the refactored service *)

Module PageFacts.
Import Js Text Host Host.Notations Common Refactored Observe MonadFacts RetryFacts
  SanitizerFacts.

#[local] Arguments fetchWithRetry : simpl never.
#[local] Arguments safeParseJson : simpl never.
#[local] Arguments trim : simpl never.
#[local] Arguments parseInt : simpl never.

Section WithEnv.
Context {env : Env}.

Lemma or_else_array_truthy v : truthy (or_else v (VArr [])) = true.
Proof. unfold or_else. destruct (truthy v) eqn:E; [exact E | reflexivity]. Qed.

(** What [analyzeIndividualPage] returns when it returns: an object with
    the five fields of the page analysis, whose [keyPoints] is truthy. *)
Lemma analyzeIndividualPage_shape textContent pageNumber lang w analysis w' :
  analyzeIndividualPage textContent pageNumber lang w = (Ok analysis, w') ->
  exists keyPoints studyPoints summary relevance,
    truthy keyPoints = true
    /\ analysis = VObj [(js "pageNumber", num pageNumber);
                        (js "keyPoints", keyPoints);
                        (js "studyPoints", studyPoints);
                        (js "summary", summary);
                        (js "tnpscRelevance", relevance)].
Proof.
  unfold analyzeIndividualPage, try_catch, bind.
  destruct (fetchWithRetry _ _ _ _ w) as [[response | e] w1]; [| discriminate].
  destruct (json response w1) as [[data | e] w2]; [| discriminate].
  destruct (candidate_text data w2) as [[content | e] w3]; [| discriminate].
  destruct (truthy content); cbn [negb]; [| discriminate].
  destruct (safeParseJson_any content w3) as [[parsed | e] w4]; [| discriminate].
  unfold member. destruct (nullish parsed); [discriminate |].
  cbn. intros [= <- <-].
  eexists _, _, _, _. split; [apply or_else_array_truthy | reflexivity].
Qed.

Lemma fetchWithRetry_grows url options retries delay :
  grows (fetchWithRetry url options retries delay).
Proof.
  intros w.
  destruct (retry_loop_trace url options retries (Z.to_nat retries) 0 delay w)
    as (evs & Ht & _).
  split; [apply retry_loop_calls | exists evs; exact Ht].
Qed.

Lemma safeParseJson_grows text : grows (safeParseJson text).
Proof.
  intros w. rewrite safeParseJson_run.
  destruct (JSON_parse (clean text)); [apply extends_refl |].
  apply (extends_after w [_]).
Qed.

Lemma safeParseJson_any_grows content : grows (safeParseJson_any content).
Proof.
  destruct content; cbn; auto using safeParseJson_grows with grows.
Qed.

Lemma analyzeIndividualPage_grows textContent pageNumber lang :
  grows (analyzeIndividualPage textContent pageNumber lang).
Proof.
  unfold analyzeIndividualPage.
  pose proof fetchWithRetry_grows. pose proof safeParseJson_any_grows.
  grows.
Qed.

Lemma push_no_keyPoints a : push_keyPoints [] a = a.
Proof. destruct a. unfold push_keyPoints. cbn. rewrite app_nil_r. reflexivity. Qed.

Lemma page_body_sparse lang m s : dense m = false -> page_body lang m s = (Ok tt, s).
Proof.
  unfold dense, page_body. destruct (length _ <? 50); [reflexivity | discriminate].
Qed.

(** A page whose model call throws: the error is logged, the delay is
    kept, the arrays are left alone. *)
Lemma page_body_throw lang m a w e w1 :
  dense m = true ->
  analyzeIndividualPage (trim (group2 m)) (parseInt (group1 m)) lang w = (Throw e, w1) ->
  page_body lang m (a, w)
  = (Ok tt, (a, after w1
       [EvConsole (ErrorPage (js "Error processing comprehensive analysis for page")
                     (parseInt (group1 m)) e);
        EvSleep 200])).
Proof.
  unfold dense, page_body. destruct (length _ <? 50); [discriminate |]. intros _ Hrun.
  unfold bind, try_catch, lift. cbn [fst snd]. rewrite Hrun.
  cbn. unfold after. rewrite <- app_assoc. reflexivity.
Qed.

(** A page whose model call returns: its entry is pushed, and with it
    whatever its key points spread to. *)
Lemma page_body_ok lang m a w analysis w1 :
  dense m = true ->
  analyzeIndividualPage (trim (group2 m)) (parseInt (group1 m)) lang w
    = (Ok analysis, w1) ->
  let entry := page_entry (parseInt (group1 m)) analysis in
  exists w2,
    page_body lang m (a, w)
    = (Ok tt, (push_keyPoints (key_point_items entry) (push_pageAnalysis entry a), w2))
    /\ extends w1 w2.
Proof.
  unfold dense, page_body. destruct (length _ <? 50); [discriminate |]. intros _ Hrun.
  destruct (@analyzeIndividualPage_shape _ _ _ _ _ _ Hrun) as (K & sp & sm & rel & HK & ->).
  unfold bind, try_catch, lift, modify. cbn [fst snd]. rewrite Hrun.
  change (prop (VObj _) (js "tnpscCategories")) with VUndefined.
  unfold member, ret. cbn [nullish fst snd truthy].
  change (prop (VObj _) (js "keyPoints")) with K.
  unfold or_else. rewrite HK.
  unfold key_point_items.
  change (prop (page_entry _ _) (js "keyPoints")) with K.
  destruct K; cbn; try rewrite push_no_keyPoints;
    (eexists; split; [reflexivity |]);
    (split; [cbn; lia | eexists; cbn; rewrite <- ?app_assoc; reflexivity]).
Qed.

Lemma page_body_grows lang m : grows_locally (page_body lang m).
Proof.
  intros [a w]. cbn [snd].
  destruct (dense m) eqn:D.
  - destruct (analyzeIndividualPage (trim (group2 m)) (parseInt (group1 m)) lang w)
      as [[analysis | e] w1] eqn:Hrun.
    + destruct (@page_body_ok lang m a w analysis w1 D Hrun) as (w2 & -> & Hext). cbn [snd].
      eapply extends_trans; [| exact Hext].
      pose proof (analyzeIndividualPage_grows (trim (group2 m))
                    (parseInt (group1 m)) lang w) as G.
      rewrite Hrun in G. exact G.
    + rewrite (@page_body_throw lang m a w e w1 D Hrun). cbn [snd].
      eapply extends_trans; [| apply extends_after].
      pose proof (analyzeIndividualPage_grows (trim (group2 m))
                    (parseInt (group1 m)) lang w) as G.
      rewrite Hrun in G. exact G.
  - rewrite (@page_body_sparse lang m (a, w) D). apply extends_refl.
Qed.

Lemma returned_cons {A} pn (o : Result A) cs :
  returned ((pn, o) :: cs)
  = match o with Ok a => [(pn, a)] | Throw _ => [] end ++ returned cs.
Proof. reflexivity. Qed.

Lemma raised_cons {A} pn (o : Result A) cs :
  raised ((pn, o) :: cs)
  = match o with Ok _ => [] | Throw e => [(pn, e)] end ++ raised cs.
Proof. reflexivity. Qed.

(** The whole loop: it never throws; every returned call adds its entry
    and its key points, in order; every thrown error is in the log. *)
Lemma page_loop_run lang ms : forall a w,
  exists a' w',
    page_loop lang ms (a, w) = (Ok tt, (a', w'))
    /\ extends w w'
    /\ arr_pageAnalyses a'
       = arr_pageAnalyses a ++ map entry_of (returned (model_calls lang ms (a, w)))
    /\ allKeyPoints a'
       = allKeyPoints a
         ++ flat_map key_point_items
              (map entry_of (returned (model_calls lang ms (a, w))))
    /\ allCategories a' = allCategories a
    /\ Forall (fun c => In (page_error comprehensive_label c) (trace w'))
              (raised (model_calls lang ms (a, w))).
Proof.
  induction ms as [| m rest IH]; intros a w.
  - exists a, w. cbn. rewrite !app_nil_r.
    repeat split; auto using extends_refl. apply extends_refl.
  - cbn [page_loop model_calls]. cbn [snd]. unfold bind at 1.
    destruct (dense m) eqn:D.
    + destruct (analyzeIndividualPage (trim (group2 m)) (parseInt (group1 m)) lang w)
        as [[analysis | e] w1] eqn:Hrun; cbn [snd fst].
      * destruct (@page_body_ok lang m a w analysis w1 D Hrun) as (w2 & Hbody & Hext).
        rewrite Hbody. cbn [snd].
        match goal with
        | |- context [page_loop lang rest (?a1, w2)] =>
            destruct (IH a1 w2) as (a' & w' & Hloop & Hext' & Hp & Hk & Hc & Hlog)
        end.
        exists a', w'. rewrite Hloop, returned_cons, raised_cons.
        pose proof (analyzeIndividualPage_grows (trim (group2 m))
                      (parseInt (group1 m)) lang w) as G.
        rewrite Hrun in G. cbn [snd] in G.
        split; [reflexivity |].
        split; [eauto using extends_trans |].
        split; [rewrite Hp; cbn; rewrite <- app_assoc; reflexivity |].
        split; [rewrite Hk; cbn; rewrite <- !app_assoc; reflexivity |].
        split; [rewrite Hc; reflexivity | exact Hlog].
      * rewrite (@page_body_throw lang m a w e w1 D Hrun). cbn [snd].
        match goal with
        | |- context [page_loop lang rest (a, ?w2)] =>
            destruct (IH a w2) as (a' & w' & Hloop & Hext' & Hp & Hk & Hc & Hlog)
        end.
        exists a', w'. rewrite Hloop, returned_cons, raised_cons.
        pose proof (analyzeIndividualPage_grows (trim (group2 m))
                      (parseInt (group1 m)) lang w) as G.
        rewrite Hrun in G. cbn [snd] in G.
        split; [reflexivity |].
        split; [eauto using extends_trans, extends_after |].
        split; [exact Hp |]. split; [exact Hk |]. split; [exact Hc |].
        cbn [app]. constructor; [| exact Hlog].
        eapply extends_In; [exact Hext' |].
        cbn. apply in_or_app. right. left. reflexivity.
    + rewrite (@page_body_sparse lang m (a, w) D). cbn [snd]. apply IH.
Qed.

Lemma page_loop_dense lang ms : forall s,
  page_loop lang ms s = page_loop lang (filter dense ms) s.
Proof.
  induction ms as [| m rest IH]; intros s; [reflexivity |].
  cbn [page_loop filter]. destruct (dense m) eqn:D.
  - cbn [page_loop]. unfold bind.
    destruct (page_body lang m s) as [[[] | e] s1]; [apply IH | reflexivity].
  - unfold bind. rewrite (@page_body_sparse lang m s D). apply IH.
Qed.

(** The function is its loop: it returns, whatever the pages do. *)
Lemma analyze_run text lang w :
  exists a' w',
    page_loop lang (page_matches text) (no_arrays, found (page_matches text) w)
      = (Ok tt, (a', w'))
    /\ analyzePdfContentComprehensive text lang w
       = (Ok (comprehensive_result a' (js " total key points.")), w').
Proof.
  destruct (page_loop_run lang (page_matches text) no_arrays
              (found (page_matches text) w)) as (a' & w' & Hloop & _).
  exists a', w'. split; [exact Hloop |].
  unfold analyzePdfContentComprehensive, try_catch, bind, with_locals.
  cbn [console emit fst snd].
  change {| calls := calls w;
            trace := trace w ++ [EvConsole (LogFoundPages (length (page_matches text)))] |}
    with (found (page_matches text) w).
  rewrite Hloop. reflexivity.
Qed.

End WithEnv.
End PageFacts.

(** ** The page loop of [geminiService.ts] *)

Module ServiceFacts.
Import Js Text Host Host.Notations Common Service Observe MonadFacts.

#[local] Arguments trim : simpl never.
#[local] Arguments parseInt : simpl never.
#[local] Arguments page_prompt : simpl never.
#[local] Arguments page_entry : simpl never.

Section WithEnv.
Context {env : Env} {templates : Templates}.

Lemma clean_any_grows content : grows (clean_any content).
Proof. destruct content; cbn; auto with grows. Qed.

Lemma request_page_analysis_grows lang pageNumber pageContent :
  grows (request_page_analysis lang pageNumber pageContent).
Proof.
  unfold request_page_analysis. pose proof clean_any_grows. grows.
Qed.

Lemma service_page_body_sparse lang m s : dense m = false -> page_body lang m s = (Ok tt, s).
Proof.
  unfold dense, page_body. destruct (length _ <? 50); [reflexivity | discriminate].
Qed.

(** A page whose model call throws: the error is logged, the delay is
    kept, the arrays are left alone. *)
Lemma service_page_body_throw lang m a w e w1 :
  dense m = true ->
  request_page_analysis lang (parseInt (group1 m)) (trim (group2 m)) w = (Throw e, w1) ->
  page_body lang m (a, w)
  = (Ok tt, (a, after w1 [page_error service_label (parseInt (group1 m), e);
                          EvSleep 500])).
Proof.
  unfold dense, page_body. destruct (length _ <? 50); [discriminate |]. intros _ Hrun.
  unfold bind, try_catch, lift. cbn [fst snd]. rewrite Hrun.
  cbn. unfold after. rewrite <- app_assoc. reflexivity.
Qed.

(** A page that left by [continue]: nothing more happens, not even the
    delay. *)
Lemma service_page_body_continue lang m a w w1 :
  dense m = true ->
  request_page_analysis lang (parseInt (group1 m)) (trim (group2 m)) w = (Ok None, w1) ->
  page_body lang m (a, w) = (Ok tt, (a, w1)).
Proof.
  unfold dense, page_body. destruct (length _ <? 50); [discriminate |]. intros _ Hrun.
  unfold bind, try_catch, lift. cbn [fst snd]. rewrite Hrun. reflexivity.
Qed.

(** A page answered with [null]: reading its key points throws before
    anything is pushed. *)
Lemma service_page_body_null lang m a w analysis w1 :
  dense m = true ->
  request_page_analysis lang (parseInt (group1 m)) (trim (group2 m)) w
    = (Ok (Some analysis), w1) ->
  nullish analysis = true ->
  exists w2, page_body lang m (a, w) = (Ok tt, (a, w2)) /\ extends w1 w2.
Proof.
  unfold dense, page_body. destruct (length _ <? 50); [discriminate |].
  intros _ Hrun Hnull.
  unfold bind, try_catch, lift. cbn [fst snd]. rewrite Hrun.
  unfold member. rewrite Hnull. cbn.
  eexists. split; [reflexivity |].
  split; [cbn; lia | eexists; cbn; rewrite <- app_assoc; reflexivity].
Qed.

Lemma entry_keyPoints pn analysis :
  prop (page_entry pn analysis) (js "keyPoints")
  = or_else (prop analysis (js "keyPoints")) (VArr []).
Proof. reflexivity. Qed.

(** A page answered with an analysis: its entry is pushed, and with it
    whatever its key points spread to; categories may follow. *)
Lemma service_page_body_ok lang m a w analysis w1 :
  dense m = true ->
  request_page_analysis lang (parseInt (group1 m)) (trim (group2 m)) w
    = (Ok (Some analysis), w1) ->
  nullish analysis = false ->
  let entry := page_entry (parseInt (group1 m)) analysis in
  exists categories w2,
    page_body lang m (a, w)
    = (Ok tt, (push_categories categories
                 (push_keyPoints (key_point_items entry)
                    (push_pageAnalysis entry a)), w2))
    /\ extends w1 w2.
Proof.
  unfold dense, page_body. destruct (length _ <? 50); [discriminate |].
  intros _ Hrun Hnull.
  unfold bind, try_catch, lift, modify. cbn [fst snd]. rewrite Hrun.
  unfold member, ret. rewrite Hnull. cbn [fst snd].
  unfold key_point_items. rewrite entry_keyPoints.
  set (entry := page_entry _ _).
  set (K := or_else (prop analysis (js "keyPoints")) (VArr [])).
  set (C := or_else (prop analysis (js "tnpscCategories")) (VArr [])).
  assert (Hnil : forall x : Arrays, push_categories [] x = x).
  { intros []. unfold push_categories. cbn. rewrite app_nil_r. reflexivity. }
  assert (Hnil' : forall x : Arrays, push_keyPoints [] x = x).
  { intros []. unfold push_keyPoints. cbn. rewrite app_nil_r. reflexivity. }
  destruct K; cbn;
    try (exists []; rewrite Hnil, Hnil'; eexists; split; [reflexivity |];
         split; [cbn; lia | eexists; cbn; rewrite <- ?app_assoc; reflexivity]);
    destruct C; cbn;
    first [ eexists; eexists; split; [reflexivity |];
            split; [cbn; lia | eexists; cbn; rewrite <- ?app_assoc; reflexivity]
          | exists []; rewrite Hnil; eexists; split; [reflexivity |];
            split; [cbn; lia | eexists; cbn; rewrite <- ?app_assoc; reflexivity] ].
Qed.

Lemma service_entries_cons pn (o : Result (option Value)) cs :
  service_entries ((pn, o) :: cs)
  = match o with
    | Ok (Some analysis) => if nullish analysis then [] else [page_entry pn analysis]
    | _ => []
    end ++ service_entries cs.
Proof.
  unfold service_entries, returned. cbn [flat_map fst snd].
  rewrite flat_map_app.
  destruct o as [[analysis |] | e]; cbn [app flat_map snd fst];
    rewrite ?app_nil_r; reflexivity.
Qed.

Lemma raised_cons' {A} pn (o : Result A) cs :
  raised ((pn, o) :: cs)
  = match o with Ok _ => [] | Throw e => [(pn, e)] end ++ raised cs.
Proof. reflexivity. Qed.

(** The loop over a batch: it never throws; every analysis adds its
    entry and its key points, in order; every thrown error is in the
    log. *)
Lemma batch_loop_run lang ms : forall a w,
  exists a' w',
    batch_loop lang ms (a, w) = (Ok tt, (a', w'))
    /\ extends w w'
    /\ arr_pageAnalyses a'
       = arr_pageAnalyses a ++ service_entries (service_calls lang ms (a, w))
    /\ allKeyPoints a'
       = allKeyPoints a
         ++ flat_map key_point_items (service_entries (service_calls lang ms (a, w)))
    /\ Forall (fun c => In (page_error service_label c) (trace w'))
              (raised (service_calls lang ms (a, w))).
Proof.
  induction ms as [| m rest IH]; intros a w.
  - exists a, w. cbn. rewrite !app_nil_r.
    repeat split; auto using extends_refl. apply extends_refl.
  - cbn [batch_loop service_calls]. cbn [snd]. unfold bind at 1.
    destruct (dense m) eqn:D.
    + pose proof (request_page_analysis_grows lang (parseInt (group1 m))
                    (trim (group2 m)) w) as G.
      destruct (request_page_analysis lang (parseInt (group1 m)) (trim (group2 m)) w)
        as [[[analysis |] | e] w1] eqn:Hrun; cbn [snd fst] in *.
      * destruct (nullish analysis) eqn:Hnull.
        -- destruct (@service_page_body_null lang m a w analysis w1 D Hrun Hnull)
             as (w2 & Hbody & Hext).
           rewrite Hbody. cbn [snd].
           destruct (IH a w2) as (a' & w' & Hloop & Hext' & Hp & Hk & Hlog).
           exists a', w'.
           rewrite Hloop, service_entries_cons, raised_cons', Hnull.
           split; [reflexivity |].
           split; [eauto using extends_trans |]. auto.
        -- destruct (@service_page_body_ok lang m a w analysis w1 D Hrun Hnull)
             as (cats & w2 & Hbody & Hext).
           rewrite Hbody. cbn [snd].
           match goal with
           | |- context [batch_loop lang rest (?a1, w2)] =>
               destruct (IH a1 w2) as (a' & w' & Hloop & Hext' & Hp & Hk & Hlog)
           end.
           exists a', w'.
           rewrite Hloop, service_entries_cons, raised_cons', Hnull.
           split; [reflexivity |].
           split; [eauto using extends_trans |].
           split; [rewrite Hp; cbn; rewrite <- app_assoc; reflexivity |].
           split; [rewrite Hk; cbn; rewrite <- !app_assoc; reflexivity | exact Hlog].
      * rewrite (@service_page_body_continue lang m a w w1 D Hrun). cbn [snd].
        destruct (IH a w1) as (a' & w' & Hloop & Hext' & Hp & Hk & Hlog).
        exists a', w'.
        rewrite Hloop, service_entries_cons, raised_cons'.
        split; [reflexivity |].
        split; [eauto using extends_trans |]. auto.
      * rewrite (@service_page_body_throw lang m a w e w1 D Hrun). cbn [snd].
        match goal with
        | |- context [batch_loop lang rest (a, ?w2)] =>
            destruct (IH a w2) as (a' & w' & Hloop & Hext' & Hp & Hk & Hlog)
        end.
        exists a', w'.
        rewrite Hloop, service_entries_cons, raised_cons'.
        split; [reflexivity |].
        split; [eauto using extends_trans, extends_after |].
        split; [exact Hp |]. split; [exact Hk |].
        cbn [app]. constructor; [| exact Hlog].
        eapply extends_In; [exact Hext' |].
        cbn. apply in_or_app. right. left. reflexivity.
    + rewrite (@service_page_body_sparse lang m (a, w) D). cbn [snd]. apply IH.
Qed.

Lemma batch_loop_dense lang ms : forall s,
  batch_loop lang ms s = batch_loop lang (filter dense ms) s.
Proof.
  induction ms as [| m rest IH]; intros s; [reflexivity |].
  cbn [batch_loop filter]. destruct (dense m) eqn:D.
  - cbn [batch_loop]. unfold bind.
    destruct (page_body lang m s) as [[[] | e] s1]; [apply IH | reflexivity].
  - unfold bind. rewrite (@service_page_body_sparse lang m s D). apply IH.
Qed.

Lemma batch_loop_app lang l1 : forall l2 s,
  batch_loop lang (l1 ++ l2) s
  = bind (batch_loop lang l1) (fun _ => batch_loop lang l2) s.
Proof.
  induction l1 as [| m rest IH]; intros l2 s; [reflexivity |].
  cbn [app batch_loop]. unfold bind.
  destruct (page_body lang m s) as [[[] | e] s1]; [| reflexivity].
  rewrite IH. reflexivity.
Qed.

Lemma firstn_add {A} n k : forall l : list A,
  firstn (n + k) l = firstn n l ++ firstn k (skipn n l).
Proof.
  induction n as [| n IH]; intros [| x l]; cbn; try reflexivity.
  - rewrite firstn_nil. reflexivity.
  - rewrite IH. reflexivity.
Qed.

(** Cutting the matches into batches of five changes nothing: the
    batches are visited in order. *)
Lemma batches_loop_flat lang ms remaining : forall i s,
  batches_loop lang ms remaining i s
  = batch_loop lang (firstn (remaining * batchSize) (skipn i ms)) s.
Proof.
  induction remaining as [| n IH]; intros i s; [reflexivity |].
  cbn [batches_loop]. change (S n * batchSize) with (batchSize + n * batchSize).
  rewrite firstn_add, batch_loop_app. unfold bind.
  destruct (batch_loop lang (firstn batchSize (skipn i ms)) s) as [[[] | e] s1];
    [| reflexivity].
  rewrite IH, skipn_skipn, (Nat.add_comm batchSize i). reflexivity.
Qed.

Lemma batches_loop_all lang ms s :
  batches_loop lang ms (batch_count (length ms)) 0 s = batch_loop lang ms s.
Proof.
  rewrite batches_loop_flat. cbn [skipn]. rewrite firstn_all2; [reflexivity |].
  unfold batch_count, batchSize. cbn [Nat.sub].
  pose proof (Nat.div_mod_eq (length ms + 4) 5) as Hd.
  pose proof (Nat.mod_upper_bound (length ms + 4) 5) as Hm. lia.
Qed.

(** The function is its loop: it returns, whatever the pages do. *)
Lemma service_analyze_run text lang w :
  exists a' w',
    batch_loop lang (page_matches text) (no_arrays, found (page_matches text) w)
      = (Ok tt, (a', w'))
    /\ analyzePdfContentComprehensive text lang w
       = (Ok (comprehensive_result a' (js " total key points identified.")), w').
Proof.
  destruct (batch_loop_run lang (page_matches text) no_arrays
              (found (page_matches text) w)) as (a' & w' & Hloop & _).
  exists a', w'. split; [exact Hloop |].
  unfold analyzePdfContentComprehensive, try_catch, bind, with_locals.
  cbn [console emit fst snd].
  change {| calls := calls w;
            trace := trace w ++ [EvConsole (LogFoundPages (length (page_matches text)))] |}
    with (found (page_matches text) w).
  rewrite batches_loop_all, Hloop. reflexivity.
Qed.

End WithEnv.
End ServiceFacts.

(** ** The question formatter *)

Module QuestionFacts.
Import Js Text Host Host.Notations Common Observe MonadFacts SanitizerFacts.

#[local] Arguments Refactored.fetchWithRetry : simpl never.
#[local] Arguments Refactored.safeParseJson : simpl never.

Ltac keys_differ :=
  let E := fresh "E" in intro E; vm_compute in E; discriminate E.

Lemma has_own_set_same k v props : has_own k (VObj (set_prop k v props)) = true.
Proof.
  induction props as [| [k' v'] rest IH]; cbn.
  - rewrite jsstring_eqb_refl. reflexivity.
  - destruct (jsstring_eqb k k') eqn:E; cbn; rewrite E; [reflexivity | exact IH].
Qed.

Lemma or_else_truthy a b : truthy b = true -> truthy (or_else a b) = true.
Proof. intros Hb. unfold or_else. destruct (truthy a) eqn:E; congruence. Qed.

Lemma truthy_not_empty v : truthy v = true -> v <> VStr [].
Proof. intros Hv ->. discriminate. Qed.

(** The four fields written after the spread are what a reader of the
    formatted question finds. *)
Lemma format_question_run placeholder q w :
  nullish q = false ->
  exists y, format_question placeholder q w = (Ok y, w)
            /\ normalised placeholder q y.
Proof.
  intros Hq. unfold format_question, bind, member. rewrite Hq. cbn [ret].
  eexists. split; [reflexivity |].
  unfold object. rewrite fold_left_app. cbn [fold_left fst snd].
  set (base := fold_left _ (spread_props q) []).
  set (vt := or_else (prop q (js "type")) (VStr (js "mcq"))).
  set (vo := if isArray (prop q (js "options")) then prop q (js "options")
             else VArr (map VStr placeholder)).
  set (va := or_else (prop q (js "answer")) (VStr (js "A"))).
  set (vm := or_else (prop q (js "matchingPairs")) VNull).
  set (y := VObj _).
  assert (Et : prop y (js "type") = vt).
  { unfold y, prop.
    rewrite !lookup_set_other by keys_differ. apply lookup_set_same. }
  assert (Eo : prop y (js "options") = vo).
  { unfold y, prop.
    rewrite !lookup_set_other by keys_differ. apply lookup_set_same. }
  assert (Ea : prop y (js "answer") = va).
  { unfold y, prop.
    rewrite !lookup_set_other by keys_differ. apply lookup_set_same. }
  assert (Em : prop y (js "matchingPairs") = vm).
  { unfold y, prop. apply lookup_set_same. }
  assert (Ht : truthy vt = true) by (apply or_else_truthy; reflexivity).
  assert (Ha : truthy va = true) by (apply or_else_truthy; reflexivity).
  unfold normalised. rewrite Et, Eo, Ea, Em.
  repeat split; auto using truthy_not_empty.
  - unfold vo. destruct (isArray (prop q (js "options"))) eqn:E; [exact E | reflexivity].
  - apply has_own_set_same.
Qed.

(** [questions.map] over the formatter leaves the world alone and
    normalises every question. *)
Lemma map_format_questions placeholder qs : forall w ys w',
  map_m (format_question placeholder) qs w = (Ok ys, w') ->
  Forall2 (normalised placeholder) qs ys.
Proof.
  induction qs as [| q rest IH]; intros w ys w'; cbn [map_m].
  - intros [= <- <-]. constructor.
  - unfold bind at 1. destruct (nullish q) eqn:Hq.
    + unfold format_question, bind, member. rewrite Hq. discriminate.
    + destruct (format_question_run placeholder q w Hq) as (y & -> & Hy).
      unfold bind at 1.
      destruct (map_m (format_question placeholder) rest w) as [[ys' | e] w1] eqn:Hrest;
        [| discriminate].
      cbn. intros [= <- <-]. constructor; [exact Hy | eapply IH; exact Hrest].
Qed.

Section WithEnv.
Context {env : Env} {templates : Service.Templates}.

Lemma safeParseJson_any_ok content w payload w' :
  Refactored.safeParseJson_any content w = (Ok payload, w') ->
  exists text, content = VStr text /\ JSON_parse (clean text) = Some payload.
Proof.
  destruct content; cbn; try discriminate.
  rewrite safeParseJson_run. destruct (JSON_parse (clean s)) eqn:E; [| discriminate].
  intros [= <- <-]. eauto.
Qed.

Lemma refactored_questions ars difficulty lang w r :
  fst (Refactored.generateQuestions ars difficulty lang w) = Ok r ->
  totalQuestions r = length (questions r)
  /\ exists text payload,
       JSON_parse (clean text) = Some payload
       /\ questions_of [js "A"; js "B"; js "C"; js "D"] payload (questions r).
Proof.
  unfold Refactored.generateQuestions, try_catch, bind.
  destruct (Refactored.fetchWithRetry _ _ _ _ w) as [[response | e] w1];
    [| discriminate].
  destruct (json response w1) as [[data | e] w2]; [| discriminate].
  destruct (candidate_text data w2) as [[content | e] w3]; [| discriminate].
  destruct (truthy content); cbn [negb]; [| discriminate].
  cbn [console emit].
  destruct (Refactored.safeParseJson_any content _) as [[payload | e] w4] eqn:Hp;
    [| discriminate].
  apply safeParseJson_any_ok in Hp. destruct Hp as (text & _ & Hp).
  destruct (Refactored.format_questions payload w4) as [[ys | e] w5] eqn:Hf;
    [| discriminate].
  cbn. intros [= <-]. cbn. split; [reflexivity |].
  exists text, payload. split; [exact Hp |].
  unfold Refactored.format_questions in Hf. unfold questions_of.
  destruct payload; try (injection Hf as <- _; reflexivity).
  eapply map_format_questions. exact Hf.
Qed.

Lemma service_questions ars difficulty lang w r :
  fst (Service.generateQuestions ars difficulty lang w) = Ok r ->
  totalQuestions r = length (questions r)
  /\ exists text payload,
       JSON_parse (clean text) = Some payload
       /\ questions_of [js "Option A"; js "Option B"; js "Option C"; js "Option D"]
            payload (questions r).
Proof.
  unfold Service.generateQuestions, try_catch, bind.
  destruct (fetch _ _ w) as [[response | e] w1]; [| discriminate].
  destruct (ok response); cbn [negb]; [| discriminate].
  destruct (json response w1) as [[data | e] w2]; [| discriminate].
  destruct (candidate_text data w2) as [[content | e] w3]; [| discriminate].
  destruct (truthy content); cbn [negb]; [| discriminate].
  cbn [console emit].
  destruct content as [| | | | text | |]; cbn [Service.clean_any ret throw];
    try discriminate.
  unfold parse_json.
  destruct (JSON_parse (clean text)) as [payload |] eqn:Hp; [| discriminate].
  cbn [ret].
  destruct (Service.format_questions payload _) as [[ys | e] w5] eqn:Hf;
    [| discriminate].
  cbn. intros [= <-]. cbn. split; [reflexivity |].
  exists text, payload. split; [exact Hp |].
  unfold Service.format_questions in Hf. unfold questions_of.
  destruct payload; try discriminate.
  eapply map_format_questions. exact Hf.
Qed.

End WithEnv.
End QuestionFacts.

(** ** More on the retry wrapper *)

Module RetryAccounting.
Import Js Text Host Host.Notations Common Refactored Observe Measure RetryFacts.

Section WithEnv.
Context {env : Env}.

Lemma after_fetch_fetches o retries i delay :
  fetches (after_fetch o retries i delay) = [].
Proof.
  destruct o as [r | reason]; cbn; [| reflexivity].
  destruct (ok r); cbn; [reflexivity |].
  destruct (server_error (status r)); reflexivity.
Qed.

(** The loop hands back an ok response or its own final error, nothing
    else. *)
Lemma retry_loop_outcome url options retries remaining : forall i delay w,
  (exists r, fst (retry_loop url options retries remaining i delay w) = Ok r
             /\ ok r = true)
  \/ fst (retry_loop url options retries remaining i delay w)
     = Throw (ErrorObj (exhausted_message url retries)).
Proof.
  induction remaining as [| n IH]; intros i delay w; [right; reflexivity |].
  rewrite retry_loop_step. cbv zeta.
  set (o := transport (calls w) (request url options)).
  destruct (failed o) eqn:F.
  - rewrite (attempt_result_failed o delay F). apply IH.
  - destruct (attempt_result_ok o delay F) as (r & _ & Hok & ->).
    left. exists r. auto.
Qed.

(** Requests, calls and waits of a run, counted. *)
Lemma retry_loop_accounting url options retries remaining : forall i delay w,
  let run := retry_loop url options retries remaining i delay w in
  exists n evs,
    n <= remaining
    /\ calls (snd run) = calls w + n
    /\ trace (snd run) = trace w ++ evs
    /\ fetches evs = repeat (request url options) n
    /\ (if returns (fst run)
        then 1 <= n /\ length (waits evs) = n - 1
        else n = remaining /\ length (waits evs) = n).
Proof.
  induction remaining as [| k IH]; intros i delay w; cbv zeta.
  - exists 0, []. cbn. rewrite app_nil_r. repeat split; lia.
  - rewrite retry_loop_step. cbv zeta.
    set (o := transport (calls w) (request url options)).
    destruct (failed o) eqn:F.
    + rewrite (attempt_result_failed o delay F).
      match goal with
      | |- context [retry_loop _ _ _ k (S i) ?d ?w1] =>
          destruct (IH (S i) d w1) as (n & evs & Hn & Hc & Ht & Hf & Hw);
          set (run := retry_loop url options retries k (S i) d w1) in *
      end.
      exists (S n), (EvFetch (request url options)
                       :: after_fetch o retries i delay ++ evs).
      split; [lia |]. split; [rewrite Hc; cbn; lia |].
      split; [rewrite Ht; cbn; rewrite <- app_assoc; reflexivity |].
      split.
      { cbn [fetches flat_map app repeat]. f_equal.
        fold (fetches (after_fetch o retries i delay ++ evs)).
        rewrite fetches_app, after_fetch_fetches. exact Hf. }
      cbn [waits flat_map app].
      fold (waits (after_fetch o retries i delay ++ evs)).
      rewrite waits_app, after_fetch_waits, F, length_app. cbn [length].
      destruct (returns (fst run)); lia.
    + destruct (attempt_result_ok o delay F) as (r & Ho & Hok & ->).
      exists 1, [EvFetch (request url options)]. cbn.
      unfold after_fetch. rewrite Ho, Hok.
      repeat split; lia.
Qed.

Lemma total_backoff d n : total (backoff d n) = (d * (2 ^ Z.of_nat n - 1))%Z.
Proof.
  revert d. induction n as [| n IH]; intros d; [cbn; lia |].
  rewrite backoff_cons. cbn [total fold_right]. fold (total (backoff (d * 2) n)).
  rewrite IH, Nat2Z.inj_succ, Z.pow_succ_r by lia. lia.
Qed.

End WithEnv.
End RetryAccounting.

(** ** Code that sends no request *)

Module EmitFacts.
Import Js Text Host Host.Notations Common Observe Measure MonadFacts.

Section Rules.
Context {S : Type} (allow : Event -> bool) (p : S -> World).

Lemma emits_ret {A} (a : A) : emits allow p (ret a).
Proof. intros s. split; [reflexivity |]. exists []. rewrite app_nil_r. auto. Qed.

Lemma emits_throw {A} e : emits allow p (@throw S A e).
Proof. intros s. split; [reflexivity |]. exists []. rewrite app_nil_r. auto. Qed.

(** What console-only code adds after a computation [m]. *)
Lemma emits_after {A B} (m : St S A) (k : A -> St S B) s :
  (forall a, emits allow p (k a)) ->
  calls (p (snd (bind m k s))) = calls (p (snd (m s)))
  /\ exists evs, trace (p (snd (bind m k s))) = trace (p (snd (m s))) ++ evs
                 /\ forallb allow evs = true.
Proof.
  intros Hk. unfold bind.
  destruct (m s) as [[a | e] s1]; cbn [snd]; [apply Hk |].
  split; [reflexivity |]. exists []. rewrite app_nil_r. auto.
Qed.

Lemma emits_handler {A} (m : St S A) h s :
  (forall e, emits allow p (h e)) ->
  calls (p (snd (try_catch m h s))) = calls (p (snd (m s)))
  /\ exists evs, trace (p (snd (try_catch m h s))) = trace (p (snd (m s))) ++ evs
                 /\ forallb allow evs = true.
Proof.
  intros Hh. unfold try_catch.
  destruct (m s) as [[a | e] s1]; cbn [snd]; [| apply Hh].
  split; [reflexivity |]. exists []. rewrite app_nil_r. auto.
Qed.

Lemma emits_bind {A B} (m : St S A) (k : A -> St S B) :
  emits allow p m -> (forall a, emits allow p (k a)) -> emits allow p (bind m k).
Proof.
  intros Hm Hk s. destruct (Hm s) as (Hc & evs & Ht & Hf).
  destruct (@emits_after _ _ m k s Hk) as (Hc' & evs' & Ht' & Hf').
  split; [congruence |]. exists (evs ++ evs').
  rewrite Ht', Ht, app_assoc, forallb_app, Hf, Hf'. auto.
Qed.

Lemma emits_try_catch {A} (m : St S A) h :
  emits allow p m -> (forall e, emits allow p (h e)) -> emits allow p (try_catch m h).
Proof.
  intros Hm Hh s. destruct (Hm s) as (Hc & evs & Ht & Hf).
  destruct (@emits_handler _ m h s Hh) as (Hc' & evs' & Ht' & Hf').
  split; [congruence |]. exists (evs ++ evs').
  rewrite Ht', Ht, app_assoc, forallb_app, Hf, Hf'. auto.
Qed.

End Rules.

Lemma emits_emit allow ev : allow ev = true -> emits allow here (emit ev).
Proof.
  intros Ha w. split; [reflexivity |]. exists [ev].
  split; [reflexivity |]. cbn. rewrite Ha. reflexivity.
Qed.

Lemma emits_console allow entry :
  allow (EvConsole entry) = true -> emits allow here (console entry).
Proof. apply emits_emit. Qed.

Lemma emits_sleep allow ms :
  allow (EvSleep ms) = true -> emits allow here (sleep ms).
Proof. apply emits_emit. Qed.

Lemma emits_parse_json `{Env} allow text : emits allow here (parse_json text).
Proof.
  unfold parse_json. destruct (JSON_parse text); [apply emits_ret | apply emits_throw].
Qed.

Lemma emits_json `{Env} allow r : emits allow here (json r).
Proof. apply emits_parse_json. Qed.

Lemma emits_member allow v k : emits allow here (member v k).
Proof.
  unfold member. destruct (nullish v); [apply emits_throw | apply emits_ret].
Qed.

Lemma emits_iterate allow v : emits allow here (iterate v).
Proof. destruct v; cbn; first [apply emits_ret | apply emits_throw]. Qed.

Lemma emits_candidate_text allow data : emits allow here (candidate_text data).
Proof.
  unfold candidate_text. apply emits_bind; [apply emits_member |].
  intros a. apply emits_ret.
Qed.

Lemma emits_map_m {A B} allow (f : A -> M B) xs :
  (forall x, emits allow here (f x)) -> emits allow here (map_m f xs).
Proof.
  intros Hf. induction xs as [| x rest IH]; cbn [map_m]; [apply emits_ret |].
  apply emits_bind; [apply Hf |]. intros y.
  apply emits_bind; [exact IH |]. intros ys. apply emits_ret.
Qed.

Lemma emits_lift {L A} allow (m : M A) :
  emits allow here m -> emits allow (@snd L World) (lift m).
Proof.
  intros Hm [l w]. unfold lift. cbn [snd fst]. specialize (Hm w). unfold here in Hm.
  destruct (m w) as [r w1]. exact Hm.
Qed.

Lemma emits_modify {L} allow (f : L -> L) : emits allow (@snd L World) (modify f).
Proof. intros s. split; [reflexivity |]. exists []. rewrite app_nil_r. auto. Qed.

Create HintDb emit.
#[export] Hint Resolve emits_ret emits_throw emits_member emits_iterate
  emits_candidate_text emits_modify : emit.
#[export] Hint Resolve emits_parse_json emits_json : emit.

Ltac emit :=
  repeat first
    [ solve [auto with emit]
    | apply emits_console; reflexivity
    | apply emits_sleep; reflexivity
    | apply emits_bind; [| intro]
    | apply emits_try_catch; [| intro]
    | apply emits_lift
    | match goal with
      | |- emits _ _ (if ?b then _ else _) => destruct b
      | |- emits _ _ (match ?x with _ => _ end) => destruct x
      end ].

(** Events without a request, events without request and wait. *)
Lemma no_request_fetches evs : forallb no_request evs = true -> fetches evs = [].
Proof.
  induction evs as [| ev evs IH]; [reflexivity |]. cbn [forallb].
  intros Hf. apply andb_true_iff in Hf. destruct Hf as [Hev Hf].
  destruct ev; cbn in *; try discriminate; auto.
Qed.

Lemma console_only_fetches evs : forallb console_only evs = true -> fetches evs = [].
Proof.
  induction evs as [| ev evs IH]; [reflexivity |]. cbn [forallb].
  intros Hf. apply andb_true_iff in Hf. destruct Hf as [Hev Hf].
  destruct ev; cbn in *; try discriminate; auto.
Qed.

Lemma console_only_waits evs : forallb console_only evs = true -> waits evs = [].
Proof.
  induction evs as [| ev evs IH]; [reflexivity |]. cbn [forallb].
  intros Hf. apply andb_true_iff in Hf. destruct Hf as [Hev Hf].
  destruct ev; cbn in *; try discriminate; auto.
Qed.

End EmitFacts.

(** ** Requests and waits of the page loops *)

Module PageAccounting.
Import Js Text Host Host.Notations Common Observe Measure MonadFacts RetryFacts
  EmitFacts.

#[local] Arguments trim : simpl never.
#[local] Arguments parseInt : simpl never.

Lemma fetch_run `{Env} url options w :
  calls (snd (fetch url options w)) = S (calls w)
  /\ trace (snd (fetch url options w)) = trace w ++ [EvFetch (request url options)].
Proof. unfold fetch. cbv zeta. destruct (transport _ _); split; reflexivity. Qed.

Lemma try_catch_bind_lift {L A B} (m : M A) (k : A -> St (L * World) B) h a w :
  try_catch (bind (lift m) k) h (a, w)
  = match m w with
    | (Ok x, w1) => try_catch (k x) h (a, w1)
    | (Throw e, w1) => h e (a, w1)
    end.
Proof.
  unfold try_catch, bind, lift. cbn [fst snd].
  destruct (m w) as [[x | e] w1]; reflexivity.
Qed.

Section Service.
Import Service ServiceFacts.
Context {env : Env} {templates : Templates}.

#[local] Arguments page_prompt : simpl never.
#[local] Arguments page_entry : simpl never.

Lemma emits_clean_any allow content : emits allow here (clean_any content).
Proof. destruct content; cbn; auto with emit. Qed.

(** A page costs one request, the first thing that happens; the rest is
    console output. *)
Lemma service_request_events lang pn content w :
  let run := request_page_analysis lang pn content w in
  calls (snd run) = S (calls w)
  /\ exists evs,
       trace (snd run)
       = trace w
         ++ EvFetch (request endpoint
                       (text_request (page_prompt (responses_language lang) pn content)
                          2000)) :: evs
       /\ forallb console_only evs = true.
Proof.
  cbv zeta. unfold request_page_analysis. cbv zeta.
  match goal with
  | |- context [bind (fetch ?u ?o) ?k] =>
      destruct (@emits_after _ console_only here _ _ (fetch u o) k w)
        as (Hc & evs & Ht & Hf);
      [| destruct (fetch_run u o w) as (Hc0 & Ht0)]
  end.
  - intros response. pose proof emits_clean_any. emit.
  - unfold here in *. split; [congruence |].
    exists evs. rewrite Ht, Ht0, <- app_assoc. auto.
Qed.

(** A page answered with an analysis: console output, then the delay. *)
Lemma service_page_body_answered lang m a w analysis w1 :
  dense m = true ->
  request_page_analysis lang (parseInt (group1 m)) (trim (group2 m)) w
    = (Ok (Some analysis), w1) ->
  exists a2 w2 evs,
    page_body lang m (a, w) = (Ok tt, (a2, w2))
    /\ calls w2 = calls w1
    /\ trace w2 = trace w1 ++ evs ++ [EvSleep 500]
    /\ forallb console_only evs = true.
Proof.
  intros D Hrun.
  unfold dense in D. unfold page_body. cbv zeta.
  destruct (length _ <? 50); [discriminate |].
  unfold bind at 1. rewrite try_catch_bind_lift, Hrun.
  match goal with
  | |- context [try_catch ?body ?h (a, w1)] =>
      assert (R : fst (try_catch body h (a, w1)) = Ok false);
      [| assert (E : emits console_only (@snd Arrays World) (try_catch body h));
         [| destruct (E (a, w1)) as (Hc1 & evs1 & Ht1 & Hf1);
            destruct (try_catch body h (a, w1)) as [r [a2 w2]] ]]
  end.
  - unfold try_catch, bind, lift, modify, member, ret, throw. cbn [fst snd].
    destruct (nullish analysis); cbn [fst snd]; [reflexivity |].
    set (K := or_else (prop analysis (js "keyPoints")) (VArr [])).
    set (C := or_else (prop analysis (js "tnpscCategories")) (VArr [])).
    destruct K; cbn; try reflexivity; destruct C; reflexivity.
  - emit.
  - cbn [fst snd] in *. subst r.
    exists a2, {| calls := calls w2; trace := trace w2 ++ [EvSleep 500] |}, evs1.
    split; [reflexivity |]. cbn [calls trace].
    split; [exact Hc1 |]. split; [rewrite Ht1, <- app_assoc; reflexivity | exact Hf1].
Qed.

(** One pass of the loop body over a page that is analysed. *)
Lemma service_page_body_events lang m a w :
  dense m = true ->
  let c := (parseInt (group1 m),
            fst (request_page_analysis lang (parseInt (group1 m)) (trim (group2 m)) w)) in
  let w' := snd (snd (page_body lang m (a, w))) in
  calls w' = S (calls w)
  /\ exists evs,
       trace w' = trace w ++ EvFetch (page_request lang m) :: evs
       /\ fetches evs = []
       /\ waits evs = if continued c then [] else [500%Z].
Proof.
  intros D. cbv zeta.
  destruct (service_request_events lang (parseInt (group1 m)) (trim (group2 m)) w)
    as (Hc & evs0 & Ht & Hf).
  fold (page_request lang m) in Ht.
  destruct (request_page_analysis lang (parseInt (group1 m)) (trim (group2 m)) w)
    as [[[analysis |] | e] w1] eqn:Hrun; cbn [snd fst] in *; unfold continued; cbn [snd].
  - destruct (@service_page_body_answered lang m a w analysis w1 D Hrun)
      as (a2 & w2 & evs1 & -> & Hc1 & Ht1 & Hf1). cbn [snd].
    split; [congruence |].
    exists (evs0 ++ evs1 ++ [EvSleep 500]).
    split; [rewrite Ht1, Ht, <- !app_assoc; reflexivity |].
    rewrite !fetches_app, !waits_app, (console_only_fetches _ Hf),
      (console_only_fetches _ Hf1), (console_only_waits _ Hf),
      (console_only_waits _ Hf1).
    split; reflexivity.
  - rewrite (@service_page_body_continue _ _ lang m a w w1 D Hrun). cbn [snd].
    split; [exact Hc |]. exists evs0.
    rewrite (console_only_fetches _ Hf), (console_only_waits _ Hf). auto.
  - rewrite (@service_page_body_throw _ _ lang m a w e w1 D Hrun). cbn [snd after calls trace].
    split; [exact Hc |].
    exists (evs0 ++ [page_error service_label (parseInt (group1 m), e); EvSleep 500]).
    split; [rewrite Ht, <- app_assoc; reflexivity |].
    rewrite fetches_app, waits_app, (console_only_fetches _ Hf),
      (console_only_waits _ Hf).
    split; reflexivity.
Qed.

Lemma service_page_body_returns lang m s : fst (page_body lang m s) = Ok tt.
Proof.
  destruct s as [a w]. destruct (dense m) eqn:D.
  - destruct (request_page_analysis lang (parseInt (group1 m)) (trim (group2 m)) w)
      as [[[analysis |] | e] w1] eqn:Hrun.
    + destruct (@service_page_body_answered lang m a w analysis w1 D Hrun)
        as (a2 & w2 & evs1 & -> & _). reflexivity.
    + rewrite (@service_page_body_continue _ _ lang m a w w1 D Hrun). reflexivity.
    + rewrite (@service_page_body_throw _ _ lang m a w e w1 D Hrun). reflexivity.
  - rewrite (@service_page_body_sparse _ _ lang m (a, w) D). reflexivity.
Qed.

(** The loop over the pages: one request per analysed page, in page
    order, and the delay after each page that did not [continue]. *)
Lemma batch_loop_events lang ms : forall a w,
  let w' := snd (snd (batch_loop lang ms (a, w))) in
  calls w' = calls w + length (filter dense ms)
  /\ exists evs,
       trace w' = trace w ++ evs
       /\ fetches evs = map (page_request lang) (filter dense ms)
       /\ waits evs
          = map (fun _ => 500%Z)
              (filter (fun c => negb (continued c)) (service_calls lang ms (a, w))).
Proof.
  induction ms as [| m rest IH]; intros a w; cbv zeta.
  - cbn. split; [lia |]. exists []. rewrite app_nil_r. auto.
  - cbn [batch_loop service_calls filter]. unfold bind at 1 2.
    pose proof (service_page_body_returns lang m (a, w)) as R.
    pose proof (service_page_body_events lang m a w) as Ev. cbv zeta in Ev.
    pose proof (@service_page_body_sparse _ _ lang m (a, w)) as Sp.
    destruct (page_body lang m (a, w)) as [r [a1 w1]].
    cbn [fst snd] in *. subst r.
    destruct (IH a1 w1) as (Hc & evs & Ht & Hf & Hw).
    destruct (dense m) eqn:D.
    + destruct (Ev eq_refl) as (Hc0 & evs0 & Ht0 & Hf0 & Hw0).
      cbn [length map filter]. split; [lia |].
      exists (EvFetch (page_request lang m) :: evs0 ++ evs).
      split; [rewrite Ht, Ht0, <- app_assoc; reflexivity |].
      split.
      * cbn [fetches flat_map app]. f_equal.
        fold (fetches (evs0 ++ evs)). rewrite fetches_app, Hf0, Hf. reflexivity.
      * cbn [waits flat_map app]. fold (waits (evs0 ++ evs)).
        rewrite waits_app, Hw0, Hw.
        destruct (continued _); reflexivity.
    + specialize (Sp eq_refl). injection Sp as <- <-.
      split; [lia |]. exists evs. auto.
Qed.

End Service.

Section Refactored.
Import Refactored PageFacts RetryAccounting.
Context {env : Env}.

#[local] Arguments page_entry : simpl never.

Lemma emits_safeParseJson_any allow content :
  allow (EvConsole (ErrorParseJson match content with VStr t => t | _ => [] end)) = true ->
  emits allow here (safeParseJson_any content).
Proof.
  intros Ha. destruct content; cbn [safeParseJson_any]; auto with emit.
  unfold safeParseJson. cbv zeta.
  apply emits_try_catch; [auto with emit |]. intros e.
  apply emits_bind; [apply emits_console; exact Ha | intros; auto with emit].
Qed.

(** A call of [analyzeIndividualPage]: between one and three requests,
    always the same one. *)
Lemma refactored_analyze_events textContent pageNumber lang w :
  let run := analyzeIndividualPage textContent pageNumber lang w in
  exists n evs,
    1 <= n <= 3
    /\ calls (snd run) = calls w + n
    /\ trace (snd run) = trace w ++ evs
    /\ fetches evs = repeat refactored_page_request n.
Proof.
  cbv zeta. unfold analyzeIndividualPage.
  match goal with
  | |- context [try_catch (bind ?m ?k) ?h] =>
      destruct (@emits_handler _ no_request here _ (bind m k) h w)
        as (Hc2 & evs2 & Ht2 & Hf2);
      [| destruct (@emits_after _ no_request here _ _ m k w)
           as (Hc1 & evs1 & Ht1 & Hf1) ]
  end.
  - intros e. emit.
  - intros response. pose proof (@emits_safeParseJson_any no_request). emit.
  - unfold here in *.
    destruct (retry_loop_accounting endpoint (text_request page_prompt 5000)
                default_retries (Z.to_nat default_retries) 0 default_delay w)
      as (n & evs & Hn & Hc & Ht & Hf & Hr).
    cbv zeta in *. fold (fetchWithRetry endpoint (text_request page_prompt 5000)
                           default_retries default_delay) in *.
    change (Z.to_nat default_retries) with 3 in *.
    exists n, (evs ++ evs1 ++ evs2).
    split; [destruct (returns _); lia |].
    split; [congruence |].
    split; [rewrite Ht2, Ht1, Ht, <- !app_assoc; reflexivity |].
    rewrite !fetches_app, Hf, (no_request_fetches _ Hf1), (no_request_fetches _ Hf2),
      !app_nil_r.
    reflexivity.
Qed.

Lemma refactored_page_body_returns lang m s : fst (page_body lang m s) = Ok tt.
Proof.
  destruct s as [a w]. destruct (dense m) eqn:D.
  - destruct (analyzeIndividualPage (trim (group2 m)) (parseInt (group1 m)) lang w)
      as [[analysis | e] w1] eqn:Hrun.
    + destruct (@page_body_ok _ lang m a w analysis w1 D Hrun) as (w2 & -> & _).
      reflexivity.
    + rewrite (@page_body_throw _ lang m a w e w1 D Hrun). reflexivity.
  - rewrite (@page_body_sparse _ lang m (a, w) D). reflexivity.
Qed.

Lemma refactored_page_body_events lang m a w :
  dense m = true ->
  let w' := snd (snd (page_body lang m (a, w))) in
  exists n evs,
    1 <= n <= 3
    /\ calls w' = calls w + n
    /\ trace w' = trace w ++ evs
    /\ fetches evs = repeat refactored_page_request n.
Proof.
  intros D. cbv zeta. unfold dense in D. unfold page_body. cbv zeta.
  destruct (length _ <? 50); [discriminate |].
  match goal with
  | |- context [bind (try_catch (bind (lift ?m) ?k) ?h) ?k2] =>
      destruct (@emits_after _ no_request (@snd Arrays World) _ _
                  (try_catch (bind (lift m) k) h) k2 (a, w))
        as (Hc3 & evs3 & Ht3 & Hf3);
      [| destruct (@emits_handler _ no_request (@snd Arrays World) _
                     (bind (lift m) k) h (a, w))
           as (Hc2 & evs2 & Ht2 & Hf2);
         [| destruct (@emits_after _ no_request (@snd Arrays World) _ _
                        (lift m) k (a, w))
              as (Hc1 & evs1 & Ht1 & Hf1) ] ]
  end.
  - intros []. emit.
  - intros e. emit.
  - intros analysis. emit.
  - destruct (refactored_analyze_events (trim (group2 m)) (parseInt (group1 m)) lang w)
      as (n & evs & Hn & Hc & Ht & Hf).
    cbv zeta in *.
    assert (L : snd (snd (@lift Arrays _
                  (analyzeIndividualPage (trim (group2 m)) (parseInt (group1 m)) lang)
                  (a, w)))
                = snd (analyzeIndividualPage (trim (group2 m)) (parseInt (group1 m))
                         lang w)).
    { unfold lift. cbn [fst snd]. destruct (analyzeIndividualPage _ _ _ w). reflexivity. }
    rewrite L in *.
    exists n, (evs ++ evs1 ++ evs2 ++ evs3).
    split; [exact Hn |].
    split; [congruence |].
    split; [rewrite Ht3, Ht2, Ht1, Ht, <- !app_assoc; reflexivity |].
    rewrite !fetches_app, Hf, (no_request_fetches _ Hf1), (no_request_fetches _ Hf2),
      (no_request_fetches _ Hf3), !app_nil_r.
    reflexivity.
Qed.

(** The loop: every analysed page costs between one and three requests,
    all of them the same request. *)
Lemma page_loop_events lang ms : forall a w,
  let w' := snd (snd (page_loop lang ms (a, w))) in
  exists n evs,
    length (filter dense ms) <= n <= 3 * length (filter dense ms)
    /\ calls w' = calls w + n
    /\ trace w' = trace w ++ evs
    /\ fetches evs = repeat refactored_page_request n.
Proof.
  induction ms as [| m rest IH]; intros a w; cbv zeta.
  - exists 0, []. cbn. rewrite app_nil_r. repeat split; lia.
  - cbn [page_loop filter]. unfold bind at 1 2.
    pose proof (refactored_page_body_returns lang m (a, w)) as R.
    pose proof (refactored_page_body_events lang m a w) as Ev. cbv zeta in Ev.
    pose proof (@page_body_sparse _ lang m (a, w)) as Sp.
    destruct (page_body lang m (a, w)) as [r [a1 w1]].
    cbn [fst snd] in *. subst r.
    destruct (IH a1 w1) as (n & evs & Hn & Hc & Ht & Hf).
    destruct (dense m) eqn:D.
    + destruct (Ev eq_refl) as (n0 & evs0 & Hn0 & Hc0 & Ht0 & Hf0).
      exists (n0 + n), (evs0 ++ evs). cbn [length].
      split; [lia |]. split; [lia |].
      split; [rewrite Ht, Ht0, <- app_assoc; reflexivity |].
      rewrite fetches_app, Hf0, Hf, repeat_app. reflexivity.
    + specialize (Sp eq_refl). injection Sp as <- <-.
      exists n, evs. auto.
Qed.

End Refactored.
End PageAccounting.

(** ** Decoding an answer *)

Module DecodeFacts.
Import Js Text Host Host.Notations Common Observe Measure MonadFacts RetryFacts
  RetryAccounting SanitizerFacts.

(** Reading a key of an object literal built from pairwise distinct
    keys on top of [acc]. *)
Lemma lookup_literal k fields : forall acc,
  NoDup (map fst fields) ->
  lookup k (fold_left (fun acc kv => set_prop (fst kv) (snd kv) acc) fields acc)
  = if existsb (fun kv => jsstring_eqb k (fst kv)) fields
    then lookup k fields else lookup k acc.
Proof.
  induction fields as [| [k1 v1] rest IH]; intros acc Hnd; [reflexivity |].
  cbn [map fst] in Hnd. inversion Hnd as [| ? ? Hnotin Hrest]. subst.
  cbn [fold_left existsb lookup fst snd]. rewrite IH by exact Hrest.
  destruct (jsstring_eqb k k1) eqn:E.
  - apply jsstring_eqb_eq in E. subst k1. cbn [orb].
    destruct (existsb _ rest) eqn:Ex; [| apply lookup_set_same].
    exfalso. apply Hnotin. apply existsb_exists in Ex.
    destruct Ex as ([k2 v2] & Hin & Hk). cbn [fst] in Hk.
    apply jsstring_eqb_eq in Hk. subst k2.
    apply in_map_iff. exists (k, v2). auto.
  - cbn [orb]. destruct (existsb _ rest); [reflexivity |].
    apply lookup_set_other. intros ->. rewrite jsstring_eqb_refl in E. discriminate.
Qed.

Lemma lookup_absent k fields :
  existsb (fun kv => jsstring_eqb k (fst kv)) fields = false ->
  lookup k fields = VUndefined.
Proof.
  induction fields as [| [k1 v1] rest IH]; [reflexivity |].
  cbn [existsb lookup fst]. destruct (jsstring_eqb k k1); [discriminate |].
  exact IH.
Qed.

Section WithEnv.
Context {env : Env}.

Lemma fetchWithRetry_first_ok url options delay w r :
  transport (calls w) (request url options) = Responds r ->
  ok r = true ->
  Refactored.fetchWithRetry url options Refactored.default_retries delay w
  = (Ok r, requested (request url options) w).
Proof.
  intros Ho Hok. unfold Refactored.fetchWithRetry.
  change (Z.to_nat Refactored.default_retries) with 3.
  rewrite retry_loop_step. cbv zeta. rewrite Ho.
  unfold attempt_result, after_fetch. rewrite Hok. reflexivity.
Qed.

Lemma candidate_text_run data w :
  nullish data = false ->
  candidate_text data w = (Ok (first_candidate data), w).
Proof.
  intros Hn. unfold candidate_text, bind, member. rewrite Hn. reflexivity.
Qed.

Lemma candidate_text_throws data w e w' :
  candidate_text data w = (Throw e, w') -> exists message, e = TypeError message.
Proof.
  unfold candidate_text, bind, member.
  destruct (nullish data); cbn; intros [= <- <-]. eauto.
Qed.

Lemma parse_json_throws text w e w' :
  parse_json text w = (Throw e, w') -> exists message, e = SyntaxError message.
Proof.
  unfold parse_json. destruct (JSON_parse text); cbn; intros [= <- <-]. eauto.
Qed.

Lemma safeParseJson_any_throws content w e w' :
  Refactored.safeParseJson_any content w = (Throw e, w') -> decoding_error e.
Proof.
  unfold decoding_error.
  destruct content; cbn [Refactored.safeParseJson_any]; try (intros [= <- <-]; eauto 6).
  rewrite safeParseJson_run.
  destruct (JSON_parse (clean s)); intros [= <- <-]. auto.
Qed.

(** What a handler that logs and rethrows leaves behind. *)
Lemma logged_and_rethrown {A} (m : M A) (entry : Thrown -> LogEntry) w :
  try_catch m (fun error => console (entry error) ;; throw error) w
  = match m w with
    | (Ok a, w1) => (Ok a, w1)
    | (Throw e, w1) => (Throw e, after w1 [EvConsole (entry e)])
    end.
Proof. unfold try_catch. destruct (m w) as [[a | e] w1]; reflexivity. Qed.

End WithEnv.
End DecodeFacts.

(** ** The page expression *)

Module PageTextFacts.
Import Js Text Host Common Observe Measure SanitizerFacts.

Lemma starts_with_app p : forall s, starts_with p (p ++ s) = true.
Proof.
  induction p as [| a p IH]; intros s; [reflexivity |].
  cbn. rewrite N.eqb_refl. apply IH.
Qed.

(** Only the first [length p] code units of [s] matter. *)
Lemma starts_with_more p : forall s rest,
  length p <= length s -> starts_with p (s ++ rest) = starts_with p s.
Proof.
  induction p as [| a p IH]; intros [| b s] rest; cbn; try lia; try reflexivity.
  intros Hl. rewrite IH by lia. reflexivity.
Qed.

Lemma skipn_length_app {A} (p : list A) : forall s, skipn (length p) (p ++ s) = s.
Proof. induction p as [| a p IH]; intros s; [reflexivity | apply IH]. Qed.

Lemma take_digits_run digits rest :
  forallb is_digit digits = true ->
  take_digits (digits ++ EQEQ ++ rest) = digits.
Proof.
  induction digits as [| d digits IH]; [reflexivity |].
  cbn [forallb app take_digits]. intros Hd.
  apply andb_true_iff in Hd. destruct Hd as [-> Hd].
  rewrite IH by exact Hd. reflexivity.
Qed.

Lemma before_marker_here marker s :
  starts_with marker s = true -> before_marker marker s = Some [].
Proof. intros Hs. destruct s; cbn [before_marker]; rewrite Hs; reflexivity. Qed.

Lemma before_marker_more marker content : forall rest,
  before_marker marker (content ++ marker) = Some content ->
  before_marker marker (content ++ marker ++ rest) = Some content.
Proof.
  induction content as [| c content IH]; intros rest.
  - intros _. cbn [app]. apply before_marker_here, starts_with_app.
  - cbn [app]. destruct marker as [| a marker]; [cbn; discriminate |].
    cbn [before_marker].
    destruct (starts_with (a :: marker) (c :: content ++ a :: marker)) eqn:E;
      [discriminate |].
    destruct (before_marker (a :: marker) (content ++ a :: marker)) as [x |] eqn:Hb;
      [| discriminate].
    cbn [option_map]. intros [= ->].
    replace (c :: content ++ (a :: marker) ++ rest)
      with ((c :: content ++ a :: marker) ++ rest)
      by (cbn; rewrite <- app_assoc; reflexivity).
    rewrite starts_with_more, E by (cbn; rewrite length_app; cbn; lia).
    rewrite (IH rest eq_refl). reflexivity.
Qed.

Lemma page_at_plain c s : c <> EQUALS -> page_at (c :: s) = None.
Proof.
  intros Hc. unfold page_at.
  replace (starts_with PAGE_START (c :: s)) with false; [reflexivity |].
  change PAGE_START with (EQUALS :: skipn 1 PAGE_START). cbn [starts_with].
  replace (EQUALS =? c)%N with false; [reflexivity |].
  symmetry. apply N.eqb_neq. congruence.
Qed.

(** The expression matches a well-formed page where it starts, whatever
    follows, and consumes exactly the page. *)
Lemma page_at_page m rest :
  well_formed m ->
  page_at (ocr_page m ++ rest) = Some (m, length (ocr_page m)).
Proof.
  intros (Hne & Hd & Hb). destruct m as [number content]. cbn [group1 group2] in *.
  unfold page_at, ocr_page. cbn [group1 group2]. cbv zeta.
  rewrite <- !app_assoc.
  rewrite starts_with_app, skipn_length_app, take_digits_run by exact Hd.
  rewrite skipn_length_app.
  destruct number as [| d number]; [congruence |].
  rewrite starts_with_app.
  change (skipn 2 (EQEQ ++ ?x)) with x.
  unfold end_marker in *. rewrite <- !app_assoc.
  replace (content ++ PAGE_END ++ (d :: number) ++ EQEQ ++ rest)
    with (content ++ (PAGE_END ++ (d :: number) ++ EQEQ) ++ rest)
    by (rewrite <- !app_assoc; reflexivity).
  rewrite before_marker_more by exact Hb.
  f_equal. f_equal.
  rewrite !length_app. change (length EQEQ) with 2. lia.
Qed.

Lemma scan_gap gap : forall rest,
  plain gap ->
  scan page_at 0 (gap ++ rest) = map inl gap ++ scan page_at 0 rest.
Proof.
  unfold plain. induction gap as [| c gap IH]; intros rest; [reflexivity |].
  cbn [forallb app map]. intros Hp. apply andb_true_iff in Hp.
  destruct Hp as [Hc Hp]. cbn [scan].
  rewrite page_at_plain
    by (intros ->; rewrite N.eqb_refl in Hc; discriminate).
  rewrite IH by exact Hp. reflexivity.
Qed.

Lemma scan_page m rest :
  well_formed m ->
  scan page_at 0 (ocr_page m ++ rest) = inr m :: scan page_at 0 rest.
Proof.
  intros Hm. pose proof (@page_at_page m rest Hm) as Hat.
  remember (ocr_page m) as page eqn:Hp.
  destruct page as [| c page]; [discriminate |].
  cbn [app scan]. cbn [app] in Hat. rewrite Hat. f_equal.
  cbn [length Nat.pred]. rewrite scan_skip, skipn_length_app. reflexivity.
Qed.

Lemma captures_app {C} (a b : list (N + C)) : captures (a ++ b) = captures a ++ captures b.
Proof. apply flat_map_app. Qed.

Lemma captures_gap {C} gap : captures (map (@inl N C) gap) = [].
Proof. induction gap as [| c gap IH]; [reflexivity | exact IH]. Qed.

End PageTextFacts.

(** ** The categories of [geminiService.ts] *)

Module CategoryFacts.
Import Js Text Host Host.Notations Common Observe Measure MonadFacts PageAccounting.
Import Service ServiceFacts.

#[local] Arguments trim : simpl never.
#[local] Arguments parseInt : simpl never.
#[local] Arguments page_prompt : simpl never.
#[local] Arguments page_entry : simpl never.

Section WithEnv.
Context {env : Env} {templates : Templates}.




End WithEnv.







End CategoryFacts.

(** ** The image loop *)

Module ImageFacts.
Import Js Text Host Host.Notations Common Refactored Observe Measure MonadFacts
  RetryFacts RetryAccounting EmitFacts PageAccounting DecodeFacts RefactoredImages.

Lemma split_comma_plain payload : forall current,
  forallb (fun c => negb (c =? COMMA)%N) payload = true ->
  split_comma current payload = [current ++ payload].
Proof.
  induction payload as [| c payload IH]; intros current Hp; cbn [split_comma].
  - rewrite app_nil_r. reflexivity.
  - cbn [forallb] in Hp. apply andb_true_iff in Hp. destruct Hp as [Hc Hp].
    apply negb_true_iff in Hc. rewrite Hc, IH by exact Hp.
    rewrite <- app_assoc. reflexivity.
Qed.

Lemma split_comma_two header : forall current payload,
  forallb (fun c => negb (c =? COMMA)%N) header = true ->
  forallb (fun c => negb (c =? COMMA)%N) payload = true ->
  split_comma current (header ++ COMMA :: payload) = [current ++ header; payload].
Proof.
  induction header as [| c header IH]; intros current payload Hh Hp.
  - cbn [app split_comma]. rewrite N.eqb_refl, app_nil_r.
    rewrite split_comma_plain by exact Hp. reflexivity.
  - cbn [forallb] in Hh. apply andb_true_iff in Hh. destruct Hh as [Hc Hh].
    apply negb_true_iff in Hc. cbn [app split_comma]. rewrite Hc.
    rewrite IH by assumption. rewrite <- app_assoc. reflexivity.
Qed.

Section WithEnv.
Context {env : Env}.

(** Files that are no images leave everything as it is. *)
Lemma images_loop_skip lang files : forall s,
  forallb (fun f => negb (is_image f)) files = true ->
  images_loop lang files s = (Ok tt, s).
Proof.
  induction files as [| f rest IH]; intros s Hall; [reflexivity |].
  cbn [forallb] in Hall. apply andb_true_iff in Hall. destruct Hall as [Hf Hall].
  apply negb_true_iff in Hf. cbn [images_loop]. rewrite Hf.
  unfold bind, ret. apply IH. exact Hall.
Qed.

Lemma images_loop_app lang l1 : forall l2 s,
  images_loop lang (l1 ++ l2) s
  = bind (images_loop lang l1) (fun _ => images_loop lang l2) s.
Proof.
  induction l1 as [| f rest IH]; intros l2 s; [reflexivity |].
  cbn [app images_loop]. unfold bind at 1 3 4.
  match goal with
  | |- context [match ?step s with _ => _ end] =>
      destruct (step s) as [[[] | e] s1]
  end; [| reflexivity].
  rewrite IH. reflexivity.
Qed.

(** The image whose analysis throws ends the loop. *)
Lemma images_loop_throw lang f rest acc w e w1 :
  is_image f = true ->
  analyzeImage f lang w = (Throw e, w1) ->
  images_loop lang (f :: rest) (acc, w) = (Throw e, (acc, w1)).
Proof.
  intros Hf Hrun. cbn [images_loop]. rewrite Hf.
  unfold bind, lift. cbn [fst snd]. rewrite Hrun. reflexivity.
Qed.

End WithEnv.
End ImageFacts.

(** ** A fence inside the text *)

Module FenceFacts.
Import Js Text Host Common Observe Measure SanitizerFacts.

(** No fence starts at a code unit that is no backtick, unless it is a
    newline right before a backtick. *)
Lemma fence_at_none c s :
  c <> BACKTICK ->
  c <> NL \/ (exists d s', s = d :: s' /\ d <> BACKTICK) ->
  fence_at (c :: s) = None.
Proof.
  intros Hc Hn. unfold fence_at. rewrite FENCE_JSON_codes, FENCE_codes.
  unfold NL, BACKTICK in *.
  destruct Hn as [Hn | (d & s' & -> & Hd)].
  - eqb_cases; first [reflexivity | congruence].
  - eqb_cases; first [reflexivity | congruence].
Qed.

(** The scan walks through a text without backticks that does not end
    in a newline and leaves it as it is. *)
Lemma scan_plain_prefix a : forall rest,
  Forall (fun c => c <> BACKTICK) a ->
  last a 0%N <> NL ->
  unmatched (scan fence_at 0 (a ++ rest)) = a ++ unmatched (scan fence_at 0 rest).
Proof.
  induction a as [| c a IH]; intros rest Ha Hl; [reflexivity |].
  inversion Ha as [| ? ? Hc Ha']. subst.
  cbn [app scan]. rewrite fence_at_none.
  - cbn [unmatched flat_map app]. f_equal.
    apply IH; [exact Ha' |].
    destruct a as [| d a]; [cbn; unfold NL; discriminate | exact Hl].
  - exact Hc.
  - destruct a as [| d a].
    + left. exact Hl.
    + right. exists d, (a ++ rest). split; [reflexivity |].
      inversion Ha'. assumption.
Qed.

(** Three backticks not followed by the language tag are a fence. *)
Lemma scan_bare_fence b :
  starts_with (js "json") b = false ->
  unmatched (scan fence_at 0 (FENCE ++ b)) = unmatched (scan fence_at 0 b).
Proof.
  intros Hb. rewrite FENCE_codes. cbn [app scan].
  assert (E : fence_at (96 :: 96 :: 96 :: b)%N = Some (tt, 3)).
  { unfold fence_at. rewrite FENCE_JSON_codes, FENCE_codes.
    change (starts_with [96; 96; 96; 106; 115; 111; 110]%N (96 :: 96 :: 96 :: b)%N)
      with (starts_with (js "json") b).
    rewrite Hb. reflexivity. }
  rewrite E. cbn [Nat.pred scan unmatched flat_map app].
  destruct b; reflexivity.
Qed.

Lemma fence_inside_is_cut a b :
  Forall (fun c => c <> BACKTICK) a ->
  last a 0%N <> NL ->
  Forall (fun c => c <> BACKTICK) b ->
  starts_with (js "json") b = false ->
  remove_fences (a ++ FENCE ++ b) = a ++ b.
Proof.
  intros Ha Hl Hb Hj. unfold remove_fences.
  rewrite scan_plain_prefix by assumption.
  rewrite scan_bare_fence by exact Hj.
  fold (remove_fences b). rewrite (remove_fences_plain Hb). reflexivity.
Qed.

(** A text in which three backticks in a row occur nowhere holds no
    fence. *)
Lemma starts_with_prefix p q : forall s,
  starts_with (p ++ q) s = true -> starts_with p s = true.
Proof.
  induction p as [| a p IH]; intros [| b s]; cbn; try reflexivity; try discriminate.
  intros Hs. apply andb_true_iff in Hs. destruct Hs as [-> Hs].
  cbn. eapply IH. exact Hs.
Qed.

Lemma occurs_tail p c s : occurs p (c :: s) = false -> occurs p s = false.
Proof.
  cbn [occurs]. intros Ho. apply orb_false_iff in Ho. apply Ho.
Qed.

Lemma occurs_here p s : occurs p s = false -> starts_with p s = false.
Proof.
  destruct s; cbn [occurs]; intros Ho; apply orb_false_iff in Ho; apply Ho.
Qed.

Lemma fence_at_without_fence s : occurs FENCE s = false -> fence_at s = None.
Proof.
  intros Ho. pose proof (occurs_here _ _ Ho) as H0. unfold fence_at.
  destruct (starts_with FENCE_JSON s) eqn:E1.
  { unfold FENCE_JSON in E1. apply starts_with_prefix in E1. congruence. }
  destruct (starts_with (NL :: FENCE) s) eqn:E2.
  { destruct s as [| c s]; [discriminate |]. cbn [starts_with] in E2.
    apply andb_true_iff in E2. destruct E2 as [_ E2].
    apply occurs_tail, occurs_here in Ho. congruence. }
  rewrite H0. reflexivity.
Qed.

Lemma remove_fences_without_fence s : occurs FENCE s = false -> remove_fences s = s.
Proof.
  unfold remove_fences. induction s as [| c r IH]; intros Ho; [reflexivity |].
  cbn [scan]. rewrite (fence_at_without_fence _ Ho). cbn [unmatched flat_map app].
  f_equal. apply IH. eapply occurs_tail. exact Ho.
Qed.

End FenceFacts.

(** ** The waits of the refactored page loop *)

Module WaitFacts.
Import Js Text Host Host.Notations Common Refactored Observe Measure MonadFacts
  RetryFacts RetryAccounting EmitFacts PageAccounting PageFacts.

#[local] Arguments trim : simpl never.
#[local] Arguments parseInt : simpl never.
#[local] Arguments page_entry : simpl never.

Section WithEnv.
Context {env : Env}.

(** The waits of a call of [fetchWithRetry] with the defaults: the
    first [k] delays of the backoff, [k] at most three. *)
Lemma fetchWithRetry_waits url options w :
  exists k evs,
    k <= 3
    /\ trace (snd (fetchWithRetry url options default_retries default_delay w))
       = trace w ++ evs
    /\ waits evs = backoff default_delay k.
Proof.
  unfold fetchWithRetry.
  destruct (retry_loop_trace url options default_retries
              (Z.to_nat default_retries) 0 default_delay w) as (evs & Ht & Hw & _).
  destruct (retry_loop_accounting url options default_retries
              (Z.to_nat default_retries) 0 default_delay w)
    as (n & evs' & Hn & _ & Ht' & _ & Hr).
  cbv zeta in *. rewrite Ht in Ht'. apply app_inv_head in Ht'. subst evs'.
  change (Z.to_nat default_retries) with 3 in *.
  exists (length (waits evs)), evs.
  split; [destruct (returns _); lia |]. auto.
Qed.

Lemma analyzeIndividualPage_waits textContent pageNumber lang w :
  exists k evs,
    k <= 3
    /\ trace (snd (analyzeIndividualPage textContent pageNumber lang w))
       = trace w ++ evs
    /\ waits evs = backoff default_delay k.
Proof.
  unfold analyzeIndividualPage.
  match goal with
  | |- context [try_catch (bind ?m ?k) ?h] =>
      destruct (@emits_handler _ console_only here _ (bind m k) h w)
        as (_ & evs2 & Ht2 & Hf2);
      [| destruct (@emits_after _ console_only here _ _ m k w)
           as (_ & evs1 & Ht1 & Hf1) ]
  end.
  - intros e. emit.
  - intros response. pose proof (@emits_safeParseJson_any _ console_only). emit.
  - unfold here in *.
    destruct (fetchWithRetry_waits endpoint (text_request page_prompt 5000) w)
      as (k & evs & Hk & Ht & Hw).
    exists k, (evs ++ evs1 ++ evs2).
    split; [exact Hk |].
    split; [rewrite Ht2, Ht1, Ht, <- !app_assoc; reflexivity |].
    rewrite !waits_app, Hw, (console_only_waits _ Hf1), (console_only_waits _ Hf2),
      !app_nil_r.
    reflexivity.
Qed.

Lemma bind_returned {S A B} (m : St S A) (k : A -> St S B) s b :
  fst (bind m k s) = Ok b ->
  exists x, fst (m s) = Ok x /\ bind m k s = k x (snd (m s)).
Proof.
  unfold bind. destruct (m s) as [[x | e] s1]; cbn [fst snd]; [eauto | discriminate].
Qed.

(** An analysed page: the waits of its call, then the pause. *)
Lemma refactored_page_body_waits lang m a w :
  dense m = true ->
  exists k evs,
    k <= 3
    /\ trace (snd (snd (page_body lang m (a, w)))) = trace w ++ evs
    /\ waits evs = backoff default_delay k ++ [200%Z].
Proof.
  intros D.
  pose proof (refactored_page_body_returns lang m (a, w)) as R.
  revert R. unfold dense in D. unfold page_body. cbv zeta.
  destruct (length _ <? 50); [discriminate |].
  intros R. apply bind_returned in R. destruct R as ([] & _ & ->).
  match goal with
  | |- context [try_catch (bind (lift ?m) ?k) ?h (a, w)] =>
      destruct (@emits_handler _ console_only (@snd Arrays World) _
                  (bind (lift m) k) h (a, w))
        as (_ & evs2 & Ht2 & Hf2);
      [| destruct (@emits_after _ console_only (@snd Arrays World) _ _
                     (lift m) k (a, w))
           as (_ & evs1 & Ht1 & Hf1);
         [| destruct (try_catch (bind (lift m) k) h (a, w)) as [r [a2 w2]] ] ]
  end.
  - intros e. emit.
  - intros analysis. emit.
  - cbn [fst snd lift sleep emit trace] in *.
    destruct (analyzeIndividualPage_waits (trim (group2 m)) (parseInt (group1 m))
                lang w) as (k & evs & Hk & Ht & Hw).
    assert (L : snd (snd (@lift Arrays _
                  (analyzeIndividualPage (trim (group2 m)) (parseInt (group1 m)) lang)
                  (a, w)))
                = snd (analyzeIndividualPage (trim (group2 m)) (parseInt (group1 m))
                         lang w)).
    { unfold lift. cbn [fst snd]. destruct (analyzeIndividualPage _ _ _ w). reflexivity. }
    rewrite L in *.
    exists k, (evs ++ evs1 ++ evs2 ++ [EvSleep 200]).
    split; [exact Hk |].
    split; [rewrite Ht2, Ht1, Ht, <- !app_assoc; reflexivity |].
    rewrite !waits_app, Hw, (console_only_waits _ Hf1), (console_only_waits _ Hf2).
    reflexivity.
Qed.

Lemma page_loop_waits lang ms : forall a w,
  exists ks evs,
    length ks = length (filter dense ms)
    /\ Forall (fun k => k <= 3) ks
    /\ trace (snd (snd (page_loop lang ms (a, w)))) = trace w ++ evs
    /\ waits evs = flat_map (fun k => backoff default_delay k ++ [200%Z]) ks.
Proof.
  induction ms as [| m rest IH]; intros a w.
  - exists [], []. cbn. rewrite app_nil_r. auto.
  - cbn [page_loop filter]. unfold bind at 1.
    pose proof (refactored_page_body_returns lang m (a, w)) as R.
    pose proof (refactored_page_body_waits lang m a w) as Ev.
    pose proof (@page_body_sparse _ lang m (a, w)) as Sp.
    destruct (page_body lang m (a, w)) as [r [a1 w1]].
    cbn [fst snd] in *. subst r.
    destruct (IH a1 w1) as (ks & evs & Hl & Hk & Ht & Hw).
    destruct (dense m) eqn:D.
    + destruct (Ev eq_refl) as (k & evs0 & Hk0 & Ht0 & Hw0).
      exists (k :: ks), (evs0 ++ evs). cbn [length flat_map].
      split; [lia |]. split; [constructor; assumption |].
      split; [rewrite Ht, Ht0, <- app_assoc; reflexivity |].
      rewrite waits_app, Hw0, Hw. reflexivity.
    + specialize (Sp eq_refl). injection Sp as <- <-.
      exists ks, evs. auto.
Qed.

End WithEnv.
End WaitFacts.

(** ** Waits tied to the attempts that caused them *)

Module BackoffFacts.
Import Js Text Host Host.Notations Common Refactored Observe Measure RetryFacts.

Lemma retryable_failed o : retryable o = true -> failed o = true.
Proof.
  destruct o as [r | reason]; cbn; [| reflexivity].
  intros Hr. apply andb_true_iff in Hr. apply Hr.
Qed.

(** After a failure of one of the two kinds: its warning, then the wait
    it announces. *)
Lemma after_retryable o retries i delay :
  retryable o = true ->
  after_fetch o retries i delay
  = [EvConsole (retry_warning o retries i delay); EvSleep delay].
Proof.
  destruct o as [r | reason]; cbn; [| reflexivity].
  intros Hr. apply andb_true_iff in Hr. destruct Hr as [Hok Hs].
  apply negb_true_iff in Hok. rewrite Hok, Hs. reflexivity.
Qed.

Lemma flat_map_seq_shift {A} (f : nat -> list A) n : forall a,
  flat_map f (seq (S a) n) = flat_map (fun k => f (S k)) (seq a n).
Proof.
  induction n as [| n IH]; intros a; [reflexivity |].
  cbn [seq flat_map]. rewrite IH. reflexivity.
Qed.

Section WithEnv.
Context {env : Env}.

(** While the attempts meet server errors and rejected requests, each
    attempt is followed by its warning and by a wait of the current
    delay, which then doubles: attempt number [k] (from zero) waits
    [delay * 2 ^ k]. *)
Lemma retry_loop_named_failures url options retries n :
  forall remaining i delay w,
  n <= remaining ->
  (forall k, k < n ->
     retryable (transport (calls w + k) (request url options)) = true) ->
  exists rest,
    trace (snd (retry_loop url options retries remaining i delay w))
    = trace w
      ++ flat_map
           (fun k =>
              [EvFetch (request url options);
               EvConsole (retry_warning
                            (transport (calls w + k) (request url options))
                            retries (i + k) (delay * 2 ^ Z.of_nat k));
               EvSleep (delay * 2 ^ Z.of_nat k)])
           (seq 0 n)
      ++ rest.
Proof.
  induction n as [| n IH]; intros remaining i delay w Hn Hall.
  - destruct (retry_loop_trace url options retries remaining i delay w)
      as (evs & Ht & _).
    exists evs. exact Ht.
  - destruct remaining as [| remaining]; [lia |].
    rewrite retry_loop_step. cbv zeta.
    assert (H0 : retryable (transport (calls w) (request url options)) = true).
    { specialize (Hall 0). rewrite Nat.add_0_r in Hall. apply Hall. lia. }
    set (o := transport (calls w) (request url options)) in *.
    rewrite (attempt_result_failed o delay (retryable_failed o H0)).
    rewrite (after_retryable o retries i delay H0).
    match goal with
    | |- context [retry_loop _ _ _ remaining (S i) ?d ?w1] =>
        destruct (IH remaining (S i) d w1) as (rest & Ht)
    end.
    + lia.
    + intros k Hk. cbn [calls]. replace (S (calls w) + k) with (calls w + S k) by lia.
      apply Hall. lia.
    + exists rest. rewrite Ht. cbn [calls trace seq flat_map].
      rewrite flat_map_seq_shift, <- !app_assoc. cbn [app].
      rewrite !Nat.add_0_r. change (2 ^ Z.of_nat 0)%Z with 1%Z.
      rewrite Z.mul_1_r. fold o.
      do 5 f_equal. apply flat_map_ext. intros k.
      replace (S (calls w) + k) with (calls w + S k) by lia.
      replace (S i + k) with (i + S k) by lia.
      replace (delay * 2 * 2 ^ Z.of_nat k)%Z with (delay * 2 ^ Z.of_nat (S k))%Z
        by (rewrite Nat2Z.inj_succ, Z.pow_succ_r by lia; lia).
      reflexivity.
Qed.

(** The same for a call of [fetchWithRetry]: as long as the failures
    are server errors and rejected requests, the wait that follows
    attempt number [k] (from zero) is [delay * 2 ^ k]. *)
Lemma named_failures_wait_in_turn url options retries delay w n :
  n <= Z.to_nat retries ->
  (forall k, k < n ->
     retryable (transport (calls w + k) (request url options)) = true) ->
  exists rest,
    trace (snd (fetchWithRetry url options retries delay w))
    = trace w
      ++ flat_map
           (fun k =>
              [EvFetch (request url options);
               EvConsole (retry_warning
                            (transport (calls w + k) (request url options))
                            retries k (delay * 2 ^ Z.of_nat k));
               EvSleep (delay * 2 ^ Z.of_nat k)])
           (seq 0 n)
      ++ rest.
Proof.
  intros Hn Hall. unfold fetchWithRetry.
  exact (@retry_loop_named_failures url options retries n (Z.to_nat retries) 0
           delay w Hn Hall).
Qed.

End WithEnv.
End BackoffFacts.

(** ** The questions, tied to the response *)

Module QuestionTies.
Import Js Text Host Host.Notations Common Observe Measure MonadFacts
  SanitizerFacts QuestionFacts DecodeFacts.

#[local] Arguments Refactored.fetchWithRetry : simpl never.
#[local] Arguments Refactored.safeParseJson : simpl never.

Section WithEnv.
Context {env : Env} {templates : Service.Templates}.

Lemma fetch_ok url options w response w' :
  fetch url options w = (Ok response, w') ->
  transport (calls w) (request url options) = Responds response.
Proof.
  unfold fetch, request. cbv zeta.
  destruct (transport (calls w) _); [intros [= -> _]; reflexivity | discriminate].
Qed.

Lemma json_ok response w data w' :
  json response w = (Ok data, w') -> JSON_parse (text response) = Some data.
Proof.
  unfold json, parse_json. destruct (JSON_parse (text response)); unfold ret, throw;
    [intros [= -> _]; reflexivity | discriminate].
Qed.

Lemma candidate_text_ok data w content w' :
  candidate_text data w = (Ok content, w') -> content = first_candidate data.
Proof.
  unfold candidate_text, bind, member, first_candidate, ret, throw.
  destruct (nullish data); [discriminate | intros [= <- _]; reflexivity].
Qed.

(** The questions of the refactored service come from the candidate
    text of the response [fetchWithRetry] returned. *)
Lemma refactored_questions_of_response ars difficulty lang w r :
  fst (Refactored.generateQuestions ars difficulty lang w) = Ok r ->
  totalQuestions r = length (questions r)
  /\ exists response data content payload,
       fst (Refactored.fetchWithRetry endpoint
              (text_request Refactored.questions_prompt 5000)
              Refactored.default_retries Refactored.default_delay w) = Ok response
       /\ JSON_parse (text response) = Some data
       /\ first_candidate data = VStr content
       /\ JSON_parse (clean content) = Some payload
       /\ questions_of [js "A"; js "B"; js "C"; js "D"] payload (questions r).
Proof.
  unfold Refactored.generateQuestions, try_catch, bind.
  destruct (Refactored.fetchWithRetry _ _ _ _ w) as [[response | e] w1];
    [| discriminate].
  destruct (json response w1) as [[data | e] w2] eqn:Hj; [| discriminate].
  destruct (candidate_text data w2) as [[content | e] w3] eqn:Hc; [| discriminate].
  destruct (truthy content); cbn [negb]; [| discriminate].
  cbn [console emit].
  destruct (Refactored.safeParseJson_any content _) as [[payload | e] w4] eqn:Hp;
    [| discriminate].
  apply safeParseJson_any_ok in Hp. destruct Hp as (text & -> & Hp).
  destruct (Refactored.format_questions payload w4) as [[ys | e] w5] eqn:Hf;
    [| discriminate].
  cbn. intros [= <-]. cbn. split; [reflexivity |].
  exists response, data, text, payload.
  split; [reflexivity |]. split; [eapply json_ok; exact Hj |].
  split; [symmetry; eapply candidate_text_ok; exact Hc |].
  split; [exact Hp |].
  unfold Refactored.format_questions in Hf. unfold questions_of.
  destruct payload; try (injection Hf as <- _; reflexivity).
  eapply map_format_questions. exact Hf.
Qed.

(** Those of [geminiService.ts] come from the candidate text of the
    one response to its request. *)
Lemma service_questions_of_response ars difficulty lang w r :
  fst (Service.generateQuestions ars difficulty lang w) = Ok r ->
  totalQuestions r = length (questions r)
  /\ exists response data content payload,
       transport (calls w) (questions_request ars difficulty lang) = Responds response
       /\ ok response = true
       /\ JSON_parse (text response) = Some data
       /\ first_candidate data = VStr content
       /\ JSON_parse (clean content) = Some payload
       /\ questions_of [js "Option A"; js "Option B"; js "Option C"; js "Option D"]
            payload (questions r).
Proof.
  unfold Service.generateQuestions, try_catch, bind.
  destruct (fetch _ _ w) as [[response | e] w1] eqn:Hfetch; [| discriminate].
  apply fetch_ok in Hfetch.
  destruct (ok response) eqn:Hok; cbn [negb]; [| discriminate].
  destruct (json response w1) as [[data | e] w2] eqn:Hj; [| discriminate].
  destruct (candidate_text data w2) as [[content | e] w3] eqn:Hc; [| discriminate].
  destruct (truthy content); cbn [negb]; [| discriminate].
  cbn [console emit].
  destruct content as [| | | | text | |]; cbn [Service.clean_any ret throw];
    try discriminate.
  unfold parse_json.
  destruct (JSON_parse (clean text)) as [payload |] eqn:Hp; [| discriminate].
  cbn [ret].
  destruct (Service.format_questions payload _) as [[ys | e] w5] eqn:Hf;
    [| discriminate].
  cbn. intros [= <-]. cbn. split; [reflexivity |].
  exists response, data, text, payload.
  split; [exact Hfetch |]. split; [exact Hok |].
  split; [eapply json_ok; exact Hj |].
  split; [symmetry; eapply candidate_text_ok; exact Hc |].
  split; [exact Hp |].
  unfold Service.format_questions in Hf. unfold questions_of.
  destruct payload; try discriminate.
  eapply map_format_questions. exact Hf.
Qed.

End WithEnv.
End QuestionTies.

(** ** Claims on the retry wrapper *)

Module RetryClaims.
Import Js Text Host Host.Notations Common Refactored Observe RetryFacts Run.

(** C1.  The claim asks that a client-error response makes
    [fetchWithRetry] fail at once with the HTTP error, with no further
    [fetch] and no wait.  The code logs "Aborting retries" and throws the
    HTTP error, but inside the [try] block whose [catch] clause waits
    and goes on: against a transport that always answers 404 the call
    issues three requests, waits 1000, 2000 and 4000 ms, and ends with
    the exhausted-retries error, the HTTP error having been caught three
    times. *)
Theorem client_error_is_retried :
  let run := @fetchWithRetry (always (with_status 404)) some_url post 3 1000 World0 in
  fst run = Throw (ErrorObj (exhausted_message some_url 3))
  /\ length (fetches (trace (snd run))) = 3
  /\ waits (trace (snd run)) = [1000; 2000; 4000]%Z
  /\ caught_errors (trace (snd run))
     = [ErrorObj (http_error_message 404); ErrorObj (http_error_message 404);
        ErrorObj (http_error_message 404)].
Proof. vm_compute. repeat split. Qed.

(** The same in general: whenever the first response is a client error
    and at least one attempt is allowed, a backoff wait follows it. *)
Lemma client_error_waits `{Env} url options retries delay w :
  client_error (transport (calls w) (request url options)) = true ->
  (0 < retries)%Z ->
  exists evs,
    trace (snd (fetchWithRetry url options retries delay w)) = trace w ++ evs
    /\ exists d rest, waits evs = d :: rest.
Proof.
  intros Hc Hr. unfold fetchWithRetry.
  destruct (Z.to_nat retries) as [| n] eqn:E; [lia |].
  rewrite retry_loop_step. cbv zeta.
  set (o := transport (calls w) (request url options)) in *.
  assert (F : failed o = true).
  { destruct o as [r | reason]; cbn in *; [| discriminate].
    destruct (ok r); [discriminate | reflexivity]. }
  rewrite (attempt_result_failed o delay F).
  match goal with
  | |- context [retry_loop _ _ _ n 1 ?d ?w1] =>
      destruct (@retry_loop_trace _ url options retries n 1 d w1) as (evs & Ht & _)
  end.
  rewrite Ht. cbn [trace]. rewrite <- app_assoc.
  eexists. split; [reflexivity |].
  cbn [app waits flat_map]. fold (waits (after_fetch o retries 0 delay ++ evs)).
  rewrite waits_app, after_fetch_waits, F. cbn. eauto.
Qed.

(** C2.  The claim asks that the default count of 3 allows three
    retries, as the docstring of [fetchWithRetry] says of [retries]
    ("the number of times to retry on failure").  The loop counts
    attempts instead: against a transport that answers 500 three times
    and then 200, the default call sends three requests; after the third
    failure it still announces a retry ("3/3") and waits the 4000 ms,
    then throws the exhausted-retries error.  The fourth request, the
    one that would be answered with 200, is never sent. *)
Theorem three_server_errors_use_up_default_retries :
  let env := scripted [with_status 500; with_status 500; with_status 500;
                       with_status 200] in
  let req := request some_url post in
  let run := @fetchWithRetry env some_url post default_retries default_delay World0 in
  fst run = Throw (ErrorObj (exhausted_message some_url 3))
  /\ calls (snd run) = 3
  /\ trace (snd run)
     = [EvFetch req; EvConsole (WarnServerError 500 1000 1 3); EvSleep 1000;
        EvFetch req; EvConsole (WarnServerError 500 2000 2 3); EvSleep 2000;
        EvFetch req; EvConsole (WarnServerError 500 4000 3 3); EvSleep 4000]
  /\ ~ (exists r, fst run = Ok r /\ status r = 200%Z).
Proof.
  vm_compute. repeat split. intros (r & Hr & _). discriminate.
Qed.

(** C3.  When every allowed attempt fails, the call fails with the
    exhausted-retries error, whose message names the URL and the attempt
    count; that error is none of the errors the failed attempts raised
    (rejections of [fetch] and HTTP errors, as the [catch] clause
    received them). *)
Theorem exhausted_error_is_distinct `{Env} url options retries delay w :
  (forall j, j < Z.to_nat retries ->
     failed (transport (calls w + j) (request url options)) = true) ->
  let run := fetchWithRetry url options retries delay w in
  fst run = Throw (ErrorObj (js "Failed to fetch from " ++ url ++ js " after "
                               ++ showZ retries ++ js " attempts."))
  /\ calls (snd run) = calls w + Z.to_nat retries
  /\ exists evs,
       trace (snd run) = trace w ++ evs
       /\ Forall (fun e => Throw e <> fst run) (caught_errors evs).
Proof.
  intros Hfail run. subst run. unfold fetchWithRetry.
  destruct (@retry_loop_exhausted _ url options retries (Z.to_nat retries) 0 delay w Hfail)
    as (Hr & Hc & evs & Ht & _).
  split; [exact Hr |]. split; [exact Hc |].
  exists evs. split; [exact Ht |].
  apply Forall_forall. intros e He. rewrite Hr.
  destruct (@retry_loop_caught _ url options retries (Z.to_nat retries) 0 delay w evs e Ht He)
    as [(reason & ->) | (code & ->)].
  - discriminate.
  - intros Heq.
    assert (E : ErrorObj (http_error_message code)
                = ErrorObj (exhausted_message url retries)) by congruence.
    revert E. apply http_error_is_not_exhausted.
Qed.

(** A client error, a rejected request and a server error use up the
    three attempts. *)
Lemma exhausted_error_is_distinct_witness :
  let env := scripted [with_status 404; Rejects (js "Failed to fetch");
                       with_status 503] in
  let run := @fetchWithRetry env some_url post 3 1000 World0 in
  fst run = Throw (ErrorObj (js "Failed to fetch from " ++ some_url ++ js " after "
                               ++ showZ 3 ++ js " attempts."))
  /\ calls (snd run) = 3
  /\ exists evs,
       trace (snd run) = trace World0 ++ evs
       /\ Forall (fun e => Throw e <> fst run) (caught_errors evs).
Proof.
  apply (@exhausted_error_is_distinct
           (scripted [with_status 404; Rejects (js "Failed to fetch");
                      with_status 503]) some_url post 3 1000 World0).
  intros j Hj. change (Z.to_nat 3) with 3 in Hj.
  destruct j as [| [| [| j]]]; [reflexivity | reflexivity | reflexivity | lia].
Defined.

(** C9.  The claim asks that the waits caused by server errors and by
    network failures follow one backoff: the k-th of them is the initial
    delay times [2 ^ (k - 1)].  A client error between two of them
    breaks this: its [throw] sits inside the [try] block and is caught by
    the [catch] clause of the same iteration, which waits and doubles
    the delay too.
    Against a transport that answers 500, 404, 500 and 200, with four
    attempts and an initial delay of 1000 ms, the first server error is
    followed by a wait of 1000 ms and the second by a wait of 4000 ms,
    not 2000 ms: the 2000 ms were spent on the client error. *)
Theorem client_error_shifts_the_backoff :
  let env := scripted [with_status 500; with_status 404; with_status 500;
                       with_status 200] in
  let req := request some_url post in
  let run := @fetchWithRetry env some_url post 4 1000 World0 in
  fst run = Ok {| status := 200; text := [] |}
  /\ trace (snd run)
     = [EvFetch req; EvConsole (WarnServerError 500 1000 1 4); EvSleep 1000;
        EvFetch req; EvConsole (ErrorClientError 404);
        EvConsole (WarnNetworkOrFetch 2000 2 4 (ErrorObj (http_error_message 404)));
        EvSleep 2000;
        EvFetch req; EvConsole (WarnServerError 500 4000 3 4); EvSleep 4000;
        EvFetch req].
Proof. vm_compute. split; reflexivity. Qed.

(** Without a client error in between the two kinds of failure do share
    one delay state: a server error, a network failure and another
    server error wait 1000, 2000 and 4000 ms, each wait right after its
    failed attempt. *)
Example backoff_mixed_failures :
  let env := scripted [with_status 500; Rejects (js "Failed to fetch");
                       with_status 502; with_status 200] in
  let req := request some_url post in
  trace (snd (@fetchWithRetry env some_url post 4 1000 World0))
  = [EvFetch req; EvConsole (WarnServerError 500 1000 1 4); EvSleep 1000;
     EvFetch req;
     EvConsole (WarnNetworkOrFetch 2000 2 4 (NetworkFailure (js "Failed to fetch")));
     EvSleep 2000;
     EvFetch req; EvConsole (WarnServerError 502 4000 3 4); EvSleep 4000;
     EvFetch req].
Proof. reflexivity. Qed.

End RetryClaims.

(** ** Claims on the sanitizer *)

Module SanitizerClaims.
Import Js Text Host Host.Notations Common Refactored Observe Measure
  SanitizerFacts FenceFacts Run.

(** C4.  Let [s] be valid JSON after trimming, [v] its value.  Wrapped
    in markdown code fences it parses as it does bare: the two calls of
    [safeParseJson] have the same outcome, and the value the bare text
    returns is the value the fenced text returns, in the same world.
    When [s] holds no fence of its own (three backticks in a row occur
    nowhere in it; single backticks may), that value is [v], the value
    of the trimmed text, for the fenced text as for the bare one, and
    nothing is written to the console.  (A fence inside [s] is cut from
    both texts alike before the parser sees them.) *)
Theorem fenced_text_parses_identically `{Env} s v w :
  JSON_parse (trim s) = Some v ->
  fst (safeParseJson (fenced s) w) = fst (safeParseJson s w)
  /\ (forall v', fst (safeParseJson s w) = Ok v' ->
                 safeParseJson (fenced s) w = (Ok v', w))
  /\ (occurs FENCE s = false ->
      safeParseJson s w = (Ok v, w) /\ safeParseJson (fenced s) w = (Ok v, w)).
Proof.
  intros Hv. rewrite !safeParseJson_run, clean_fenced.
  split; [destruct (JSON_parse (clean s)); reflexivity |].
  split.
  - destruct (JSON_parse (clean s)) as [v'' |]; cbn [fst]; intros v' [= <-].
    reflexivity.
  - intros Hplain. unfold clean.
    rewrite (remove_fences_without_fence _ Hplain), Hv. auto.
Qed.

(** An object between blanks, with a lone backtick in one of its
    strings. *)
Lemma fenced_text_parses_identically_witness :
  let env := always (with_status 200) in
  let s := Json.jq " {'keyPoints': ['a', 'b'], 'summary': 'x" ++ [BACKTICK]
             ++ Json.jq "y'} " in
  let v := VObj [(js "keyPoints", VArr [VStr (js "a"); VStr (js "b")]);
                 (js "summary", VStr (js "x" ++ [BACKTICK] ++ js "y"))] in
  fst (@safeParseJson env (fenced s) World0) = fst (@safeParseJson env s World0)
  /\ (forall v', fst (@safeParseJson env s World0) = Ok v' ->
                 @safeParseJson env (fenced s) World0 = (Ok v', World0))
  /\ @safeParseJson env s World0 = (Ok v, World0)
  /\ @safeParseJson env (fenced s) World0 = (Ok v, World0).
Proof.
  cbv zeta.
  destruct (@fenced_text_parses_identically (always (with_status 200))
              (Json.jq " {'keyPoints': ['a', 'b'], 'summary': 'x" ++ [BACKTICK]
                 ++ Json.jq "y'} ")
              (VObj [(js "keyPoints", VArr [VStr (js "a"); VStr (js "b")]);
                     (js "summary", VStr (js "x" ++ [BACKTICK] ++ js "y"))])
              World0) as (Hsame & Hvalue & Hplain).
  - vm_compute. reflexivity.
  - split; [exact Hsame |]. split; [exact Hvalue |].
    apply Hplain. vm_compute. reflexivity.
Defined.

(** The fenced object of the witness, run. *)
Example fenced_object :
  let env := always (with_status 200) in
  let s := Json.jq " {'keyPoints': ['a', 'b'], 'summary': 'x'} " in
  occurs FENCE s = false
  /\ @safeParseJson env (fenced s) World0
     = (Ok (VObj [(js "keyPoints", VArr [VStr (js "a"); VStr (js "b")]);
                  (js "summary", VStr (js "x"))]), World0).
Proof. split; reflexivity. Qed.

(** C5, as stated, fails: the error thrown for a malformed text is the
    same for every text, so it cannot carry the text.  Two different
    malformed inputs end in one and the same error value. *)
Lemma malformed_error_carries_no_text :
  let env := always (with_status 200) in
  fst (@safeParseJson env (js "oops") World0)
    = fst (@safeParseJson env (js "{broken") World0)
  /\ ~ (exists recover : Thrown -> jsstring,
          forall text, JSON_parse (clean text) = None ->
            exists e, fst (@safeParseJson env text World0) = Throw e
                      /\ recover e = text).
Proof.
  cbv zeta. split; [reflexivity |].
  intros (recover & Hrec).
  destruct (Hrec (js "oops") eq_refl) as (e1 & H1 & R1).
  destruct (Hrec (js "{broken") eq_refl) as (e2 & H2 & R2).
  vm_compute in H1, H2. injection H1 as <-. injection H2 as <-.
  rewrite R1 in R2. vm_compute in R2. discriminate.
Qed.

(** C5, amended.  When the cleaned text is not valid JSON,
    [safeParseJson] does not let the parser's error escape: it throws an
    [Error] with the fixed message "Invalid JSON response from API. The
    response could not be parsed.", which differs from the message of
    every other error the helpers throw.  The original text is not in
    the error; it is written to the console error log. *)
Theorem malformed_text_gives_fixed_error `{Env} text w :
  JSON_parse (clean text) = None ->
  let run := safeParseJson text w in
  fst run = Throw (ErrorObj (js "Invalid JSON response from API. The response could not be parsed."))
  /\ snd run = {| calls := calls w;
                  trace := trace w ++ [EvConsole (ErrorParseJson text)] |}
  /\ (forall code, invalid_json_message <> http_error_message code)
  /\ (forall url retries, invalid_json_message <> exhausted_message url retries)
  /\ invalid_json_message <> no_content_message.
Proof.
  intros Hp run. subst run. rewrite safeParseJson_run, Hp.
  repeat split; try (intros; discriminate).
Qed.

(** A fenced text that is not JSON. *)
Lemma malformed_text_gives_fixed_error_witness :
  let env := always (with_status 200) in
  let run := @safeParseJson env (fenced (js "not json")) World0 in
  fst run = Throw (ErrorObj (js "Invalid JSON response from API. The response could not be parsed."))
  /\ snd run = {| calls := 0;
                  trace := [EvConsole (ErrorParseJson (fenced (js "not json")))] |}
  /\ (forall code, invalid_json_message <> http_error_message code)
  /\ (forall url retries, invalid_json_message <> exhausted_message url retries)
  /\ invalid_json_message <> no_content_message.
Proof.
  apply (@malformed_text_gives_fixed_error (always (with_status 200))
           (fenced (js "not json")) World0).
  reflexivity.
Defined.

End SanitizerClaims.

(** ** Claims on the batch orchestrator *)

Module PageClaims.
Import Js Text Host Host.Notations Common Observe MonadFacts Run.

Module R := Refactored.
Module S := Service.

Lemma returned_raised_length {A} (cs : list (Z * Result A)) :
  length (returned cs) + length (raised cs) = length cs.
Proof.
  induction cs as [| [pn o] rest IH]; [reflexivity |].
  rewrite PageFacts.returned_cons, PageFacts.raised_cons, !length_app.
  destruct o; cbn [length] in *; lia.
Qed.

Lemma service_entries_length cs :
  length (service_entries cs) = length (filter answered cs).
Proof.
  induction cs as [| [pn o] rest IH]; [reflexivity |].
  rewrite ServiceFacts.service_entries_cons. unfold answered at 1. cbn [filter snd].
  rewrite length_app, IH.
  destruct o as [[analysis |] | e]; cbn; try reflexivity.
  destruct (nullish analysis); reflexivity.
Qed.

(** C6.  Five page segments reach their model call and exactly one of
    the calls throws: [analyzePdfContentComprehensive] still returns.
    Its [pageAnalyses] are the entries of the four calls that returned,
    in page order, its [totalKeyPoints] are their key points, and the
    error of the failed call is in the console log under the page's
    number.  In the refactored service the model call is
    [analyzeIndividualPage]; in [geminiService.ts] it is the transport
    call with the decoding of its answer, and the four other pages are
    answered with an analysis. *)
Theorem one_failing_page_does_not_abort `{Env} `{S.Templates} text lang w :
  (let cs := model_calls lang (page_matches text)
               (no_arrays, found (page_matches text) w) in
   length cs = 5 -> length (raised cs) = 1 ->
   exists r w',
     R.analyzePdfContentComprehensive text lang w = (Ok r, w')
     /\ pageAnalyses r = map entry_of (returned cs)
     /\ length (pageAnalyses r) = 4
     /\ totalKeyPoints r = flat_map key_point_items (pageAnalyses r)
     /\ Forall (fun c => In (page_error comprehensive_label c) (trace w'))
               (raised cs))
  /\
  (let cs := service_calls lang (page_matches text)
               (no_arrays, found (page_matches text) w) in
   length cs = 5 -> length (raised cs) = 1 -> length (filter answered cs) = 4 ->
   exists r w',
     S.analyzePdfContentComprehensive text lang w = (Ok r, w')
     /\ pageAnalyses r = service_entries cs
     /\ length (pageAnalyses r) = 4
     /\ totalKeyPoints r = flat_map key_point_items (pageAnalyses r)
     /\ Forall (fun c => In (page_error service_label c) (trace w'))
               (raised cs)).
Proof.
  split; cbv zeta.
  - intros H5 H1.
    destruct (PageFacts.analyze_run text lang w) as (a' & w' & Hloop & Hrun).
    destruct (PageFacts.page_loop_run lang (page_matches text) no_arrays
                (found (page_matches text) w))
      as (a2 & w2 & Hloop2 & _ & Hp & Hk & _ & Hlog).
    rewrite Hloop in Hloop2. injection Hloop2 as <- <-.
    exists (comprehensive_result a' (js " total key points.")), w'.
    cbn [pageAnalyses totalKeyPoints comprehensive_result].
    cbn [app arr_pageAnalyses allKeyPoints no_arrays] in Hp, Hk.
    split; [exact Hrun |]. split; [exact Hp |].
    split.
    { rewrite Hp, length_map.
      pose proof (returned_raised_length
                    (model_calls lang (page_matches text)
                       (no_arrays, found (page_matches text) w))). lia. }
    split; [rewrite Hk, Hp; reflexivity | exact Hlog].
  - intros H5 H1 H4.
    destruct (ServiceFacts.service_analyze_run text lang w) as (a' & w' & Hloop & Hrun).
    destruct (ServiceFacts.batch_loop_run lang (page_matches text) no_arrays
                (found (page_matches text) w))
      as (a2 & w2 & Hloop2 & _ & Hp & Hk & Hlog).
    rewrite Hloop in Hloop2. injection Hloop2 as <- <-.
    exists (comprehensive_result a' (js " total key points identified.")), w'.
    cbn [pageAnalyses totalKeyPoints comprehensive_result].
    cbn [app arr_pageAnalyses allKeyPoints no_arrays] in Hp, Hk.
    split; [exact Hrun |]. split; [exact Hp |].
    split; [rewrite Hp, service_entries_length; exact H4 |].
    split; [rewrite Hk, Hp; reflexivity | exact Hlog].
Qed.

(** Five pages of which the third fails: after three server errors in
    the refactored service, by a rejected request in [geminiService.ts]. *)
Lemma one_failing_page_does_not_abort_witness :
  (let cs := @model_calls third_page_exhausts English (page_matches five_pages)
               (no_arrays, found (page_matches five_pages) World0) in
   (length cs = 5 /\ length (raised cs) = 1)
   /\ exists r w',
        @R.analyzePdfContentComprehensive third_page_exhausts five_pages English World0
          = (Ok r, w')
        /\ pageAnalyses r = map entry_of (returned cs)
        /\ length (pageAnalyses r) = 4
        /\ totalKeyPoints r = flat_map key_point_items (pageAnalyses r)
        /\ Forall (fun c => In (page_error comprehensive_label c) (trace w'))
                  (raised cs))
  /\
  (let cs := @service_calls third_page_rejected plain_templates English
               (page_matches five_pages)
               (no_arrays, found (page_matches five_pages) World0) in
   (length cs = 5 /\ length (raised cs) = 1 /\ length (filter answered cs) = 4)
   /\ exists r w',
        @S.analyzePdfContentComprehensive third_page_rejected plain_templates
           five_pages English World0 = (Ok r, w')
        /\ pageAnalyses r = service_entries cs
        /\ length (pageAnalyses r) = 4
        /\ totalKeyPoints r = flat_map key_point_items (pageAnalyses r)
        /\ Forall (fun c => In (page_error service_label c) (trace w'))
                  (raised cs)).
Proof.
  split; cbv zeta.
  - split; [split; vm_compute; reflexivity |].
    apply (proj1 (@one_failing_page_does_not_abort third_page_exhausts
                    plain_templates five_pages English World0));
      vm_compute; reflexivity.
  - split; [repeat split; vm_compute; reflexivity |].
    apply (proj2 (@one_failing_page_does_not_abort third_page_rejected
                    plain_templates five_pages English World0));
      vm_compute; reflexivity.
Defined.

(** C7.  The claim asks that the summary count the pages that were
    processed successfully and that [totalKeyPoints] hold their key
    points.  Both files push the page's entry before they spread its
    [keyPoints], which they guard with [|| []] only, not with
    [Array.isArray] as [generateQuestions] guards [options].  One page
    whose answer is [{"keyPoints":5,"summary":"Commencement"}]: the
    entry is pushed, the spread of the number throws, the [catch] clause
    logs the page as failed; the function returns a summary of "1 pages
    with 0 total key points", the failed page counted. *)
Theorem failed_page_is_counted :
  let env := one_answer key_points_number in
  (exists r w',
     @R.analyzePdfContentComprehensive env one_page English World0 = (Ok r, w')
     /\ map (fun entry => prop entry (js "keyPoints")) (pageAnalyses r) = [VNum 5 0]
     /\ overallSummary r
        = js "Comprehensive analysis of 1 pages with 0 total key points."
     /\ totalKeyPoints r = []
     /\ exists message,
          In (page_error comprehensive_label (1%Z, TypeError message)) (trace w'))
  /\
  (exists r w',
     @S.analyzePdfContentComprehensive env plain_templates one_page English World0
       = (Ok r, w')
     /\ map (fun entry => prop entry (js "keyPoints")) (pageAnalyses r) = [VNum 5 0]
     /\ overallSummary r
        = js "Comprehensive analysis of 1 pages with 0 total key points identified."
     /\ totalKeyPoints r = []
     /\ exists message,
          In (page_error service_label (1%Z, TypeError message)) (trace w')).
Proof.
  cbv zeta. split.
  - remember (@R.analyzePdfContentComprehensive (one_answer key_points_number)
                one_page English World0) as run eqn:E.
    vm_compute in E. subst run.
    eexists. eexists. split; [reflexivity |].
    repeat split. eexists. cbn. do 2 right. left. reflexivity.
  - remember (@S.analyzePdfContentComprehensive (one_answer key_points_number)
                plain_templates one_page English World0) as run eqn:E.
    vm_compute in E. subst run.
    eexists. eexists. split; [reflexivity |].
    repeat split. eexists. cbn. do 2 right. left. reflexivity.
Qed.

(** Apart from that, the aggregate is what the calls gave: for every OCR
    text and whatever the transport does, the function returns;
    [pageAnalyses] holds the entries of the calls that returned, in page
    order; the summary prints its length and that of [totalKeyPoints],
    which holds, entry by entry, the elements of the entry's [keyPoints]
    array (the code points of a string); an entry whose [keyPoints]
    cannot be spread adds nothing, its page having been logged as
    failed. *)
Lemma aggregate_follows_the_calls `{Env} `{S.Templates} text lang w :
  (let cs := model_calls lang (page_matches text)
               (no_arrays, found (page_matches text) w) in
   exists r,
     fst (R.analyzePdfContentComprehensive text lang w) = Ok r
     /\ pageAnalyses r = map entry_of (returned cs)
     /\ overallSummary r
        = js "Comprehensive analysis of " ++ showNat (length (pageAnalyses r))
             ++ js " pages with " ++ showNat (length (totalKeyPoints r))
             ++ js " total key points."
     /\ totalKeyPoints r = flat_map key_point_items (pageAnalyses r))
  /\
  (let cs := service_calls lang (page_matches text)
               (no_arrays, found (page_matches text) w) in
   exists r,
     fst (S.analyzePdfContentComprehensive text lang w) = Ok r
     /\ pageAnalyses r = service_entries cs
     /\ overallSummary r
        = js "Comprehensive analysis of " ++ showNat (length (pageAnalyses r))
             ++ js " pages with " ++ showNat (length (totalKeyPoints r))
             ++ js " total key points identified."
     /\ totalKeyPoints r = flat_map key_point_items (pageAnalyses r)).
Proof.
  split; cbv zeta.
  - destruct (PageFacts.analyze_run text lang w) as (a' & w' & Hloop & Hrun).
    destruct (PageFacts.page_loop_run lang (page_matches text) no_arrays
                (found (page_matches text) w))
      as (a2 & w2 & Hloop2 & _ & Hp & Hk & _).
    rewrite Hloop in Hloop2. injection Hloop2 as <- <-.
    cbn [app arr_pageAnalyses allKeyPoints no_arrays] in Hp, Hk.
    eexists. rewrite Hrun. split; [reflexivity |].
    cbn [pageAnalyses totalKeyPoints overallSummary comprehensive_result].
    split; [exact Hp |]. split; [reflexivity |].
    rewrite Hk, Hp. reflexivity.
  - destruct (ServiceFacts.service_analyze_run text lang w) as (a' & w' & Hloop & Hrun).
    destruct (ServiceFacts.batch_loop_run lang (page_matches text) no_arrays
                (found (page_matches text) w))
      as (a2 & w2 & Hloop2 & _ & Hp & Hk & _).
    rewrite Hloop in Hloop2. injection Hloop2 as <- <-.
    cbn [app arr_pageAnalyses allKeyPoints no_arrays] in Hp, Hk.
    eexists. rewrite Hrun. split; [reflexivity |].
    cbn [pageAnalyses totalKeyPoints overallSummary comprehensive_result].
    split; [exact Hp |]. split; [reflexivity |].
    rewrite Hk, Hp. reflexivity.
Qed.

Lemma filter_without {A} (f : A -> bool) before m after :
  f m = false -> filter f (before ++ m :: after) = filter f (before ++ after).
Proof.
  intros Hm. rewrite !filter_app. cbn [filter]. rewrite Hm. reflexivity.
Qed.

(** C8.  A page segment whose trimmed content is shorter than 50 code
    units is skipped: the loop body leaves the world and the three
    arrays exactly as they were (no transport call, no log entry, no
    delay, nothing pushed), and the whole call gives the result and has
    the effects of the loop run over the other segments. *)
Theorem sparse_page_is_skipped `{Env} `{S.Templates} text lang w before m after :
  page_matches text = before ++ m :: after ->
  length (trim (group2 m)) < 50 ->
  (forall s, R.page_body lang m s = (Ok tt, s))
  /\ (forall s, S.page_body lang m s = (Ok tt, s))
  /\ R.analyzePdfContentComprehensive text lang w
     = finish (js " total key points.")
         (R.page_loop lang (before ++ after)
            (no_arrays, found (page_matches text) w))
  /\ S.analyzePdfContentComprehensive text lang w
     = finish (js " total key points identified.")
         (S.batch_loop lang (before ++ after)
            (no_arrays, found (page_matches text) w)).
Proof.
  intros Hm Hlen.
  assert (D : dense m = false).
  { unfold dense. apply Nat.ltb_lt in Hlen. rewrite Hlen. reflexivity. }
  split; [intros s; apply PageFacts.page_body_sparse; exact D |].
  split; [intros s; apply ServiceFacts.service_page_body_sparse; exact D |].
  split.
  - destruct (PageFacts.analyze_run text lang w) as (a' & w' & Hloop & ->).
    rewrite PageFacts.page_loop_dense, Hm, (@filter_without _ dense before m after D),
      <- PageFacts.page_loop_dense in Hloop.
    rewrite Hm in *. rewrite Hloop. reflexivity.
  - destruct (ServiceFacts.service_analyze_run text lang w) as (a' & w' & Hloop & ->).
    rewrite ServiceFacts.batch_loop_dense, Hm, (@filter_without _ dense before m after D),
      <- ServiceFacts.batch_loop_dense in Hloop.
    rewrite Hm in *. rewrite Hloop. reflexivity.
Qed.

(** A cover page of five letters before a real page. *)
Lemma sparse_page_is_skipped_witness :
  let env := one_answer (analysis_json "one") in
  let cover := {| group1 := js "1"; group2 := js "  Cover  " |} in
  let real := {| group1 := js "2"; group2 := article |} in
  (page_matches cover_and_page = [] ++ cover :: [real]
   /\ length (trim (group2 cover)) < 50)
  /\ (forall s, @R.page_body env English cover s = (Ok tt, s))
  /\ (forall s, @S.page_body env plain_templates English cover s = (Ok tt, s))
  /\ @R.analyzePdfContentComprehensive env cover_and_page English World0
     = finish (js " total key points.")
         (@R.page_loop env English ([] ++ [real])
            (no_arrays, found (page_matches cover_and_page) World0))
  /\ @S.analyzePdfContentComprehensive env plain_templates cover_and_page English World0
     = finish (js " total key points identified.")
         (@S.batch_loop env plain_templates English ([] ++ [real])
            (no_arrays, found (page_matches cover_and_page) World0)).
Proof.
  cbv zeta. split; [split; [reflexivity | vm_compute; lia] |].
  apply (@sparse_page_is_skipped (one_answer (analysis_json "one")) plain_templates
           cover_and_page English World0 []
           {| group1 := js "1"; group2 := js "  Cover  " |}
           [{| group1 := js "2"; group2 := article |}]).
  - reflexivity.
  - vm_compute. lia.
Defined.

(** The cover page costs no transport call: one call for two pages. *)
Example cover_page_costs_nothing :
  let run := @R.analyzePdfContentComprehensive (one_answer (analysis_json "one"))
               cover_and_page English World0 in
  calls (snd run) = 1 /\ waits (trace (snd run)) = [200%Z]
  /\ exists r, fst run = Ok r /\ length (pageAnalyses r) = 1.
Proof. vm_compute. repeat split. eexists. split; reflexivity. Qed.

End PageClaims.

(** ** Claim on the question formatter *)

Module QuestionClaims.
Import Js Text Host Host.Notations Common Observe Measure Run.

(** C10.  Whenever [generateQuestions] returns, [totalQuestions] is the
    length of [questions], and the questions come from the response of
    the API: the body of the response the call received is JSON, its
    first candidate carries a text, and that text, fences removed and
    trimmed, parses to the payload.  When the payload is an array, each
    question is the payload's element with a truthy (so non-empty)
    [type], ["mcq"] unless the element had one, an array of [options],
    the four placeholders unless the element had an array, a truthy
    [answer], ["A"] unless the element had one, and a [matchingPairs]
    property, [null] unless the element had one; when the payload is not
    an array, [questions] is empty.  This holds for the refactored
    service, whose response is the one [fetchWithRetry] returned, and
    for [geminiService.ts], whose response is the answer to its one
    request, whose placeholders are "Option A" to "Option D" and which
    never returns on a payload that is not an array. *)
Theorem generated_questions_are_normalised `{Env} `{Service.Templates}
    analysisResults difficulty lang w :
  (forall r,
     fst (Refactored.generateQuestions analysisResults difficulty lang w) = Ok r ->
     totalQuestions r = length (questions r)
     /\ exists response data content payload,
          fst (Refactored.fetchWithRetry endpoint
                 (text_request Refactored.questions_prompt 5000)
                 Refactored.default_retries Refactored.default_delay w) = Ok response
          /\ JSON_parse (text response) = Some data
          /\ first_candidate data = VStr content
          /\ JSON_parse (clean content) = Some payload
          /\ match payload with
             | VArr qs =>
                 Forall2 (normalised [js "A"; js "B"; js "C"; js "D"])
                         qs (questions r)
             | _ => questions r = []
             end)
  /\
  (forall r,
     fst (Service.generateQuestions analysisResults difficulty lang w) = Ok r ->
     totalQuestions r = length (questions r)
     /\ exists response data content payload,
          transport (calls w) (questions_request analysisResults difficulty lang)
            = Responds response
          /\ ok response = true
          /\ JSON_parse (text response) = Some data
          /\ first_candidate data = VStr content
          /\ JSON_parse (clean content) = Some payload
          /\ match payload with
             | VArr qs =>
                 Forall2 (normalised [js "Option A"; js "Option B";
                                      js "Option C"; js "Option D"])
                         qs (questions r)
             | _ => questions r = []
             end).
Proof.
  split; intros r Hr.
  - apply QuestionTies.refactored_questions_of_response in Hr. exact Hr.
  - apply QuestionTies.service_questions_of_response in Hr. exact Hr.
Qed.

(** An answer with two questions, the second without type, options and
    answer. *)
Lemma generated_questions_are_normalised_witness :
  let env := one_answer questions_json in
  exists r r',
    (fst (@Refactored.generateQuestions env [one_result] (js "medium") English World0)
       = Ok r
     /\ fst (@Service.generateQuestions env plain_templates [one_result] (js "medium")
               English World0) = Ok r')
    /\ (totalQuestions r = 2 /\ length (questions r) = 2
        /\ totalQuestions r' = 2 /\ length (questions r') = 2)
    /\ (totalQuestions r = length (questions r)
        /\ exists response data content payload,
             fst (@Refactored.fetchWithRetry env (@endpoint env)
                    (text_request Refactored.questions_prompt 5000)
                    Refactored.default_retries Refactored.default_delay World0)
               = Ok response
             /\ Json.parse (text response) = Some data
             /\ first_candidate data = VStr content
             /\ Json.parse (clean content) = Some payload
             /\ match payload with
                | VArr qs =>
                    Forall2 (normalised [js "A"; js "B"; js "C"; js "D"])
                            qs (questions r)
                | _ => questions r = []
                end)
    /\ (totalQuestions r' = length (questions r')
        /\ exists response data content payload,
             @transport env (calls World0)
               (@questions_request env plain_templates [one_result] (js "medium")
                  English)
               = Responds response
             /\ ok response = true
             /\ Json.parse (text response) = Some data
             /\ first_candidate data = VStr content
             /\ Json.parse (clean content) = Some payload
             /\ match payload with
                | VArr qs =>
                    Forall2 (normalised [js "Option A"; js "Option B";
                                         js "Option C"; js "Option D"])
                            qs (questions r')
                | _ => questions r' = []
                end).
Proof.
  cbv zeta. eexists. eexists.
  split; [split; vm_compute; reflexivity |].
  split; [repeat split |].
  split.
  - apply (proj1 (@generated_questions_are_normalised (one_answer questions_json)
                    plain_templates [one_result] (js "medium") English World0)).
    vm_compute. reflexivity.
  - apply (proj2 (@generated_questions_are_normalised (one_answer questions_json)
                    plain_templates [one_result] (js "medium") English World0)).
    vm_compute. reflexivity.
Defined.

(** A payload that is an object, not an array: the refactored service
    returns no questions, [geminiService.ts] throws. *)
Example object_payload :
  let env := one_answer (Json.jq "{'question':'Q'}") in
  (exists r,
     fst (@Refactored.generateQuestions env [one_result] (js "easy") Tamil World0) = Ok r
     /\ questions r = [] /\ totalQuestions r = 0)
  /\ fst (@Service.generateQuestions env plain_templates [one_result] (js "easy")
            Tamil World0)
     = Throw (TypeError (js "questions.map is not a function")).
Proof.
  cbv zeta. split; [eexists; split; [vm_compute; reflexivity | split; reflexivity] |].
  vm_compute. reflexivity.
Qed.

End QuestionClaims.

(** ** Further properties of the retry wrapper *)

Module RetryExtras.
Import Js Text Host Host.Notations Common Refactored Observe Measure RetryFacts
  RetryAccounting Run.

(** X1.  [fetchWithRetry] returns the first response that is ok: when
    the attempts before number [j] fail and attempt [j], still within
    the allowed count, is answered with an ok response, that response is
    the result after [j + 1] requests and the [j] waits [delay],
    [2 * delay], ...; a first attempt that succeeds returns without any
    wait. *)
Theorem first_ok_response_is_returned `{Env} url options retries delay w j r :
  j < Z.to_nat retries ->
  (forall k, k < j ->
     failed (transport (calls w + k) (request url options)) = true) ->
  transport (calls w + j) (request url options) = Responds r ->
  ok r = true ->
  let run := fetchWithRetry url options retries delay w in
  fst run = Ok r
  /\ calls (snd run) = calls w + (j + 1)
  /\ exists evs,
       trace (snd run) = trace w ++ evs
       /\ waits evs = map (fun k => (delay * 2 ^ Z.of_nat k)%Z) (seq 0 j).
Proof.
  intros Hj Hfail Hresp Hok run. subst run. unfold fetchWithRetry.
  destruct (@retry_loop_success _ url options retries (Z.to_nat retries) j 0 delay
              w r Hj Hfail Hresp Hok) as (Hr & Hc & evs & Ht & Hw).
  split; [exact Hr |]. split; [rewrite Hc; lia |]. exists evs. auto.
Qed.

(** A rejected request, then an answer. *)
Lemma first_ok_response_is_returned_witness :
  let env := scripted [Rejects (js "Failed to fetch"); with_status 204] in
  let run := @fetchWithRetry env some_url post 3 1000 World0 in
  fst run = Ok {| status := 204; text := [] |}
  /\ calls (snd run) = 0 + (1 + 1)
  /\ exists evs,
       trace (snd run) = trace World0 ++ evs
       /\ waits evs = map (fun k => (1000 * 2 ^ Z.of_nat k)%Z) (seq 0 1).
Proof.
  apply (@first_ok_response_is_returned
           (scripted [Rejects (js "Failed to fetch"); with_status 204])
           some_url post 3 1000 World0 1 {| status := 204; text := [] |}).
  - change (Z.to_nat 3) with 3. lia.
  - intros k Hk. assert (k = 0) by lia. subst k. reflexivity.
  - reflexivity.
  - reflexivity.
Defined.

(** X2.  Whatever the transport does, a caller of [fetchWithRetry] sees
    one of two things: a response that is ok, or the exhausted-retries
    error.  No response with an error status is ever returned, and
    neither the HTTP error nor a rejection of [fetch] ever reaches the
    caller. *)
Theorem only_ok_or_exhausted `{Env} url options retries delay w :
  let run := fetchWithRetry url options retries delay w in
  (exists r, fst run = Ok r /\ ok r = true)
  \/ fst run = Throw (ErrorObj (exhausted_message url retries)).
Proof. apply retry_loop_outcome. Qed.

(** X3.  The requests of a call are counted by [retries]: at most
    [retries] requests are sent (none when [retries] is zero or
    negative), every one of them the same [url] and [options].  A call
    that returns has waited once less than it has sent requests; a call
    that fails has used all its attempts and waited after each, the last
    one included. *)
Theorem requests_and_waits_are_bounded `{Env} url options retries delay w :
  let run := fetchWithRetry url options retries delay w in
  exists n evs,
    n <= Z.to_nat retries
    /\ calls (snd run) = calls w + n
    /\ trace (snd run) = trace w ++ evs
    /\ fetches evs = repeat (request url options) n
    /\ (if returns (fst run)
        then 1 <= n /\ length (waits evs) = n - 1
        else n = Z.to_nat retries /\ length (waits evs) = n).
Proof. apply retry_loop_accounting. Qed.

(** X4.  When every allowed attempt fails, the call has waited
    [delay * (2 ^ retries - 1)] in all before it gives up: 7000 ms with
    the defaults. *)
Theorem exhausted_call_has_waited `{Env} url options retries delay w :
  (forall j, j < Z.to_nat retries ->
     failed (transport (calls w + j) (request url options)) = true) ->
  exists evs,
    trace (snd (fetchWithRetry url options retries delay w)) = trace w ++ evs
    /\ total (waits evs) = (delay * (2 ^ Z.of_nat (Z.to_nat retries) - 1))%Z.
Proof.
  intros Hfail. unfold fetchWithRetry.
  destruct (@retry_loop_exhausted _ url options retries (Z.to_nat retries) 0 delay
              w Hfail) as (_ & _ & evs & Ht & Hw).
  exists evs. split; [exact Ht |]. rewrite Hw. apply total_backoff.
Qed.

(** Three server errors with the defaults: seven seconds. *)
Lemma exhausted_call_has_waited_witness :
  let env := always (with_status 503) in
  exists evs,
    trace (snd (@fetchWithRetry env some_url post default_retries default_delay World0))
      = trace World0 ++ evs
    /\ total (waits evs) = 7000%Z.
Proof.
  apply (@exhausted_call_has_waited (always (with_status 503)) some_url post
           default_retries default_delay World0).
  intros j _. reflexivity.
Defined.

End RetryExtras.

(** ** Further properties of the sanitizer *)

Module SanitizerExtras.
Import Js Text Host Host.Notations Common Refactored Observe Measure
  SanitizerFacts FenceFacts Run.

Lemma trimStart_last l c :
  is_whitespace c = false -> exists l', trimStart (l ++ [c]) = l' ++ [c].
Proof.
  intros Hc. induction l as [| x l IH]; cbn.
  - rewrite Hc. exists []. reflexivity.
  - destruct (is_whitespace x); [exact IH |]. exists (x :: l). reflexivity.
Qed.

(** Trimming keeps a first code unit that is not white space. *)
Lemma trim_first c s :
  is_whitespace c = false -> exists s', trim (c :: s) = c :: s'.
Proof.
  intros Hc. unfold trim, trimEnd. cbn [trimStart]. rewrite Hc. cbn [rev].
  destruct (@trimStart_last (rev s) c Hc) as (l' & ->).
  rewrite rev_app_distr. cbn. eauto.
Qed.

(** A newline before the opening fence is taken with the three
    backticks by the second alternative of the expression; the language
    tag stays in the text. *)
Lemma remove_fences_after_newline rest :
  remove_fences (NL :: FENCE_JSON ++ rest) = js "json" ++ remove_fences rest.
Proof. reflexivity. Qed.

(** X5.  On a text in which no code fence occurs (three backticks in
    a row occur nowhere; one or two may) the clean-up only trims:
    [safeParseJson] returns what the parser makes of the trimmed text,
    and throws its own error, after logging the text, when the parser
    rejects the trimmed text. *)
Theorem plain_text_is_parsed_trimmed `{Env} text w :
  occurs FENCE text = false ->
  safeParseJson text w
  = match JSON_parse (trim text) with
    | Some v => (Ok v, w)
    | None => (Throw (ErrorObj invalid_json_message),
               after w [EvConsole (ErrorParseJson text)])
    end.
Proof.
  intros Hplain. rewrite safeParseJson_run. unfold clean.
  rewrite (remove_fences_without_fence _ Hplain). reflexivity.
Qed.

(** An array between blanks and newlines, two backticks in its string. *)
Lemma plain_text_is_parsed_trimmed_witness :
  let env := always (with_status 200) in
  let text := NL :: Json.jq "  [true, 'a" ++ [BACKTICK; BACKTICK]
                ++ Json.jq "b']  " ++ [NL] in
  occurs FENCE text = false
  /\ @safeParseJson env text World0
     = (Ok (VArr [VBool true; VStr (js "a" ++ [BACKTICK; BACKTICK] ++ js "b")]),
        World0).
Proof.
  cbv zeta.
  assert (Hplain : occurs FENCE
                     (NL :: Json.jq "  [true, 'a" ++ [BACKTICK; BACKTICK]
                        ++ Json.jq "b']  " ++ [NL]) = false)
    by (vm_compute; reflexivity).
  split; [exact Hplain |].
  exact (@plain_text_is_parsed_trimmed (always (with_status 200))
           (NL :: Json.jq "  [true, 'a" ++ [BACKTICK; BACKTICK]
              ++ Json.jq "b']  " ++ [NL]) World0 Hplain).
Defined.

(** X6.  A fenced answer that starts with a newline is rejected,
    whatever is between the fences: the expression removes the newline
    together with the backticks and leaves the language tag, so the text
    handed to the parser starts with the letter j, which no JSON text
    does. *)
Theorem newline_before_fence_is_rejected `{Env} s w :
  (forall t, JSON_parse (106%N :: t) = None) ->
  fst (safeParseJson (NL :: fenced s) w) = Throw (ErrorObj invalid_json_message).
Proof.
  intros Hj. rewrite safeParseJson_run. unfold clean, fenced.
  rewrite remove_fences_after_newline.
  change (js "json" ++ ?x) with (106%N :: (js "son" ++ x)).
  destruct (@trim_first 106%N (js "son" ++ remove_fences ([NL] ++ s ++ [NL] ++ FENCE))
              eq_refl) as (s' & ->).
  rewrite Hj. reflexivity.
Qed.

Lemma parse_rejects_j t : Json.parse (106%N :: t) = None.
Proof. reflexivity. Qed.

(** A valid object between the fences does not help. *)
Lemma newline_before_fence_is_rejected_witness :
  let env := always (with_status 200) in
  fst (@safeParseJson env (NL :: fenced (Json.jq "{'keyPoints':[]}")) World0)
  = Throw (ErrorObj invalid_json_message).
Proof.
  apply (@newline_before_fence_is_rejected (always (with_status 200))
           (Json.jq "{'keyPoints':[]}") World0).
  exact parse_rejects_j.
Defined.

End SanitizerExtras.

(** ** Further properties of the batch orchestrators *)

Module PageExtras.
Import Js Text Host Host.Notations Common Observe Measure MonadFacts RetryFacts
  EmitFacts PageAccounting WaitFacts Run.

Module R := Refactored.
Module S := Service.

(** A request answered with an error status ends the page by [continue]. *)
Lemma refused_page_continues `{Env} `{S.Templates} lang pn content w :
  (forall n req, exists r, transport n req = Responds r /\ ok r = false) ->
  fst (S.request_page_analysis lang pn content w) = Ok None.
Proof.
  intros Hall. unfold S.request_page_analysis. cbv zeta.
  unfold bind at 1. unfold fetch. cbv zeta.
  match goal with
  | |- context [transport ?n ?req] => destruct (Hall n req) as (r & -> & Hok)
  end.
  rewrite Hok. reflexivity.
Qed.

Lemma refused_pages_all_continue `{Env} `{S.Templates} lang ms :
  (forall n req, exists r, transport n req = Responds r /\ ok r = false) ->
  forall s, filter (fun c => negb (continued c)) (service_calls lang ms s) = [].
Proof.
  intros Hall. induction ms as [| m rest IH]; intros s; [reflexivity |].
  cbn [service_calls]. destruct (dense m); [| apply IH].
  cbn [filter]. unfold continued at 1. cbn [snd].
  rewrite (refused_page_continues _ _ _ _ Hall). cbn [negb]. apply IH.
Qed.

Lemma refused_pages_leave_no_entry `{Env} `{S.Templates} lang ms :
  (forall n req, exists r, transport n req = Responds r /\ ok r = false) ->
  forall s, service_entries (service_calls lang ms s) = [].
Proof.
  intros Hall. induction ms as [| m rest IH]; intros s; [reflexivity |].
  cbn [service_calls]. destruct (dense m); [| apply IH].
  rewrite ServiceFacts.service_entries_cons, (refused_page_continues _ _ _ _ Hall).
  apply IH.
Qed.

(** X7.  [analyzePdfContentComprehensive] of [geminiService.ts] sends
    exactly one request for every page segment with at least 50
    characters of trimmed content, in page order, each carrying the
    prompt of that page; shorter pages cost no request and nothing is
    ever requested twice. *)
Theorem one_request_per_analysed_page `{Env} `{S.Templates} text lang w :
  let run := S.analyzePdfContentComprehensive text lang w in
  let pages := filter dense (page_matches text) in
  calls (snd run) = calls w + length pages
  /\ exists evs,
       trace (snd run) = trace w ++ evs
       /\ fetches evs = map (page_request lang) pages.
Proof.
  cbv zeta.
  destruct (ServiceFacts.service_analyze_run text lang w) as (a' & w' & Hloop & ->).
  destruct (batch_loop_events lang (page_matches text) no_arrays
              (found (page_matches text) w)) as (Hc & evs & Ht & Hf & _).
  rewrite Hloop in Hc, Ht. cbn [snd found after calls trace] in *.
  split; [exact Hc |].
  exists (EvConsole (LogFoundPages (length (page_matches text))) :: evs).
  split; [rewrite Ht, <- app_assoc; reflexivity | exact Hf].
Qed.

(** X8.  In [geminiService.ts] the 500 ms delay follows every analysed
    page whose model call threw or was answered with an analysis, and no
    other: a page that leaves by [continue] (response not ok, or no
    candidate text) skips the delay together with the rest of the loop
    body. *)
Theorem delay_follows_pages_that_do_not_continue `{Env} `{S.Templates} text lang w :
  let cs := service_calls lang (page_matches text)
              (no_arrays, found (page_matches text) w) in
  exists evs,
    trace (snd (S.analyzePdfContentComprehensive text lang w)) = trace w ++ evs
    /\ waits evs = map (fun _ => 500%Z) (filter (fun c => negb (continued c)) cs).
Proof.
  cbv zeta.
  destruct (ServiceFacts.service_analyze_run text lang w) as (a' & w' & Hloop & ->).
  destruct (batch_loop_events lang (page_matches text) no_arrays
              (found (page_matches text) w)) as (_ & evs & Ht & _ & Hw).
  rewrite Hloop in Ht. cbn [snd found after calls trace] in *.
  exists (EvConsole (LogFoundPages (length (page_matches text))) :: evs).
  split; [rewrite Ht, <- app_assoc; reflexivity | exact Hw].
Qed.

(** X9.  When the API answers every request with an error status (a
    rate limit, say), [analyzePdfContentComprehensive] of
    [geminiService.ts] still requests every analysed page, one after the
    other without a single pause, and returns an analysis of no pages. *)
Theorem refused_pages_are_requested_without_pause `{Env} `{S.Templates} text lang w :
  (forall n req, exists r, transport n req = Responds r /\ ok r = false) ->
  let run := S.analyzePdfContentComprehensive text lang w in
  (exists r, fst run = Ok r /\ pageAnalyses r = [] /\ totalKeyPoints r = [])
  /\ exists evs,
       trace (snd run) = trace w ++ evs
       /\ fetches evs = map (page_request lang) (filter dense (page_matches text))
       /\ waits evs = [].
Proof.
  intros Hall. cbv zeta.
  destruct (ServiceFacts.service_analyze_run text lang w) as (a' & w' & Hloop & ->).
  destruct (batch_loop_events lang (page_matches text) no_arrays
              (found (page_matches text) w)) as (_ & evs & Ht & Hf & Hw).
  destruct (ServiceFacts.batch_loop_run lang (page_matches text) no_arrays
              (found (page_matches text) w))
    as (a2 & w2 & Hloop2 & _ & Hp & Hk & _).
  rewrite Hloop in Hloop2. injection Hloop2 as <- <-.
  rewrite Hloop in Ht. cbn [snd fst found after calls trace] in *.
  rewrite (refused_pages_all_continue lang (page_matches text) Hall) in Hw.
  rewrite (refused_pages_leave_no_entry lang (page_matches text) Hall) in Hp, Hk. cbn [app flat_map arr_pageAnalyses allKeyPoints no_arrays] in Hp, Hk.
  split.
  - eexists. split; [reflexivity |].
    cbn [pageAnalyses totalKeyPoints comprehensive_result]. auto.
  - exists (EvConsole (LogFoundPages (length (page_matches text))) :: evs).
    split; [rewrite Ht, <- app_assoc; reflexivity |]. auto.
Qed.

(** Five pages against an API that answers 429 to everything. *)
Lemma refused_pages_are_requested_without_pause_witness :
  let env := always (with_status 429) in
  let run := @S.analyzePdfContentComprehensive env plain_templates five_pages
               English World0 in
  (exists r, fst run = Ok r /\ pageAnalyses r = [] /\ totalKeyPoints r = [])
  /\ exists evs,
       trace (snd run) = trace World0 ++ evs
       /\ fetches evs
          = map (@page_request env plain_templates English)
              (filter dense (page_matches five_pages))
       /\ waits evs = [].
Proof.
  apply (@refused_pages_are_requested_without_pause (always (with_status 429))
           plain_templates five_pages English World0).
  intros n req. exists {| status := 429; text := [] |}. split; reflexivity.
Defined.

(** X10.  The refactored [analyzePdfContentComprehensive] sends between
    one and three requests for every analysed page, and every request of
    a run is the same request: the prompt of the refactored
    [analyzeIndividualPage] is a constant that interpolates neither the
    page content nor the page number nor the language. *)
Theorem refactored_requests_ignore_the_page `{Env} text lang w :
  let run := R.analyzePdfContentComprehensive text lang w in
  let pages := filter dense (page_matches text) in
  exists n evs,
    length pages <= n <= 3 * length pages
    /\ calls (snd run) = calls w + n
    /\ trace (snd run) = trace w ++ evs
    /\ fetches evs = repeat refactored_page_request n.
Proof.
  cbv zeta.
  destruct (PageFacts.analyze_run text lang w) as (a' & w' & Hloop & ->).
  destruct (page_loop_events lang (page_matches text) no_arrays
              (found (page_matches text) w)) as (n & evs & Hn & Hc & Ht & Hf).
  rewrite Hloop in Hc, Ht. cbn [snd found after calls trace] in *.
  exists n, (EvConsole (LogFoundPages (length (page_matches text))) :: evs).
  split; [exact Hn |]. split; [exact Hc |].
  split; [rewrite Ht, <- app_assoc; reflexivity | exact Hf].
Qed.

(** X11.  The refactored [analyzePdfContentComprehensive] always returns
    an empty [tnpscCategories]: [analyzeIndividualPage] builds its result
    from five named fields and drops the categories of the model's
    answer, so the guard [if (analysis.tnpscCategories)] never holds. *)
Theorem refactored_categories_are_always_empty `{Env} text lang w :
  exists r,
    fst (R.analyzePdfContentComprehensive text lang w) = Ok r
    /\ tnpscCategories r = [].
Proof.
  destruct (PageFacts.analyze_run text lang w) as (a' & w' & Hloop & ->).
  destruct (PageFacts.page_loop_run lang (page_matches text) no_arrays
              (found (page_matches text) w))
    as (a2 & w2 & Hloop2 & _ & _ & _ & Hcat & _).
  rewrite Hloop in Hloop2. injection Hloop2 as <- <-.
  eexists. split; [reflexivity |].
  cbn [tnpscCategories comprehensive_result]. rewrite Hcat. reflexivity.
Qed.

(** X28.  The refactored [analyzePdfContentComprehensive] pauses 200 ms
    after every analysed page, failed ones included: its waits are, page
    by page, the backoff waits of the page's call (at most three, starting
    at one second) followed by the pause; pages that are skipped wait for
    nothing. *)
Theorem refactored_pause_follows_every_analysed_page `{Env} text lang w :
  exists ks evs,
    length ks = length (filter dense (page_matches text))
    /\ Forall (fun k => k <= 3) ks
    /\ trace (snd (R.analyzePdfContentComprehensive text lang w)) = trace w ++ evs
    /\ waits evs
       = flat_map (fun k => backoff R.default_delay k ++ [200%Z]) ks.
Proof.
  destruct (PageFacts.analyze_run text lang w) as (a' & w' & Hloop & ->).
  destruct (page_loop_waits lang (page_matches text) no_arrays
              (found (page_matches text) w)) as (ks & evs & Hl & Hk & Ht & Hw).
  rewrite Hloop in Ht. cbn [snd found after calls trace] in *.
  exists ks, (EvConsole (LogFoundPages (length (page_matches text))) :: evs).
  split; [exact Hl |]. split; [exact Hk |].
  split; [rewrite Ht, <- app_assoc; reflexivity | exact Hw].
Qed.

End PageExtras.

(** ** Further properties of the single-page analysis *)

Module DecodeExtras.
Import Js Text Host Host.Notations Common Observe Measure MonadFacts RetryFacts
  RetryAccounting SanitizerFacts PageFacts DecodeFacts Run.

Module R := Refactored.

(** X12.  When the refactored [analyzeIndividualPage] fails, the error
    is the last thing it wrote to the console, under the page's number,
    and it is either the exhausted-retries error of [fetchWithRetry] or
    an error of decoding the answer (no candidate text, invalid JSON, a
    body that is not JSON, a value of the wrong type): a caller never
    sees a rejected [fetch] or an HTTP status error. *)
Theorem page_analysis_failure_is_logged `{Env} textContent pageNumber lang w e :
  let run := R.analyzeIndividualPage textContent pageNumber lang w in
  fst run = Throw e ->
  (e = ErrorObj (R.exhausted_message endpoint R.default_retries)
   \/ decoding_error e)
  /\ exists evs,
       trace (snd run)
       = trace w ++ evs
           ++ [EvConsole (ErrorPage (js "Error analyzing page") pageNumber e)].
Proof.
  cbv zeta. unfold R.analyzeIndividualPage. rewrite logged_and_rethrown.
  match goal with
  | |- context [match ?body w with _ => _ end] =>
      assert (G : grows body)
        by (pose proof fetchWithRetry_grows;
            pose proof safeParseJson_any_grows; grows);
      specialize (G w); destruct (body w) as [[a | e'] w1] eqn:Hm
  end; cbn [fst snd] in *; [discriminate |].
  intros [= ->]. split.
  - revert Hm. unfold bind.
    pose proof (retry_loop_outcome endpoint (text_request R.page_prompt 5000)
                  R.default_retries (Z.to_nat R.default_retries) 0 R.default_delay w)
      as Ho.
    fold (R.fetchWithRetry endpoint (text_request R.page_prompt 5000)
            R.default_retries R.default_delay) in Ho.
    destruct (R.fetchWithRetry _ _ _ _ w) as [[response | e0] w0].
    + destruct (json response w0) as [[data | e1] w2] eqn:Hj.
      * destruct (candidate_text data w2) as [[content | e2] w3] eqn:Hc.
        -- destruct (truthy content); cbn [negb].
           ++ destruct (R.safeParseJson_any content w3) as [[analysis | e3] w4] eqn:Hs.
              ** unfold member. destruct (nullish analysis); cbn; intros [= <- <-].
                 right. unfold decoding_error. eauto 6.
              ** intros [= <- <-]. right. eapply safeParseJson_any_throws; eauto.
           ++ intros [= <- <-]. right. left. reflexivity.
        -- intros [= <- <-]. right.
           destruct (candidate_text_throws _ _ Hc) as (msg & ->).
           unfold decoding_error. eauto 6.
      * intros [= <- <-]. right.
        destruct (parse_json_throws _ _ Hj) as (msg & ->).
        unfold decoding_error. eauto 6.
    + intros [= <- <-]. left.
      destruct Ho as [(r & Hr & _) | Hr]; cbn [fst] in Hr; congruence.
  - destruct G as (_ & evs & Ht). exists evs.
    cbn [after trace]. rewrite Ht, <- app_assoc. reflexivity.
Qed.

(** Every attempt meets a server error. *)
Lemma page_analysis_failure_is_logged_witness :
  let env := always (with_status 503) in
  let e := ErrorObj (R.exhausted_message (@endpoint env) R.default_retries) in
  let run := @R.analyzeIndividualPage env article 7 English World0 in
  (e = ErrorObj (R.exhausted_message (@endpoint env) R.default_retries)
   \/ decoding_error e)
  /\ exists evs,
       trace (snd run)
       = trace World0 ++ evs
           ++ [EvConsole (ErrorPage (js "Error analyzing page") 7 e)].
Proof.
  apply (@page_analysis_failure_is_logged (always (with_status 503)) article 7
           English World0).
  reflexivity.
Defined.

(** X13.  When the first attempt is answered with an ok response whose
    body is JSON, whose first candidate carries a non-empty text, and
    that text, fences removed and trimmed, is the JSON of a value other
    than [null], the refactored [analyzeIndividualPage] returns the five
    fields of the page analysis, each taken from the answer or, when the
    answer's is falsy, its default; it has sent one request, waited for
    nothing and written nothing to the console. *)
Theorem page_analysis_decodes_first_candidate `{Env} textContent pageNumber lang w
    r data content analysis :
  transport (calls w) refactored_page_request = Responds r ->
  ok r = true ->
  JSON_parse (text r) = Some data ->
  nullish data = false ->
  first_candidate data = VStr content ->
  content <> [] ->
  JSON_parse (clean content) = Some analysis ->
  nullish analysis = false ->
  R.analyzeIndividualPage textContent pageNumber lang w
  = (Ok (object
           [(js "pageNumber", num pageNumber);
            (js "keyPoints", or_else (prop analysis (js "keyPoints")) (VArr []));
            (js "studyPoints", or_else (prop analysis (js "studyPoints")) (VArr []));
            (js "summary", or_else (prop analysis (js "summary")) (VStr []));
            (js "tnpscRelevance",
               or_else (prop analysis (js "tnpscRelevance")) (VStr []))]),
     requested refactored_page_request w).
Proof.
  intros Ho Hok Hd Hnd Hc Hne Ha Hna.
  unfold R.analyzeIndividualPage. rewrite logged_and_rethrown.
  unfold bind at 1.
  rewrite (@fetchWithRetry_first_ok _ endpoint (text_request R.page_prompt 5000)
             R.default_delay w r Ho Hok).
  unfold bind at 1. unfold json, parse_json. rewrite Hd. cbn [ret].
  unfold bind at 1. rewrite (candidate_text_run _ _ Hnd), Hc.
  assert (Ht : truthy (VStr content) = true)
    by (destruct content; [congruence | reflexivity]).
  rewrite Ht. cbn [negb R.safeParseJson_any].
  unfold bind at 1. rewrite safeParseJson_run, Ha.
  unfold bind, member. rewrite Hna. reflexivity.
Qed.

(** A fenced analysis in the first candidate of the first answer. *)
Lemma page_analysis_decodes_first_candidate_witness :
  let env := one_answer (analysis_json "one") in
  let analysis :=
    match Json.parse (Json.jq "{'keyPoints':['one','Republic Day'],'summary':'Commencement','tnpscCategories':['Polity']}") with
    | Some a => a
    | None => VNull
    end in
  @R.analyzeIndividualPage env article 7 English World0
  = (Ok (object
           [(js "pageNumber", num 7);
            (js "keyPoints", or_else (prop analysis (js "keyPoints")) (VArr []));
            (js "studyPoints", or_else (prop analysis (js "studyPoints")) (VArr []));
            (js "summary", or_else (prop analysis (js "summary")) (VStr []));
            (js "tnpscRelevance",
               or_else (prop analysis (js "tnpscRelevance")) (VStr []))]),
     requested (@refactored_page_request env) World0).
Proof.
  cbv zeta.
  apply (@page_analysis_decodes_first_candidate (one_answer (analysis_json "one"))
           article 7 English World0
           {| status := 200; text := envelope (analysis_json "one") |}
           (match Json.parse (envelope (analysis_json "one")) with
            | Some d => d
            | None => VNull
            end)
           (analysis_json "one")).
  - reflexivity.
  - reflexivity.
  - vm_compute. reflexivity.
  - vm_compute. reflexivity.
  - vm_compute. reflexivity.
  - vm_compute. discriminate.
  - vm_compute. reflexivity.
  - vm_compute. reflexivity.
Defined.

End DecodeExtras.

(** ** Further properties of the question generator *)

Module QuestionExtras.
Import Js Text Host Host.Notations Common Observe Measure MonadFacts RetryFacts
  EmitFacts PageAccounting DecodeFacts QuestionFacts Run.

Module R := Refactored.
Module S := Service.

Lemma emits_format_question allow placeholder q :
  emits allow here (format_question placeholder q).
Proof. unfold format_question. emit. Qed.

Lemma emits_service_format_questions allow payload :
  emits allow here (S.format_questions payload).
Proof.
  destruct payload; cbn [S.format_questions]; auto with emit.
  apply emits_map_m. intros q. apply emits_format_question.
Qed.

(** X14.  [generateQuestions] of [geminiService.ts] gives up at the
    first failure: whatever happens it sends exactly one request, the
    one carrying the prompt built from the analysis results, and never
    waits; a response with an error status makes it throw the HTTP error
    of that status, a rejected [fetch] is rethrown as it is. *)
Theorem service_questions_are_requested_once `{Env} `{S.Templates}
    analysisResults difficulty lang w :
  let run := S.generateQuestions analysisResults difficulty lang w in
  let req := questions_request analysisResults difficulty lang in
  calls (snd run) = S (calls w)
  /\ (exists evs,
        trace (snd run) = trace w ++ EvFetch req :: evs
        /\ forallb console_only evs = true)
  /\ (forall r, transport (calls w) req = Responds r -> ok r = false ->
        fst run = Throw (ErrorObj (http_error_message (status r))))
  /\ (forall reason, transport (calls w) req = Rejects reason ->
        fst run = Throw (NetworkFailure reason)).
Proof.
  cbv zeta. unfold S.generateQuestions. cbv zeta.
  fold (questions_request analysisResults difficulty lang).
  match goal with
  | |- context [try_catch (bind (fetch ?u ?o) ?k) ?h] =>
      destruct (@emits_handler _ console_only here _ (bind (fetch u o) k) h w)
        as (Hc2 & evs2 & Ht2 & Hf2);
      [| destruct (@emits_after _ console_only here _ _ (fetch u o) k w)
           as (Hc1 & evs1 & Ht1 & Hf1);
         [| destruct (fetch_run u o w) as (Hc0 & Ht0)] ]
  end.
  - intros e. emit.
  - intros response. pose proof emits_clean_any.
    pose proof emits_service_format_questions. emit.
  - unfold here in *.
    split; [congruence |].
    split.
    { exists (evs1 ++ evs2).
      rewrite Ht2, Ht1, Ht0, <- !app_assoc, forallb_app, Hf1, Hf2. auto. }
    unfold questions_request, request.
    split.
    + intros r Ho Hok. unfold try_catch, bind, fetch. cbv zeta.
      rewrite Ho, Hok. reflexivity.
    + intros reason Ho. unfold try_catch, bind, fetch. cbv zeta.
      rewrite Ho. reflexivity.
Qed.

(** X15.  Whenever [generateQuestions] returns, in either file, its
    [summary] is the summaries of the analysis results joined by a
    space, its [keyPoints] their key points in order and its
    [difficulty] the argument: the model's answer reaches the questions
    and nothing else. *)
Theorem question_result_echoes_the_analysis `{Env} `{S.Templates}
    analysisResults difficulty lang w r :
  fst (R.generateQuestions analysisResults difficulty lang w) = Ok r
  \/ fst (S.generateQuestions analysisResults difficulty lang w) = Ok r ->
  summary r = join (js " ") (map ar_summary analysisResults)
  /\ keyPoints r = flat_map ar_keyPoints analysisResults
  /\ Common.difficulty r = difficulty.
Proof.
  intros [Hr | Hr]; revert Hr.
  - unfold R.generateQuestions, try_catch, bind.
    destruct (R.fetchWithRetry _ _ _ _ w) as [[response | e] w1]; [| discriminate].
    destruct (json response w1) as [[data | e] w2]; [| discriminate].
    destruct (candidate_text data w2) as [[content | e] w3]; [| discriminate].
    destruct (truthy content); cbn [negb]; [| discriminate].
    cbn [console emit].
    destruct (R.safeParseJson_any content _) as [[payload | e] w4]; [| discriminate].
    destruct (R.format_questions payload w4) as [[ys | e] w5]; [| discriminate].
    cbn. intros [= <-]. cbn. rewrite map_map. auto.
  - unfold S.generateQuestions, try_catch, bind.
    destruct (fetch _ _ w) as [[response | e] w1]; [| discriminate].
    destruct (ok response); cbn [negb]; [| discriminate].
    destruct (json response w1) as [[data | e] w2]; [| discriminate].
    destruct (candidate_text data w2) as [[content | e] w3]; [| discriminate].
    destruct (truthy content); cbn [negb]; [| discriminate].
    cbn [console emit].
    destruct (S.clean_any content _) as [[cleaned | e] w4]; [| discriminate].
    destruct (parse_json cleaned w4) as [[payload | e] w5]; [| discriminate].
    destruct (S.format_questions payload w5) as [[ys | e] w6]; [| discriminate].
    cbn. intros [= <-]. cbn. rewrite map_map. auto.
Qed.

(** One answer with two questions serves both files. *)
Lemma question_result_echoes_the_analysis_witness :
  let env := one_answer questions_json in
  exists r,
    summary r = join (js " ") (map ar_summary [one_result])
    /\ keyPoints r = flat_map ar_keyPoints [one_result]
    /\ Common.difficulty r = js "hard".
Proof.
  cbv zeta.
  exists (match fst (@R.generateQuestions (one_answer questions_json) [one_result]
                       (js "hard") English World0) with
          | Ok r => r
          | Throw _ => {| questions := []; summary := []; keyPoints := [];
                          difficulty := []; totalQuestions := 0 |}
          end).
  apply (@question_result_echoes_the_analysis (one_answer questions_json)
           plain_templates [one_result] (js "hard") English World0).
  left. vm_compute. reflexivity.
Defined.

(** X16.  The refactored [generateQuestions] does not depend on what it
    is asked about: its prompt is a constant, so for any two lists of
    analysis results, difficulties and languages the requests, the
    console output and the final world are the same, and so are the
    questions returned or the error thrown. *)
Theorem refactored_questions_ignore_their_input `{Env}
    analysisResults difficulty lang analysisResults' difficulty' lang' w :
  let run := R.generateQuestions analysisResults difficulty lang w in
  let run' := R.generateQuestions analysisResults' difficulty' lang' w in
  snd run = snd run'
  /\ match fst run, fst run' with
     | Ok r, Ok r' =>
         questions r = questions r' /\ totalQuestions r = totalQuestions r'
     | Throw e, Throw e' => e = e'
     | _, _ => False
     end.
Proof.
  cbv zeta. unfold R.generateQuestions, try_catch, bind.
  destruct (R.fetchWithRetry _ _ _ _ w) as [[response | e] w1]; [| cbn; auto].
  destruct (json response w1) as [[data | e] w2]; [| cbn; auto].
  destruct (candidate_text data w2) as [[content | e] w3]; [| cbn; auto].
  destruct (truthy content); cbn [negb]; [| cbn; auto].
  cbn [console emit].
  destruct (R.safeParseJson_any content _) as [[payload | e] w4]; [| cbn; auto].
  destruct (R.format_questions payload w4) as [[ys | e] w5]; cbn; auto.
Qed.

(** X17.  Formatting a question keeps everything else the model said
    about it: for a question that is an object, every property other
    than [type], [options], [answer] and [matchingPairs] (the question
    text, an explanation, ...) reads the same after the formatting, which
    writes nothing to the console. *)
Theorem formatting_keeps_other_fields placeholder props k w :
  NoDup (map fst props) ->
  k <> js "type" -> k <> js "options" -> k <> js "answer" ->
  k <> js "matchingPairs" ->
  exists y,
    format_question placeholder (VObj props) w = (Ok y, w)
    /\ prop y k = prop (VObj props) k.
Proof.
  intros Hnd Ht Ho Ha Hm.
  unfold format_question, bind, member. cbn [nullish ret].
  eexists. split; [reflexivity |].
  unfold object. rewrite fold_left_app. cbn [fold_left fst snd spread_props prop].
  rewrite !lookup_set_other by congruence.
  rewrite lookup_literal by exact Hnd.
  destruct (existsb _ props) eqn:E; [reflexivity |].
  rewrite (lookup_absent _ _ E). reflexivity.
Qed.

(** The text of a question without a type. *)
Lemma formatting_keeps_other_fields_witness :
  let props := [(js "question", VStr (js "Match the following"));
                (js "answer", VStr (js "B"))] in
  exists y,
    format_question [js "A"; js "B"; js "C"; js "D"] (VObj props) World0 = (Ok y, World0)
    /\ prop y (js "question") = prop (VObj props) (js "question").
Proof.
  apply (@formatting_keeps_other_fields [js "A"; js "B"; js "C"; js "D"]
           [(js "question", VStr (js "Match the following"));
            (js "answer", VStr (js "B"))] (js "question") World0).
  - apply NoDup_cons; [| apply NoDup_cons; [intros [] | apply NoDup_nil]].
    intros [E | []]. vm_compute in E. discriminate E.
  - keys_differ.
  - keys_differ.
  - keys_differ.
  - keys_differ.
Defined.

(** A [null] among the questions stops the formatting. *)
Lemma null_question_stops_the_map placeholder qs : forall w,
  In VNull qs ->
  map_m (format_question placeholder) qs w
  = (Throw (TypeError (js "Cannot read properties of null or undefined")), w).
Proof.
  induction qs as [| q rest IH]; intros w; [intros [] |].
  intros Hin. cbn [map_m]. unfold bind at 1.
  destruct (nullish q) eqn:Hq.
  - unfold format_question, bind, member. rewrite Hq. reflexivity.
  - destruct (format_question_run placeholder q w Hq) as (y & -> & _).
    destruct Hin as [-> | Hin]; [discriminate |].
    unfold bind. rewrite (IH w Hin). reflexivity.
Qed.

(** X27.  One [null] among the questions of the model's answer costs the
    whole quiz: when the first request is answered with an ok response
    whose candidate text is the JSON of an array that holds a [null],
    [generateQuestions] throws a [TypeError], in both files, and returns
    none of the other questions. *)
Theorem null_question_fails_the_quiz `{Env} `{S.Templates}
    analysisResults difficulty lang w r data content qs :
  (forall req, transport (calls w) req = Responds r) ->
  ok r = true ->
  JSON_parse (text r) = Some data ->
  nullish data = false ->
  first_candidate data = VStr content ->
  content <> [] ->
  JSON_parse (clean content) = Some (VArr qs) ->
  In VNull qs ->
  exists message,
    fst (R.generateQuestions analysisResults difficulty lang w)
      = Throw (TypeError message)
    /\ fst (S.generateQuestions analysisResults difficulty lang w)
       = Throw (TypeError message).
Proof.
  intros Ho Hok Hd Hnd Hc Hne Hp Hin.
  assert (Ht : truthy (VStr content) = true)
    by (destruct content; [congruence | reflexivity]).
  exists (js "Cannot read properties of null or undefined"). split.
  - unfold R.generateQuestions. rewrite logged_and_rethrown. cbv zeta.
    unfold bind at 1.
    rewrite (@fetchWithRetry_first_ok _ endpoint (text_request R.questions_prompt 5000)
               R.default_delay w r (Ho _) Hok).
    unfold bind at 1. unfold json, parse_json. rewrite Hd. cbn [ret].
    unfold bind at 1. rewrite (candidate_text_run _ _ Hnd), Hc, Ht. cbn [negb].
    unfold bind at 1. cbn [console emit].
    unfold bind at 1. cbn [R.safeParseJson_any].
    rewrite SanitizerFacts.safeParseJson_run, Hp.
    unfold bind at 1. cbn [R.format_questions].
    rewrite null_question_stops_the_map by exact Hin. reflexivity.
  - unfold S.generateQuestions. rewrite logged_and_rethrown. cbv zeta.
    unfold bind at 1. unfold fetch at 1. cbv zeta. rewrite Ho, Hok. cbn [negb].
    unfold bind at 1. unfold json, parse_json. rewrite Hd. cbn [ret].
    unfold bind at 1. rewrite (candidate_text_run _ _ Hnd), Hc, Ht. cbn [negb].
    unfold bind at 1. cbn [console emit].
    unfold bind at 1. cbn [S.clean_any ret].
    unfold bind at 1. unfold parse_json. rewrite Hp. cbn [ret].
    unfold bind at 1. cbn [S.format_questions].
    rewrite null_question_stops_the_map by exact Hin. reflexivity.
Qed.

(** An answer whose second question is [null]. *)
Lemma null_question_fails_the_quiz_witness :
  let payload := Json.jq "[{'question':'When?','answer':'D'},null]" in
  let env := always (answer payload) in
  exists message,
    fst (@R.generateQuestions env [one_result] (js "medium") English World0)
      = Throw (TypeError message)
    /\ fst (@S.generateQuestions env plain_templates [one_result] (js "medium")
              English World0)
       = Throw (TypeError message).
Proof.
  cbv zeta.
  apply (@null_question_fails_the_quiz
           (always (answer (Json.jq "[{'question':'When?','answer':'D'},null]")))
           plain_templates [one_result] (js "medium") English World0
           {| status := 200;
              text := envelope (Json.jq "[{'question':'When?','answer':'D'},null]") |}
           (match Json.parse
                    (envelope (Json.jq "[{'question':'When?','answer':'D'},null]")) with
            | Some d => d
            | None => VNull
            end)
           (Json.jq "[{'question':'When?','answer':'D'},null]")
           [VObj [(js "question", VStr (js "When?")); (js "answer", VStr (js "D"))];
            VNull]).
  - intros req. reflexivity.
  - reflexivity.
  - vm_compute. reflexivity.
  - vm_compute. reflexivity.
  - vm_compute. reflexivity.
  - vm_compute. discriminate.
  - vm_compute. reflexivity.
  - right. left. reflexivity.
Defined.

End QuestionExtras.

(** ** Further properties of page extraction and of the categories *)

Module ExtractionExtras.
Import Js Text Host Host.Notations Common Observe Measure MonadFacts
  PageTextFacts CategoryFacts Run.

Module S := Service.

(** X18.  The page expression finds what the OCR text carries: in a text
    made of well-formed pages (a number that is a non-empty run of
    digits, a content that does not run into the page's own end marker),
    each after a gap without equals sign, [matchAll] yields exactly
    these pages, in order, each with its number and its content. *)
Theorem pages_are_found_in_order pages tail :
  Forall (fun gm => plain (fst gm) /\ well_formed (snd gm)) pages ->
  plain tail ->
  page_matches (document pages tail) = map snd pages.
Proof.
  intros Hpages Htail. unfold page_matches, document.
  induction Hpages as [| [gap m] rest [Hgap Hm] _ IH]; cbn [flat_map map app fst snd].
  - rewrite <- (app_nil_r tail), scan_gap by exact Htail.
    cbn [scan]. rewrite app_nil_r. apply captures_gap.
  - rewrite <- !app_assoc, scan_gap by exact Hgap.
    rewrite scan_page by exact Hm.
    rewrite captures_app, captures_gap. cbn [app captures flat_map].
    f_equal. exact IH.
Qed.

(** Two pages, a newline between them. *)
Lemma pages_are_found_in_order_witness :
  let one := {| group1 := js "1"; group2 := article |} in
  let two := {| group1 := js "12"; group2 := js " = Cover = " |} in
  page_matches (document [([], one); ([NL], two)] [NL]) = [one; two].
Proof.
  cbv zeta.
  apply (@pages_are_found_in_order
           [([], {| group1 := js "1"; group2 := article |});
            ([NL], {| group1 := js "12"; group2 := js " = Cover = " |})] [NL]).
  - repeat constructor; cbn [fst snd group1 group2]; try discriminate;
      vm_compute; reflexivity.
  - reflexivity.
Defined.


End ExtractionExtras.

(** ** Properties of the image functions *)

Module ImageExtras.
Import Js Text Host Host.Notations Common Refactored Observe Measure MonadFacts
  RetryFacts RetryAccounting EmitFacts PageAccounting DecodeFacts
  RefactoredImages ImageFacts Run ImageRun.

(** X20.  When no file of the batch is an image (none at all, say),
    [analyzeMultipleImages] throws its no-valid-images error, logged
    under its own label, without reading a file, sending a request or
    calling the question generator. *)
Theorem no_image_means_no_request `{Env} generateQuestions files difficulty lang w :
  forallb (fun f => negb (is_image f)) files = true ->
  analyzeMultipleImages generateQuestions files difficulty lang w
  = (Throw (ErrorObj no_images_message),
     after w [EvConsole (ErrorIn (js "Error in analyzeMultipleImages:")
                           (ErrorObj no_images_message))]).
Proof.
  intros Hall. unfold analyzeMultipleImages. rewrite logged_and_rethrown.
  unfold bind, with_locals. rewrite (images_loop_skip lang files _ Hall).
  reflexivity.
Qed.

(** A PDF among the files, and a generator that would have answered. *)
Lemma no_image_means_no_request_witness :
  @analyzeMultipleImages (one_answer questions_json) no_questions [notes]
    (js "medium") English World0
  = (Throw (ErrorObj no_images_message),
     after World0 [EvConsole (ErrorIn (js "Error in analyzeMultipleImages:")
                                (ErrorObj no_images_message))]).
Proof.
  apply (@no_image_means_no_request (one_answer questions_json) no_questions
           [notes] (js "medium") English World0).
  reflexivity.
Defined.

(** X21.  One image that cannot be analysed aborts the batch: when the
    images before it were analysed and its own analysis throws,
    [analyzeMultipleImages] throws that same error; the world is the one
    the failed analysis left plus the log entry, so no later file is
    read or requested and the question generator is never called. *)
Theorem failing_image_aborts_the_batch `{Env} generateQuestions before f rest
    difficulty lang w e :
  let earlier := images_loop lang before ([], w) in
  let failed := analyzeImage f lang (snd (snd earlier)) in
  fst earlier = Ok tt ->
  is_image f = true ->
  fst failed = Throw e ->
  analyzeMultipleImages generateQuestions (before ++ f :: rest) difficulty lang w
  = (Throw e,
     after (snd failed)
       [EvConsole (ErrorIn (js "Error in analyzeMultipleImages:") e)]).
Proof.
  cbv zeta. intros Hearlier Hf He.
  unfold analyzeMultipleImages. rewrite logged_and_rethrown.
  unfold bind at 1. unfold with_locals. rewrite images_loop_app. unfold bind at 1.
  destruct (images_loop lang before ([], w)) as [r [acc w1]]. cbn [fst snd] in *.
  subst r.
  destruct (analyzeImage f lang w1) as [r w2] eqn:Hrun. cbn [fst snd] in *. subst r.
  rewrite (@images_loop_throw _ lang f rest acc w1 e w2 Hf Hrun). reflexivity.
Qed.

(** Three images; the second meets three server errors. *)
Lemma failing_image_aborts_the_batch_witness :
  let env := second_image_exhausts in
  let failed :=
    @analyzeImage env (png "Mg==") English
      (snd (snd (@images_loop env English [png "MQ=="] ([], World0)))) in
  @analyzeMultipleImages env no_questions ([png "MQ=="] ++ png "Mg==" :: [png "Mw=="])
    (js "medium") English World0
  = (Throw (ErrorObj (exhausted_message (@endpoint env) default_retries)),
     after (snd failed)
       [EvConsole (ErrorIn (js "Error in analyzeMultipleImages:")
                     (ErrorObj (exhausted_message (@endpoint env) default_retries)))]).
Proof.
  cbv zeta.
  apply (@failing_image_aborts_the_batch second_image_exhausts no_questions
           [png "MQ=="] (png "Mg==") [png "Mw=="] (js "medium") English World0
           (ErrorObj (exhausted_message (@endpoint second_image_exhausts)
                        default_retries))).
  - vm_compute. reflexivity.
  - reflexivity.
  - vm_compute. reflexivity.
Defined.

(** X22.  [analyzeImage] sends the image as it was read: for a file
    whose data URL is a header, a comma and a payload without comma, every
    request of the call carries the file's MIME type and the payload
    alone, the header cut off; there are between one and three requests,
    all the same. *)
Theorem image_is_sent_without_its_header `{Env} f lang w header payload :
  read_as_data_url f = Ok (header ++ COMMA :: payload) ->
  forallb (fun c => negb (c =? COMMA)%N) header = true ->
  forallb (fun c => negb (c =? COMMA)%N) payload = true ->
  let run := analyzeImage f lang w in
  let req := request endpoint
               (image_request image_prompt (file_type f) (VStr payload) 4000) in
  exists n evs,
    1 <= n <= 3
    /\ calls (snd run) = calls w + n
    /\ trace (snd run) = trace w ++ evs
    /\ fetches evs = repeat req n.
Proof.
  intros Hread Hh Hp. cbv zeta. unfold analyzeImage.
  unfold convertToBase64.
  assert (Hsecond : second_field (header ++ COMMA :: payload) = VStr payload).
  { unfold second_field. rewrite split_comma_two by assumption. reflexivity. }
  match goal with
  | |- context [try_catch (bind ?m0 ?k0) ?h] =>
      destruct (@emits_handler _ no_request here _ (bind m0 k0) h w)
        as (Hc2 & evs2 & Ht2 & Hf2); [intros e; emit |];
      assert (E0 : bind m0 k0 w = k0 (header ++ COMMA :: payload) w)
        by (unfold bind at 1; rewrite Hread; reflexivity)
  end.
  rewrite E0 in *. cbv beta in *. rewrite Hsecond in *.
  match goal with
  | _ : context [bind (fetchWithRetry ?u ?o ?r ?d) ?k] |- _ =>
      destruct (@emits_after _ no_request here _ _ (fetchWithRetry u o r d) k w)
        as (Hc1 & evs1 & Ht1 & Hf1);
      [ intros response; pose proof (@emits_safeParseJson_any _ no_request); emit |];
      destruct (retry_loop_accounting u o r (Z.to_nat r) 0 d w)
        as (n & evs & Hn & Hc & Ht & Hf & Hr);
      cbv zeta in *; fold (fetchWithRetry u o r d) in *
  end.
  unfold here in *. change (Z.to_nat default_retries) with 3 in *.
  exists n, (evs ++ evs1 ++ evs2).
  split; [destruct (returns _); lia |].
  split; [congruence |].
  split; [rewrite Ht2, Ht1, Ht, <- !app_assoc; reflexivity |].
  rewrite !fetches_app, Hf, (no_request_fetches _ Hf1), (no_request_fetches _ Hf2),
    !app_nil_r.
  reflexivity.
Qed.

(** A PNG read as a data URL. *)
Lemma image_is_sent_without_its_header_witness :
  let env := one_answer (analysis_json "one") in
  let run := @analyzeImage env (png "MQ==") English World0 in
  let req := request (@endpoint env)
               (image_request image_prompt (js "image/png") (VStr (js "MQ==")) 4000) in
  exists n evs,
    1 <= n <= 3
    /\ calls (snd run) = calls World0 + n
    /\ trace (snd run) = trace World0 ++ evs
    /\ fetches evs = repeat req n.
Proof.
  apply (@image_is_sent_without_its_header (one_answer (analysis_json "one"))
           (png "MQ==") English World0 (js "data:image/png;base64") (js "MQ==")).
  - reflexivity.
  - reflexivity.
  - reflexivity.
Defined.

End ImageExtras.

(** ** Retaking a quiz from the study history *)

Module HistoryExtras.
Import Js Text Host Host.Notations Common Observe Measure MonadFacts
  QuestionFacts History Run.

(** Recomputing [totalQuestions] from the questions gives back the record. *)
Lemma same_record (r : QuestionResult) :
  totalQuestions r = length (questions r) ->
  {| questions := questions r; summary := summary r; keyPoints := keyPoints r;
     difficulty := difficulty r;
     totalQuestions := or_zero (length (questions r)) |} = r.
Proof.
  destruct r as [qs sm kp d n]. cbn. intros ->. unfold or_zero.
  destruct (length qs); reflexivity.
Qed.

(** X23.  [handleRetakeQuiz] never throws and never leaves the retake
    marker set: for a record with analysis data, [isRetakingQuiz] is
    [null] when the handler is done, whether the questions were
    generated or not; for a record without, the handler shows its error
    toast and does nothing else, no request included. *)
Theorem retake_never_throws_and_clears_the_marker `{Env} `{Service.Templates}
    record ui w :
  let run := handleRetakeQuiz record (ui, w) in
  fst run = Ok tt
  /\ match rec_analysisData record with
     | Some _ => isRetakingQuiz (fst (snd run)) = VNull
     | None =>
         snd run
         = (toast (ToastError
                     (js "Cannot retake quiz: Original analysis data not found")) ui,
            w)
     end.
Proof.
  cbv zeta. unfold handleRetakeQuiz.
  destruct (rec_analysisData record) as [analysisData |]; [| split; reflexivity].
  unfold finally, try_catch, bind, lift, modify, ret, throw. cbn [fst snd].
  match goal with
  | |- context [Service.generateQuestions ?a ?d ?l w] =>
      destruct (Service.generateQuestions a d l w) as [[result | e] w1]
  end; cbn [fst snd]; split; reflexivity.
Qed.

(** X24.  When [generateQuestions] returns, [handleRetakeQuiz] hands
    exactly its result to the application context (recomputing
    [totalQuestions] from the questions changes nothing), sets the
    difficulty and the language of the record, shows the success toast
    and adds nothing to what [generateQuestions] did to the world. *)
Theorem retake_stores_the_generated_quiz `{Env} `{Service.Templates}
    record analysisData ui w result w1 :
  rec_analysisData record = Some analysisData ->
  Service.generateQuestions [analysisData] (rec_difficulty record)
    (language_of (rec_language record)) w = (Ok result, w1) ->
  handleRetakeQuiz record (ui, w)
  = (Ok tt,
     ({| isRetakingQuiz := VNull;
         questionResult := Some result;
         ctx_difficulty := rec_difficulty record;
         ctx_outputLanguage := rec_language record;
         toasts := toasts ui
                     ++ [ToastSuccess (js "New quiz generated! Starting quiz...")] |},
      w1)).
Proof.
  intros Hdata Hrun. unfold handleRetakeQuiz. rewrite Hdata.
  unfold finally, try_catch, bind, lift, modify, ret, throw. cbn [fst snd].
  rewrite Hrun.
  assert (Ht : totalQuestions result = length (questions result)).
  { apply (@service_questions _ _ [analysisData] (rec_difficulty record)
             (language_of (rec_language record)) w result).
    rewrite Hrun. reflexivity. }
  cbn [fst snd]. rewrite (same_record result Ht). reflexivity.
Qed.

(** A record of the history, and the answer of the runs. *)
Lemma retake_stores_the_generated_quiz_witness :
  let env := one_answer questions_json in
  let record := {| rec_id := VStr (js "h1"); rec_difficulty := js "hard";
                   rec_language := js "tamil";
                   rec_analysisData := Some one_result |} in
  let ui := {| isRetakingQuiz := VNull; questionResult := None;
               ctx_difficulty := js "medium"; ctx_outputLanguage := js "english";
               toasts := [] |} in
  let generated := @Service.generateQuestions env plain_templates [one_result]
                     (js "hard") Tamil World0 in
  exists result,
    fst generated = Ok result
    /\ @handleRetakeQuiz env plain_templates record (ui, World0)
       = (Ok tt,
          ({| isRetakingQuiz := VNull;
              questionResult := Some result;
              ctx_difficulty := js "hard";
              ctx_outputLanguage := js "tamil";
              toasts := [ToastSuccess (js "New quiz generated! Starting quiz...")] |},
           snd generated)).
Proof.
  cbv zeta.
  destruct (@Service.generateQuestions (one_answer questions_json) plain_templates
              [one_result] (js "hard") Tamil World0) as [[result | e] w1] eqn:Hrun.
  - exists result. split; [reflexivity |].
    apply (@retake_stores_the_generated_quiz (one_answer questions_json)
             plain_templates
             {| rec_id := VStr (js "h1"); rec_difficulty := js "hard";
                rec_language := js "tamil"; rec_analysisData := Some one_result |}
             one_result
             {| isRetakingQuiz := VNull; questionResult := None;
                ctx_difficulty := js "medium"; ctx_outputLanguage := js "english";
                toasts := [] |}
             World0 result w1).
    + reflexivity.
    + exact Hrun.
  - exfalso. vm_compute in Hrun. discriminate Hrun.
Defined.

(** X25.  When [generateQuestions] throws, [handleRetakeQuiz] swallows
    the error: it logs it, shows the failure toast and leaves the quiz,
    the difficulty and the language of the application context as they
    were. *)
Theorem failed_retake_keeps_the_previous_quiz `{Env} `{Service.Templates}
    record analysisData ui w e w1 :
  rec_analysisData record = Some analysisData ->
  Service.generateQuestions [analysisData] (rec_difficulty record)
    (language_of (rec_language record)) w = (Throw e, w1) ->
  handleRetakeQuiz record (ui, w)
  = (Ok tt,
     ({| isRetakingQuiz := VNull;
         questionResult := questionResult ui;
         ctx_difficulty := ctx_difficulty ui;
         ctx_outputLanguage := ctx_outputLanguage ui;
         toasts := toasts ui
                     ++ [ToastError
                           (js "Failed to generate new quiz. Please try again.")] |},
      after w1 [EvConsole (ErrorIn (js "Error generating retake quiz:") e)])).
Proof.
  intros Hdata Hrun. unfold handleRetakeQuiz. rewrite Hdata.
  unfold finally, try_catch, bind, lift, modify, ret, throw. cbn [fst snd].
  rewrite Hrun. reflexivity.
Qed.

(** The API is down. *)
Lemma failed_retake_keeps_the_previous_quiz_witness :
  let env := always (with_status 503) in
  let record := {| rec_id := VStr (js "h1"); rec_difficulty := js "hard";
                   rec_language := js "english";
                   rec_analysisData := Some one_result |} in
  let ui := {| isRetakingQuiz := VNull; questionResult := None;
               ctx_difficulty := js "medium"; ctx_outputLanguage := js "tamil";
               toasts := [] |} in
  let failed := @Service.generateQuestions env plain_templates [one_result]
                  (js "hard") English World0 in
  @handleRetakeQuiz env plain_templates record (ui, World0)
  = (Ok tt,
     ({| isRetakingQuiz := VNull;
         questionResult := None;
         ctx_difficulty := js "medium";
         ctx_outputLanguage := js "tamil";
         toasts := [ToastError (js "Failed to generate new quiz. Please try again.")] |},
      after (snd failed)
        [EvConsole (ErrorIn (js "Error generating retake quiz:")
                      (ErrorObj (http_error_message 503)))])).
Proof.
  cbv zeta.
  apply (@failed_retake_keeps_the_previous_quiz (always (with_status 503))
           plain_templates
           {| rec_id := VStr (js "h1"); rec_difficulty := js "hard";
              rec_language := js "english"; rec_analysisData := Some one_result |}
           one_result
           {| isRetakingQuiz := VNull; questionResult := None;
              ctx_difficulty := js "medium"; ctx_outputLanguage := js "tamil";
              toasts := [] |}
           World0 (ErrorObj (http_error_message 503))).
  - reflexivity.
  - vm_compute. reflexivity.
Defined.

End HistoryExtras.

(** ** A fence inside the payload *)

Module FenceExtras.
Import Js Text Host Host.Notations Common Refactored Observe Measure
  SanitizerFacts FenceFacts Run.

(** X26.  The clean-up of [safeParseJson] does not stop at the ends of
    the text: three backticks anywhere in it are cut out before the
    parser sees it.  For texts [a] and [b] without backticks, [a] not
    ending in a newline and [b] not starting with the tag [json], the
    result for [a], a fence and [b] is the result for [a] followed by
    [b]; a JSON string that holds a fence loses it. *)
Theorem fence_inside_the_payload_is_cut `{Env} a b w :
  Forall (fun c => c <> BACKTICK) a ->
  last a 0%N <> NL ->
  Forall (fun c => c <> BACKTICK) b ->
  starts_with (js "json") b = false ->
  safeParseJson (a ++ FENCE ++ b) w
  = match JSON_parse (trim (a ++ b)) with
    | Some v => (Ok v, w)
    | None => (Throw (ErrorObj invalid_json_message),
               after w [EvConsole (ErrorParseJson (a ++ FENCE ++ b))])
    end.
Proof.
  intros Ha Hl Hb Hj. rewrite safeParseJson_run. unfold clean.
  rewrite fence_inside_is_cut by assumption. reflexivity.
Qed.

(** A code sample in a JSON string. *)
Lemma fence_inside_the_payload_is_cut_witness :
  let env := always (with_status 200) in
  @safeParseJson env (Json.jq "{'code':'x" ++ FENCE ++ Json.jq "y'}") World0
  = (Ok (VObj [(js "code", VStr (js "xy"))]), World0).
Proof.
  cbv zeta.
  rewrite (@fence_inside_the_payload_is_cut (always (with_status 200))
             (Json.jq "{'code':'x") (Json.jq "y'}") World0).
  - vm_compute. reflexivity.
  - repeat constructor; discriminate.
  - discriminate.
  - repeat constructor; discriminate.
  - reflexivity.
Defined.

End FenceExtras.
